(** * Session-tracking core of the event analytics repository

    A shallow embedding of the two session-log implementations of the
    repository and of the socket handlers built on them:

    - [Backend]: the flat [CursorLog] model ([backend/models/CursorLog.js]),
      the REST routes of [backend/routes/cursor.js] and the socket handlers
      of [setupSocketHandlers];
    - [Dashboard]: the nested [CursorLog] model
      ([event-analytics-dashboard/backend/models/CursorLog.js]), the socket
      handlers of [sockets/cursorSocket.js] and the routes of
      [routes/cursorRoutes.js].

    Dates are milliseconds since the epoch ([Z]); JavaScript numbers that
    carry coordinates are rationals ([Q]); a MongoDB collection is the list
    of its documents in insertion order, [findOne] returning the first
    match together with its position and [save] writing it back there.

    In a [run], a handler runs to completion before the next one starts, and
    takes the time it runs at as an argument (every [new Date()] of one
    handler reads that time).  A handler that waits for the store gives way
    to the others: the handlers that start a session, and the [cursor-move]
    handler of the flat server, are also given in the two parts their wait
    cuts them in, and a [phase_run] takes a schedule in which other handlers
    come between the two parts of a session start.  There a lookup reads the
    collection when its part ends, and a write changes it when its part
    begins.

    The queries of the store succeed, and the payloads the handlers persist
    are well-formed for the schema, so that [save] does not reject them.
    The nested schema trims the strings of some paths.  The page and the
    element of a cursor sample and the page of a page visit are trimmed
    where they are stored; the other trimmed strings (session ids, user
    agents, addresses, places and device names) are taken to arrive without
    white space around them. *)

From Stdlib Require Import String Ascii List Bool ZArith QArith Qround Lia Lqa.
From Stdlib Require Import Sorting.Sorted Permutation.
Import ListNotations.

Local Open Scope string_scope.
Local Open Scope list_scope.
Local Open Scope Z_scope.

(** ** Collections *)

Module Collection.

Section Ops.
Context {A : Type}.

(** [Model.findOne(filter)]: the first matching document and its position. *)
Fixpoint findOne_from (i : nat) (p : A -> bool) (db : list A) : option (nat * A) :=
  match db with
  | [] => None
  | d :: rest => if p d then Some (i, d) else findOne_from (S i) p rest
  end.

Definition findOne (p : A -> bool) (db : list A) : option (nat * A) :=
  findOne_from 0 p db.

(** [doc.save()] of a document read at position [i]. *)
Fixpoint save (i : nat) (d : A) (db : list A) : list A :=
  match db, i with
  | [], _ => []
  | _ :: rest, O => d :: rest
  | x :: rest, S j => x :: save j d rest
  end.

(** [new Model(doc).save()] / [Model.create(doc)]. *)
Definition create (d : A) (db : list A) : list A := db ++ [d].

(** [Model.countDocuments(filter)]. *)
Definition countDocuments (p : A -> bool) (db : list A) : nat :=
  length (filter p db).
End Ops.

End Collection.

(** JavaScript truthiness of an optional string: [undefined] and the empty
    string are falsy. *)
Definition truthy (o : option string) : bool :=
  match o with
  | Some s => negb (s =? "")%string
  | None => false
  end.

(** The strings an [ObjectId] prints as, 24 hexadecimal digits: the instance
    of the validator [isMongoId] the examples run with. *)
Definition isHexDigit (c : ascii) : bool :=
  let n := nat_of_ascii c in
  ((48 <=? n) && (n <=? 57) || (65 <=? n) && (n <=? 70)
   || (97 <=? n) && (n <=? 102))%nat.

Definition hex24 (s : string) : bool :=
  (String.length s =? 24)%nat && forallb isHexDigit (list_ascii_of_string s).

(** [String.prototype.trim], which a schema path declared with [trim: true]
    applies to the value it is given.  A string is read as the sequence of its
    characters, each below U+0100; the white space among them is the tab, the
    line feed, the vertical tab, the form feed, the carriage return, the
    space and the no-break space. *)
Definition isWhiteSpace (c : ascii) : bool :=
  let n := nat_of_ascii c in
  ((9 <=? n) && (n <=? 13) || (n =? 32) || (n =? 160))%nat.

Fixpoint trimStart (s : string) : string :=
  match s with
  | EmptyString => EmptyString
  | String c rest => if isWhiteSpace c then trimStart rest else s
  end.

Fixpoint trimEnd (s : string) : string :=
  match s with
  | EmptyString => EmptyString
  | String c rest =>
    match trimEnd rest with
    | EmptyString => if isWhiteSpace c then EmptyString else String c EmptyString
    | kept => String c kept
    end
  end.

Definition trim (s : string) : string := trimEnd (trimStart s).

(** ** Values, maps and rooms shared by the two servers *)

Module Runtime.

(** A truthy string, or nothing: [undefined], [null] and the empty string
    are falsy. *)
Definition truthy_value (o : option string) : option string :=
  match o with
  | Some s => if (s =? "")%string then None else Some s
  | None => None
  end.

(** [a === b] on values that are a string or [null]/[undefined]. *)
Definition strict_eq (a b : option string) : bool :=
  match a, b with
  | Some x, Some y => (x =? y)%string
  | None, None => true
  | _, _ => false
  end.

(** A JavaScript [Map] with string keys, as the list of its entries in
    insertion order: [map.get], [map.set] (an existing key keeps its place)
    and [map.delete]. *)
Fixpoint lookup {A} (k : string) (l : list (string * A)) : option A :=
  match l with
  | [] => None
  | (k', v) :: rest => if (k' =? k)%string then Some v else lookup k rest
  end.

Fixpoint assign {A} (k : string) (v : A) (l : list (string * A)) : list (string * A) :=
  match l with
  | [] => [(k, v)]
  | (k', v') :: rest =>
    if (k' =? k)%string then (k, v) :: rest else (k', v') :: assign k v rest
  end.

Definition remove_key {A} (k : string) (l : list (string * A)) : list (string * A) :=
  filter (fun kv => negb (fst kv =? k)%string) l.

(** Room membership of the socket.io adapter, for the rooms [event-<id>];
    a pair [(sid, eid)] says socket [sid] is in the room of event [eid]. *)
Definition in_room (sid eid : string) (m : string * string) : bool :=
  (fst m =? sid)%string && (snd m =? eid)%string.

Definition socket_join (sid eid : string) (rs : list (string * string)) :=
  if existsb (in_room sid eid) rs then rs else rs ++ [(sid, eid)].

Definition socket_leave (sid eid : string) (rs : list (string * string)) :=
  filter (fun m => negb (in_room sid eid m)) rs.

Definition leave_all (sid : string) (rs : list (string * string)) :=
  filter (fun m => negb (fst m =? sid)%string) rs.

Definition room_members (eid : string) (rs : list (string * string)) : list string :=
  map fst (filter (fun m => (snd m =? eid)%string) rs).

Definition rooms_of (sid : string) (rs : list (string * string)) : list string :=
  map snd (filter (fun m => (fst m =? sid)%string) rs).

End Runtime.

(** ** Aggregation operators

    The stages of the aggregation pipelines the models and routes run.
    Numbers are rationals; a [$group] stage yields its rows in the order in
    which their keys first appear and a [$sort] stage is stable, the same
    way in every query.

    [Model.find] and [Model.findOne] cast the values of a filter to the
    schema, so that the string of an id finds the documents with that id;
    [Model.aggregate] sends its stages as they are, and in a [$match] stage
    a string equals no [ObjectId]. *)

Module Mongo.

(** The value a [$match] stage compares a stored [ObjectId] with: an
    [ObjectId], or the string a route read from the URL. *)
Inductive QueryValue :=
| AsObjectId (id : string)
| AsString (s : string).

Definition matches_id (stored : string) (v : QueryValue) : bool :=
  match v with
  | AsObjectId id => (stored =? id)%string
  | AsString _ => false
  end.

(** The integer nearest to [q], a tie going to the even one. *)
Definition round_half_even (q : Q) : Z :=
  let f := Qfloor q in
  match Qcompare (q - inject_Z f) (1 # 2) with
  | Lt => f
  | Gt => f + 1
  | Eq => if Z.even f then f else f + 1
  end.

(** [{ $round: [q, 2] }]. *)
Definition round2 (q : Q) : Q := (inject_Z (round_half_even (q * 100)) / 100)%Q.

Definition Qsum (l : list Q) : Q := fold_right Qplus 0%Q l.

(** [$avg] over the values that are numbers; [null] when there is none. *)
Definition avg (l : list Q) : option Q :=
  match l with
  | [] => None
  | _ :: _ => Some (Qsum l / inject_Z (Z.of_nat (length l)))%Q
  end.

(** [$addToSet] followed by [$size]: the number of distinct strings. *)
Fixpoint distinct_strings (l : list string) : list string :=
  match l with
  | [] => []
  | x :: rest => x :: filter (fun y => negb (y =? x)%string) (distinct_strings rest)
  end.


Section Grouping.
Context {A K : Type}.
Variable eqb : K -> K -> bool.

(** The distinct values of a list, in order of first appearance. *)
Fixpoint distinct (ks : list K) : list K :=
  match ks with
  | [] => []
  | k :: rest => k :: filter (fun k' => negb (eqb k' k)) (distinct rest)
  end.

(** [$group] with [_id: key]: every distinct key with the documents that
    have it. *)
Definition group (key : A -> K) (docs : list A) : list (K * list A) :=
  map (fun k => (k, filter (fun a => eqb (key a) k) docs)) (distinct (map key docs)).
End Grouping.

Section Sorting.
Context {A : Type}.
(** [before a b]: [a] may come before [b]. *)
Variable before : A -> A -> bool.

(** [$sort], as a stable insertion sort. *)
Fixpoint insert (a : A) (l : list A) : list A :=
  match l with
  | [] => [a]
  | b :: rest => if before a b then a :: l else b :: insert a rest
  end.

Definition sort (l : list A) : list A := fold_right insert [] l.
End Sorting.

End Mongo.

(** ** The flat model, its REST routes and its socket handlers ([backend/]) *)

Module Backend.
Import Collection Runtime.

Inductive Action := move | click | hover | scroll.

Record CursorSample := mkCursorSample {
  cs_x : Q;
  cs_y : Q;
  cs_timestamp : Z;
  cs_element : option string;
  cs_action : Action
}.

Record PageView := mkPageView {
  pv_page : string;
  pv_timestamp : Z;
  pv_duration : option Z
}.

Inductive InteractionType := button_click | form_submit | link_click | scroll_interaction | resize.

Record Interaction := mkInteraction {
  in_type : InteractionType;
  in_target : string;
  in_timestamp : Z;
  in_metadata : list (string * string)
}.

Record DeviceInfo := mkDeviceInfo {
  di_screenResolution : option string;
  di_viewportSize : option string;
  di_deviceType : option string;
  di_browser : option string;
  di_os : option string
}.

Record Location := mkLocation {
  loc_country : option string;
  loc_region : option string;
  loc_city : option string;
  loc_timezone : option string
}.

Record CursorLog := mkCursorLog {
  eventId : string;
  userId : string;
  sessionId : string;
  userAgent : option string;
  ipAddress : option string;
  cursorData : list CursorSample;
  pageViews : list PageView;
  interactions : list Interaction;
  sessionStart : Z;
  sessionEnd : option Z;
  totalDuration : option Z;
  isActive : bool;
  deviceInfo : option DeviceInfo;
  location : option Location
}.

Definition set_cursorData (v : list CursorSample) (d : CursorLog) : CursorLog :=
  mkCursorLog (eventId d) (userId d) (sessionId d) (userAgent d) (ipAddress d)
    v (pageViews d) (interactions d) (sessionStart d) (sessionEnd d)
    (totalDuration d) (isActive d) (deviceInfo d) (location d).

Definition set_pageViews (v : list PageView) (d : CursorLog) : CursorLog :=
  mkCursorLog (eventId d) (userId d) (sessionId d) (userAgent d) (ipAddress d)
    (cursorData d) v (interactions d) (sessionStart d) (sessionEnd d)
    (totalDuration d) (isActive d) (deviceInfo d) (location d).

Definition set_interactions (v : list Interaction) (d : CursorLog) : CursorLog :=
  mkCursorLog (eventId d) (userId d) (sessionId d) (userAgent d) (ipAddress d)
    (cursorData d) (pageViews d) v (sessionStart d) (sessionEnd d)
    (totalDuration d) (isActive d) (deviceInfo d) (location d).

Definition set_timing (start : Z) (stop dur : option Z) (act : bool) (d : CursorLog) : CursorLog :=
  mkCursorLog (eventId d) (userId d) (sessionId d) (userAgent d) (ipAddress d)
    (cursorData d) (pageViews d) (interactions d) start stop dur act
    (deviceInfo d) (location d).

Definition set_context (ua ip : option string) (di : option DeviceInfo)
    (loc : option Location) (d : CursorLog) : CursorLog :=
  mkCursorLog (eventId d) (userId d) (sessionId d) ua ip
    (cursorData d) (pageViews d) (interactions d) (sessionStart d) (sessionEnd d)
    (totalDuration d) (isActive d) di loc.

(** [Math.round(ms / 1000)] on an integer number of milliseconds. *)
Definition round_seconds (ms : Z) : Z := (ms + 500) / 1000.

(** The virtual [sessionDuration]. *)
Definition sessionDuration (d : CursorLog) : Z :=
  match sessionEnd d with
  | Some e => round_seconds (e - sessionStart d)
  | None => match totalDuration d with Some t => t | None => 0 end
  end.

(** [slice(-n)]: the last [n] elements. *)
Definition slice_last {A} (n : nat) (l : list A) : list A :=
  skipn (length l - n) l.

(** [cursorLogSchema.methods.addCursorMovement]. *)
Definition addCursorMovement (now : Z) (x y : Q) (action : Action)
    (element : option string) (d : CursorLog) : CursorLog :=
  let pushed := cursorData d ++ [mkCursorSample x y now element action] in
  if (1000 <? length pushed)%nat
  then set_cursorData (slice_last 1000 pushed) d
  else set_cursorData pushed d.

(** [cursorLogSchema.methods.addInteraction]. *)
Definition addInteraction (now : Z) (type : InteractionType) (target : string)
    (metadata : list (string * string)) (d : CursorLog) : CursorLog :=
  set_interactions (interactions d ++ [mkInteraction type target now metadata]) d.

(** [cursorLogSchema.methods.endSession]. *)
Definition endSession (now : Z) (d : CursorLog) : CursorLog :=
  let d1 := set_timing (sessionStart d) (Some now) (totalDuration d) false d in
  set_timing (sessionStart d1) (sessionEnd d1) (Some (sessionDuration d1)) (isActive d1) d1.

(** The external [Event] collection, as far as the routes read it. *)
Record Event := mkEvent {
  ev_id : string;
  ev_isPublic : bool
}.

Definition Event_findById (events : list Event) (id : string) : option Event :=
  find (fun e => (ev_id e =? id)%string) events.

Inductive Response :=
| Created (message sid : string)
| Ok (message : string)
| OkSession (message sid : string)
| OkEnded (message : string) (sessionDuration : option Z)
| BadRequest
| Forbidden (error : string)
| NotFound (error : string).

Record StartSessionBody := mkStartSessionBody {
  ss_eventId : string;
  ss_userId : string;
  ss_sessionId : string;
  ss_userAgent : option string;
  ss_ipAddress : option string;
  ss_deviceInfo : option DeviceInfo;
  ss_location : option Location
}.

Record MovementBody := mkMovementBody {
  mv_eventId : string;
  mv_sessionId : string;
  mv_x : Q;
  mv_y : Q;
  mv_action : option Action;
  mv_element : option string
}.

Record InteractionBody := mkInteractionBody {
  ib_eventId : string;
  ib_sessionId : string;
  ib_type : InteractionType;
  ib_target : string;
  ib_metadata : option (list (string * string))
}.

Record PageViewBody := mkPageViewBody {
  pb_eventId : string;
  pb_sessionId : string;
  pb_page : string;
  pb_duration : option Z
}.

Record EndSessionBody := mkEndSessionBody {
  es_eventId : string;
  es_sessionId : string
}.

Definition notEmpty (s : string) : bool := negb (s =? "")%string.

Definition optional {A} (check : A -> bool) (o : option A) : bool :=
  match o with Some v => check v | None => true end.

Definition new_CursorLog (now : Z) (b : StartSessionBody) : CursorLog :=
  mkCursorLog (ss_eventId b) (ss_userId b) (ss_sessionId b)
    (ss_userAgent b) (ss_ipAddress b) [] [] [] now None None true
    (ss_deviceInfo b) (ss_location b).

Definition by_pair (eid sid : string) (d : CursorLog) : bool :=
  (eventId d =? eid)%string && (sessionId d =? sid)%string.

Definition by_active_pair (eid sid : string) (d : CursorLog) : bool :=
  by_pair eid sid d && isActive d.

(** The state of the socket server: the connected sockets, the
    [activeConnections] and [eventRooms] maps, the room membership kept by
    the socket.io adapter, and the collection.  A room [event-<id>] is named
    by its event. *)
Record Connection := mkConnection {
  cn_eventId : string;
  cn_userId : string;
  cn_sessionId : string;
  cn_connectedAt : Z;
  cn_lastCursorLog : option Z
}.

Record Server := mkServer {
  sockets : list string;
  activeConnections : list (string * Connection);
  eventRooms : list (string * list string);
  adapter : list (string * string);
  db : list CursorLog
}.

Definition initial : Server := mkServer [] [] [] [] [].

Definition connected (sid : string) (st : Server) : bool :=
  existsb (fun s => (s =? sid)%string) (sockets st).

(** [Set.prototype.add] and [Set.prototype.delete]. *)
Definition set_add (x : string) (l : list string) : list string :=
  if existsb (fun y => (y =? x)%string) l then l else l ++ [x].

Definition set_delete (x : string) (l : list string) : list string :=
  filter (fun y => negb (y =? x)%string) l.

Inductive Target :=
| SocketTo (sender room : string)   (* socket.to(room): the room but the sender *)
| IoTo (room : string)              (* io.to(room): the whole room *)
| SocketSelf (sid : string).        (* socket.emit *)

Inductive Notice :=
| user_joined (userId sessionId : string) (timestamp : Z)
| active_users_update (eventId : string) (count : nat) (timestamp : Z)
| cursor_moved (userId sessionId : string) (x y : Q) (action : Action)
    (element : option string) (timestamp : Z)
| user_interaction (userId sessionId : string) (type : InteractionType)
    (target : string) (timestamp : Z)
| user_left (userId sessionId : string) (timestamp : Z)
| socket_error (message : string).

Record Emission := mkEmission {
  em_target : Target;
  em_recipients : list string;
  em_notice : Notice
}.

Definition emit (rs : list (string * string)) (t : Target) (m : Notice) : Emission :=
  mkEmission t
    match t with
    | SocketTo sender room =>
      filter (fun s => negb (s =? sender)%string) (room_members room rs)
    | IoTo room => room_members room rs
    | SocketSelf sid => [sid]
    end m.

Record JoinData := mkJoinData {
  jd_eventId : option string;
  jd_userId : option string;
  jd_sessionId : option string
}.

Record MoveData := mkMoveData {
  md_eventId : option string;
  md_userId : option string;
  md_sessionId : option string;
  md_x : option Q;
  md_y : option Q;
  md_action : option Action;
  md_element : option string
}.

Record InteractionData := mkInteractionData {
  id_eventId : option string;
  id_userId : option string;
  id_sessionId : option string;
  id_type : option InteractionType;
  id_target : option string;
  id_metadata : option (list (string * string))
}.

Record PageViewData := mkPageViewData {
  pvd_eventId : option string;
  pvd_userId : option string;
  pvd_sessionId : option string;
  pvd_page : option string;
  pvd_duration : option Z
}.

Section Routes.
(** The validators of express-validator that look inside a string. *)
Variable isMongoId : string -> bool.
Variable isIP : string -> bool.

Variable events : list Event.

(** The validation chains of the routes: [validationResult(req).isEmpty()]. *)
Definition valid_start_session (b : StartSessionBody) : bool :=
  isMongoId (ss_eventId b) && notEmpty (ss_userId b)
  && notEmpty (ss_sessionId b) && optional isIP (ss_ipAddress b).

Definition valid_movement (b : MovementBody) : bool :=
  isMongoId (mv_eventId b) && notEmpty (mv_sessionId b)
  && Qle_bool 0 (mv_x b) && Qle_bool 0 (mv_y b).

Definition valid_interaction (b : InteractionBody) : bool :=
  isMongoId (ib_eventId b) && notEmpty (ib_sessionId b) && notEmpty (ib_target b).

Definition valid_page_view (b : PageViewBody) : bool :=
  isMongoId (pb_eventId b) && notEmpty (pb_sessionId b)
  && notEmpty (pb_page b) && optional (fun n => 0 <=? n) (pb_duration b).

Definition valid_end_session (b : EndSessionBody) : bool :=
  isMongoId (es_eventId b) && notEmpty (es_sessionId b).

(** [POST /api/cursor/start-session]. *)
Definition start_session (now : Z) (b : StartSessionBody) (db : list CursorLog)
    : Response * list CursorLog :=
  if negb (valid_start_session b)
  then (BadRequest, db)
  else
    match Event_findById events (ss_eventId b) with
    | None => (NotFound "Event not found", db)
    | Some event =>
      if negb (ev_isPublic event) then (Forbidden "Event is not public", db)
      else
        match findOne (by_pair (ss_eventId b) (ss_sessionId b)) db with
        | Some (i, existingSession) =>
          let s1 := set_timing now None None true existingSession in
          let s2 := set_context
                      (if truthy (ss_userAgent b) then ss_userAgent b else userAgent s1)
                      (if truthy (ss_ipAddress b) then ss_ipAddress b else ipAddress s1)
                      (match ss_deviceInfo b with Some v => Some v | None => deviceInfo s1 end)
                      (match ss_location b with Some v => Some v | None => location s1 end)
                      s1 in
          (OkSession "Session resumed successfully" (sessionId s2), save i s2 db)
        | None =>
          let cursorLog := new_CursorLog now b in
          (Created "Session started successfully" (sessionId cursorLog),
           create cursorLog db)
        end
    end.

(** [POST /api/cursor/movement]. *)
Definition movement (now : Z) (b : MovementBody) (db : list CursorLog)
    : Response * list CursorLog :=
  if negb (valid_movement b)
  then (BadRequest, db)
  else
    match findOne (by_active_pair (mv_eventId b) (mv_sessionId b)) db with
    | None => (NotFound "Active session not found", db)
    | Some (i, cursorLog) =>
      let action := match mv_action b with Some a => a | None => move end in
      (Ok "Cursor movement logged successfully",
       save i (addCursorMovement now (mv_x b) (mv_y b) action (mv_element b) cursorLog) db)
    end.

(** [POST /api/cursor/interaction]. *)
Definition interaction (now : Z) (b : InteractionBody) (db : list CursorLog)
    : Response * list CursorLog :=
  if negb (valid_interaction b)
  then (BadRequest, db)
  else
    match findOne (by_active_pair (ib_eventId b) (ib_sessionId b)) db with
    | None => (NotFound "Active session not found", db)
    | Some (i, cursorLog) =>
      let metadata := match ib_metadata b with Some m => m | None => [] end in
      (Ok "Interaction logged successfully",
       save i (addInteraction now (ib_type b) (ib_target b) metadata cursorLog) db)
    end.

(** [POST /api/cursor/page-view]. *)
Definition page_view (now : Z) (b : PageViewBody) (db : list CursorLog)
    : Response * list CursorLog :=
  if negb (valid_page_view b)
  then (BadRequest, db)
  else
    match findOne (by_active_pair (pb_eventId b) (pb_sessionId b)) db with
    | None => (NotFound "Active session not found", db)
    | Some (i, cursorLog) =>
      (Ok "Page view logged successfully",
       save i (set_pageViews
                 (pageViews cursorLog ++ [mkPageView (pb_page b) now (pb_duration b)])
                 cursorLog) db)
    end.

(** [POST /api/cursor/end-session]. *)
Definition end_session (now : Z) (b : EndSessionBody) (db : list CursorLog)
    : Response * list CursorLog :=
  if negb (valid_end_session b)
  then (BadRequest, db)
  else
    match findOne (by_active_pair (es_eventId b) (es_sessionId b)) db with
    | None => (NotFound "Active session not found", db)
    | Some (i, cursorLog) =>
      let ended := endSession now cursorLog in
      (OkEnded "Session ended successfully" (totalDuration ended), save i ended db)
    end.

(** One request to the router, stamped with the time it is served at. *)
Inductive Request :=
| PostStartSession (now : Z) (b : StartSessionBody)
| PostMovement (now : Z) (b : MovementBody)
| PostInteraction (now : Z) (b : InteractionBody)
| PostPageView (now : Z) (b : PageViewBody)
| PostEndSession (now : Z) (b : EndSessionBody).

Definition handle (r : Request) (db : list CursorLog) : Response * list CursorLog :=
  match r with
  | PostStartSession now b => start_session now b db
  | PostMovement now b => movement now b db
  | PostInteraction now b => interaction now b db
  | PostPageView now b => page_view now b db
  | PostEndSession now b => end_session now b db
  end.

(** *** The socket handlers ([setupSocketHandlers]) *)

(** [findOne] of the active row of a pair, a method on it, and its [save];
    nothing happens when there is no such row. *)
Definition update_active (eid sid : string) (method : CursorLog -> CursorLog)
    (rows : list CursorLog) : list CursorLog :=
  match findOne (by_active_pair eid sid) rows with
  | Some (i, cursorLog) => save i (method cursorLog) rows
  | None => rows
  end.

(** [socket.on('join-event')]. *)
Definition join_event (now : Z) (sid : string) (data : JoinData) (st : Server)
    : Server * list Emission :=
  if negb (connected sid st) then (st, [])
  else
    match truthy_value (jd_eventId data), truthy_value (jd_userId data),
          truthy_value (jd_sessionId data) with
    | Some eventId, Some userId, Some sessionId =>
      (* Verify event exists *)
      match Event_findById events eventId with
      | None => (st, [emit (adapter st) (SocketSelf sid) (socket_error "Event not found")])
      | Some _ =>
        let rs := socket_join sid eventId (adapter st) in
        let members :=
          match lookup eventId (eventRooms st) with
          | Some m => set_add sid m
          | None => [sid]
          end in
        (mkServer (sockets st)
           (assign sid (mkConnection eventId userId sessionId now None)
              (activeConnections st))
           (assign eventId members (eventRooms st)) rs (db st),
         [emit rs (SocketTo sid eventId) (user_joined userId sessionId now);
          emit rs (IoTo eventId) (active_users_update eventId (length members) now)])
      end
    | _, _, _ =>
      (st, [emit (adapter st) (SocketSelf sid) (socket_error "Missing required data")])
    end.

(** The connection stored for the socket, when it is for this event:
    [connection && connection.eventId === eventId]. *)
Definition connection_for (sid eventId : string) (st : Server) : option Connection :=
  match lookup sid (activeConnections st) with
  | Some connection =>
    if (cn_eventId connection =? eventId)%string then Some connection else None
  | None => None
  end.

(** [socket.on('cursor-move')], run without interruption: the broadcast, the
    throttle test, the write, and [connection.lastCursorLog = now] once the
    store has written.  Its two parts are [cursor_move_receive] and
    [cursor_move_settle] below. *)
Definition cursor_move (now : Z) (sid : string) (data : MoveData) (st : Server)
    : Server * list Emission :=
  if negb (connected sid st) then (st, [])
  else
    match truthy_value (md_eventId data), truthy_value (md_userId data),
          truthy_value (md_sessionId data), md_x data, md_y data with
    | Some eventId, Some userId, Some sessionId, Some x, Some y =>
      let action := match md_action data with Some a => a | None => move end in
      let out := [emit (adapter st) (SocketTo sid eventId)
                    (cursor_moved userId sessionId x y action (md_element data) now)] in
      match connection_for sid eventId st with
      | Some connection =>
        let lastLog := match cn_lastCursorLog connection with Some t => t | None => 0 end in
        if 1000 <? now - lastLog then
          (mkServer (sockets st)
             (assign sid
                (mkConnection (cn_eventId connection) (cn_userId connection)
                   (cn_sessionId connection) (cn_connectedAt connection) (Some now))
                (activeConnections st))
             (eventRooms st) (adapter st)
             (update_active eventId sessionId
                (addCursorMovement now x y action (md_element data)) (db st)),
           out)
        else (st, out)
      | None => (st, out)
      end
    | _, _, _, _, _ => (st, [])
    end.

(** [socket.on('user-interaction')]. *)
Definition user_interaction_handler (now : Z) (sid : string) (data : InteractionData)
    (st : Server) : Server * list Emission :=
  if negb (connected sid st) then (st, [])
  else
    match truthy_value (id_eventId data), truthy_value (id_userId data),
          truthy_value (id_sessionId data), id_type data, truthy_value (id_target data) with
    | Some eventId, Some userId, Some sessionId, Some type, Some target =>
      let out := [emit (adapter st) (SocketTo sid eventId)
                    (user_interaction userId sessionId type target now)] in
      match connection_for sid eventId st with
      | Some _ =>
        let metadata := match id_metadata data with Some m => m | None => [] end in
        (mkServer (sockets st) (activeConnections st) (eventRooms st) (adapter st)
           (update_active eventId sessionId (addInteraction now type target metadata)
              (db st)),
         out)
      | None => (st, out)
      end
    | _, _, _, _, _ => (st, [])
    end.

(** [socket.on('page-view')]. *)
Definition page_view_handler (now : Z) (sid : string) (data : PageViewData)
    (st : Server) : Server * list Emission :=
  if negb (connected sid st) then (st, [])
  else
    match truthy_value (pvd_eventId data), truthy_value (pvd_userId data),
          truthy_value (pvd_sessionId data), truthy_value (pvd_page data) with
    | Some eventId, Some userId, Some sessionId, Some page =>
      match connection_for sid eventId st with
      | Some _ =>
        (mkServer (sockets st) (activeConnections st) (eventRooms st) (adapter st)
           (update_active eventId sessionId
              (fun cursorLog =>
                 set_pageViews
                   (pageViews cursorLog ++ [mkPageView page now (pvd_duration data)])
                   cursorLog)
              (db st)),
         [])
      | None => (st, [])
      end
    | _, _, _, _ => (st, [])
    end.

(** The body of the [disconnect] handler. *)
Definition disconnect_handler (now : Z) (sid : string) (st : Server)
    : Server * list Emission :=
  match lookup sid (activeConnections st) with
  | None => (st, [])
  | Some connection =>
    let room := cn_eventId connection in
    let left :=
      match lookup room (eventRooms st) with
      | Some members =>
        let members' := set_delete sid members in
        match members' with
        | [] => (remove_key room (eventRooms st), [])
        | _ :: _ =>
          (assign room members' (eventRooms st),
           [emit (adapter st) (IoTo room)
              (active_users_update (cn_eventId connection) (length members') now)])
        end
      | None => (eventRooms st, [])
      end in
    (mkServer (sockets st) (remove_key sid (activeConnections st)) (fst left)
       (adapter st)
       (update_active (cn_eventId connection) (cn_sessionId connection)
          (endSession now) (db st)),
     snd left
     ++ [emit (adapter st) (SocketTo sid room)
           (user_left (cn_userId connection) (cn_sessionId connection) now)])
  end.

(** [socket.on('disconnect')]: the transport has closed the socket and taken
    it out of its rooms when the handler runs. *)
Definition disconnect (now : Z) (sid : string) (st : Server) : Server * list Emission :=
  if negb (connected sid st) then (st, [])
  else
    disconnect_handler now sid
      (mkServer (set_delete sid (sockets st)) (activeConnections st) (eventRooms st)
         (leave_all sid (adapter st)) (db st)).

Definition staleThreshold : Z := 5 * 60 * 1000.

(** The body of the cleanup loop: a connection made more than five minutes
    ago is disconnected, [socket.disconnect(true)] running the disconnect
    handler, and its entry deleted. *)
Definition sweep_connection (now : Z) (entry : string * Connection) (st : Server)
    : Server * list Emission :=
  if staleThreshold <? now - cn_connectedAt (snd entry) then
    let r := disconnect now (fst entry) st in
    (mkServer (sockets (fst r)) (remove_key (fst entry) (activeConnections (fst r)))
       (eventRooms (fst r)) (adapter (fst r)) (db (fst r)),
     snd r)
  else (st, []).

Fixpoint sweep (now : Z) (entries : list (string * Connection)) (st : Server)
    : Server * list Emission :=
  match entries with
  | [] => (st, [])
  | entry :: rest =>
    let r := sweep_connection now entry st in
    let r' := sweep now rest (fst r) in
    (fst r', snd r ++ snd r')
  end.

Definition cleanup (now : Z) (st : Server) : Server * list Emission :=
  sweep now (activeConnections st) st.

(** Everything the server reacts to, stamped with the time it is handled at. *)
Inductive Input :=
| OnRequest (r : Request)
| OnConnection (sid : string)
| OnJoinEvent (now : Z) (sid : string) (data : JoinData)
| OnCursorMove (now : Z) (sid : string) (data : MoveData)
| OnUserInteraction (now : Z) (sid : string) (data : InteractionData)
| OnPageView (now : Z) (sid : string) (data : PageViewData)
| OnDisconnect (now : Z) (sid : string)
| OnCleanup (now : Z).

Definition step (i : Input) (st : Server) : Server * list Emission :=
  match i with
  | OnRequest r =>
    (mkServer (sockets st) (activeConnections st) (eventRooms st) (adapter st)
       (snd (handle r (db st))), [])
  | OnConnection sid =>
    (mkServer (set_add sid (sockets st)) (activeConnections st) (eventRooms st)
       (leave_all sid (adapter st)) (db st), [])
  | OnJoinEvent now sid data => join_event now sid data st
  | OnCursorMove now sid data => cursor_move now sid data st
  | OnUserInteraction now sid data => user_interaction_handler now sid data st
  | OnPageView now sid data => page_view_handler now sid data st
  | OnDisconnect now sid => disconnect now sid st
  | OnCleanup now => cleanup now st
  end.

(** The state after the inputs, and everything emitted on the way. *)
Fixpoint run (inputs : list Input) (st : Server) : Server * list Emission :=
  match inputs with
  | [] => (st, [])
  | i :: rest =>
    let r := step i st in
    let r' := run rest (fst r) in
    (fst r', snd r ++ snd r')
  end.

(** *** Handlers at their [await]s

    A handler that waits for the store gives way to the other handlers of
    the server.  The two handlers below are given in the two parts an
    [await] cuts them in, so that other handlers can be run in between;
    [start_session] and [cursor_move] above are these handlers run without
    interruption. *)

(** What [start-session] knows when [Event.findById] and
    [CursorLog.findOne] have answered. *)
Inductive StartLookup :=
| StartRejected (r : Response)
| StartFound (i : nat) (existingSession : CursorLog)
| StartAbsent.

Definition start_session_lookup (b : StartSessionBody) (db : list CursorLog)
    : StartLookup :=
  if negb (valid_start_session b)
  then StartRejected BadRequest
  else
    match Event_findById events (ss_eventId b) with
    | None => StartRejected (NotFound "Event not found")
    | Some event =>
      if negb (ev_isPublic event) then StartRejected (Forbidden "Event is not public")
      else
        match findOne (by_pair (ss_eventId b) (ss_sessionId b)) db with
        | Some (i, existingSession) => StartFound i existingSession
        | None => StartAbsent
        end
    end.

(** The assignments of the branch that resumes a session. *)
Definition resume (now : Z) (b : StartSessionBody) (existingSession : CursorLog)
    : CursorLog :=
  let s1 := set_timing now None None true existingSession in
  set_context
    (if truthy (ss_userAgent b) then ss_userAgent b else userAgent s1)
    (if truthy (ss_ipAddress b) then ss_ipAddress b else ipAddress s1)
    (match ss_deviceInfo b with Some v => Some v | None => deviceInfo s1 end)
    (match ss_location b with Some v => Some v | None => location s1 end)
    s1.

(** What [start-session] does then.  [existingSession.save()] sends the
    paths the handler assigned, and the store sets them on the row with the
    id of the document, which is the row at its position; the answer is
    made from the document the handler holds. *)
Definition start_session_write (now : Z) (b : StartSessionBody) (l : StartLookup)
    (db : list CursorLog) : Response * list CursorLog :=
  match l with
  | StartRejected r => (r, db)
  | StartFound i existingSession =>
    (OkSession "Session resumed successfully" (sessionId existingSession),
     match nth_error db i with
     | Some stored => save i (resume now b stored) db
     | None => db
     end)
  | StartAbsent =>
    let cursorLog := new_CursorLog now b in
    (Created "Session started successfully" (sessionId cursorLog),
     create cursorLog db)
  end.

(** A [cursor-move] that passed the throttle test and waits for
    [CursorLog.findOne]: the socket, the [connection] object read from the
    map, the values of the move, and [now], the time of the test. *)
Record PendingMove := mkPendingMove {
  pm_socket : string;
  pm_connection : Connection;
  pm_eventId : string;
  pm_sessionId : string;
  pm_x : Q;
  pm_y : Q;
  pm_action : Action;
  pm_element : option string;
  pm_now : Z
}.

(** [cursor-move] up to [await CursorLog.findOne]: the broadcast and the
    throttle test.  The state of the server is as before. *)
Definition cursor_move_receive (now : Z) (sid : string) (data : MoveData) (st : Server)
    : list Emission * option PendingMove :=
  if negb (connected sid st) then ([], None)
  else
    match truthy_value (md_eventId data), truthy_value (md_userId data),
          truthy_value (md_sessionId data), md_x data, md_y data with
    | Some eventId, Some userId, Some sessionId, Some x, Some y =>
      let action := match md_action data with Some a => a | None => move end in
      let out := [emit (adapter st) (SocketTo sid eventId)
                    (cursor_moved userId sessionId x y action (md_element data) now)] in
      match connection_for sid eventId st with
      | Some connection =>
        let lastLog := match cn_lastCursorLog connection with Some t => t | None => 0 end in
        if 1000 <? now - lastLog then
          (out, Some (mkPendingMove sid connection eventId sessionId x y action
                        (md_element data) now))
        else (out, None)
      | None => (out, None)
      end
    | _, _, _, _, _ => ([], None)
    end.

(** Whether an entry of [activeConnections] is the object a handler read
    earlier: the object a [join-event] stored, whatever [lastCursorLog] it
    was given since.  (Two [join-event]s of one socket with the same ids in
    the same millisecond store objects this test does not tell apart.) *)
Definition same_connection (a b : Connection) : bool :=
  (cn_eventId a =? cn_eventId b)%string && (cn_userId a =? cn_userId b)%string
  && (cn_sessionId a =? cn_sessionId b)%string
  && (cn_connectedAt a =? cn_connectedAt b).

(** [cursor-move] from the answer of the store on, at the time [answered]:
    the sample is logged on the active row of the pair, and then
    [connection.lastCursorLog = now] is set on the object read before the
    wait, which shows in the map when the map still holds that object. *)
Definition cursor_move_settle (answered : Z) (p : PendingMove) (st : Server) : Server :=
  mkServer (sockets st)
    match lookup (pm_socket p) (activeConnections st) with
    | Some connection =>
      if same_connection connection (pm_connection p)
      then assign (pm_socket p)
             (mkConnection (cn_eventId connection) (cn_userId connection)
                (cn_sessionId connection) (cn_connectedAt connection) (Some (pm_now p)))
             (activeConnections st)
      else activeConnections st
    | None => activeConnections st
    end
    (eventRooms st) (adapter st)
    (update_active (pm_eventId p) (pm_sessionId p)
       (addCursorMovement answered (pm_x p) (pm_y p) (pm_action p) (pm_element p))
       (db st)).

(** A schedule of the server: handlers run whole, and [start-session]
    requests taken in their two parts.  The schedule names a request, and
    the server keeps what a request knows while it waits (a lookup under the
    name of a waiting request takes its place). *)
Inductive Phase :=
| Whole (i : Input)
| StartSessionLookup (request : string) (b : StartSessionBody)
| StartSessionWrite (request : string) (now : Z).

Record Interleaved := mkInterleaved {
  server : Server;
  awaiting : list (string * (StartSessionBody * StartLookup))
}.

Definition phase_step (p : Phase) (s : Interleaved) : Interleaved * list Emission :=
  match p with
  | Whole i =>
    let r := step i (server s) in
    (mkInterleaved (fst r) (awaiting s), snd r)
  | StartSessionLookup request b =>
    (mkInterleaved (server s)
       (assign request (b, start_session_lookup b (db (server s))) (awaiting s)),
     [])
  | StartSessionWrite request now =>
    match lookup request (awaiting s) with
    | Some (b, l) =>
      let st := server s in
      (mkInterleaved
         (mkServer (sockets st) (activeConnections st) (eventRooms st) (adapter st)
            (snd (start_session_write now b l (db st))))
         (remove_key request (awaiting s)),
       [])
    | None => (s, [])
    end
  end.

Fixpoint phase_run (schedule : list Phase) (s : Interleaved)
    : Interleaved * list Emission :=
  match schedule with
  | [] => (s, [])
  | p :: rest =>
    let r := phase_step p s in
    let r' := phase_run rest (fst r) in
    (fst r', snd r ++ snd r')
  end.

(** The pair whose session a phase starts by looking it up. *)
Definition starts (p : Phase) : option (string * string) :=
  match p with
  | Whole (OnRequest (PostStartSession _ b)) => Some (ss_eventId b, ss_sessionId b)
  | StartSessionLookup _ b => Some (ss_eventId b, ss_sessionId b)
  | _ => None
  end.

Definition same_pair (a b : string * string) : bool :=
  (fst a =? fst b)%string && (snd a =? snd b)%string.

(** A phase overlaps a waiting request when it starts a session of the pair
    the request looked up. *)
Definition overlaps (p : Phase) (s : Interleaved) : bool :=
  match starts p with
  | Some started =>
    existsb (fun entry =>
               same_pair (ss_eventId (fst (snd entry)), ss_sessionId (fst (snd entry)))
                 started)
      (awaiting s)
  | None => false
  end.

(** No session start of the schedule begins while another one of the same
    pair waits between its lookup and its write. *)
Fixpoint serial (schedule : list Phase) (s : Interleaved) : bool :=
  match schedule with
  | [] => true
  | p :: rest => negb (overlaps p s) && serial rest (fst (phase_step p s))
  end.
End Routes.

(** What a step of the server does to the collection: nothing, what a
    route does, or a method on the active row of a pair. *)
Inductive db_step isMongoId isIP events (rows : list CursorLog) : list CursorLog -> Prop :=
| db_same : db_step isMongoId isIP events rows rows
| db_request r : db_step isMongoId isIP events rows (snd (handle isMongoId isIP events r rows))
| db_movement eid sid now x y action element :
    db_step isMongoId isIP events rows
      (update_active eid sid (addCursorMovement now x y action element) rows)
| db_interaction eid sid now type target metadata :
    db_step isMongoId isIP events rows
      (update_active eid sid (addInteraction now type target metadata) rows)
| db_page_view eid sid v :
    db_step isMongoId isIP events rows
      (update_active eid sid
         (fun cursorLog => set_pageViews (pageViews cursorLog ++ [v]) cursorLog) rows)
| db_end eid sid now :
    db_step isMongoId isIP events rows (update_active eid sid (endSession now) rows).

(** *** Inputs the examples run on *)

Definition tech_conference : string := "507f1f77bcf86cd799439011".

Definition sample_events : list Event := [mkEvent tech_conference true].

Definition sample_start : StartSessionBody :=
  mkStartSessionBody tech_conference "user_001" "session_001" None None None None.

Definition sample_end : EndSessionBody :=
  mkEndSessionBody tech_conference "session_001".

Definition no_ip (s : string) : bool := false.

Definition music_festival : string := "507f1f77bcf86cd799439012".

Definition two_events : list Event :=
  [mkEvent tech_conference true; mkEvent music_festival true].

(** A visitor joins one event and then another. *)
Definition wandering_visitor : list Input :=
  [OnConnection "socket_1";
   OnJoinEvent 1 "socket_1"
     (mkJoinData (Some tech_conference) (Some "user_001") (Some "session_001"));
   OnJoinEvent 2 "socket_1"
     (mkJoinData (Some music_festival) (Some "user_001") (Some "session_002"))].


(** A 2xx answer. *)
Definition reports_success (r : Response) : bool :=
  match r with
  | Created _ _ | Ok _ | OkSession _ _ | OkEnded _ _ => true
  | BadRequest | Forbidden _ | NotFound _ => false
  end.


(** No pair has two rows. *)
Definition unique_pairs (rows : list CursorLog) : Prop :=
  forall eid sid, (Collection.countDocuments (by_pair eid sid) rows <= 1)%nat.

(** The server before any request, with no request waiting. *)
Definition quiet : Interleaved := mkInterleaved initial [].

(** What a schedule without overlap keeps: a pair has one row at most, the
    requests that wait looked up different pairs, and the pair of a request
    that found no row still has none. *)
Definition looked_up (entry : string * (StartSessionBody * StartLookup)) : string * string :=
  (ss_eventId (fst (snd entry)), ss_sessionId (fst (snd entry))).

Definition phase_Inv (s : Interleaved) : Prop :=
  unique_pairs (db (server s))
  /\ (forall a b, In a (awaiting s) -> In b (awaiting s) ->
                  looked_up a = looked_up b -> fst a = fst b)
  /\ (forall a, In a (awaiting s) -> snd (snd a) = StartAbsent ->
                Collection.countDocuments (by_pair (fst (looked_up a)) (snd (looked_up a)))
                  (db (server s)) = 0%nat).



(** *** Listing and analytics of the flat model *)

(** A row as [.select('-cursorData -interactions -pageViews')] returns it. *)
Record SessionInfo := mkSessionInfo {
  si_eventId : string;
  si_userId : string;
  si_sessionId : string;
  si_userAgent : option string;
  si_ipAddress : option string;
  si_sessionStart : Z;
  si_sessionEnd : option Z;
  si_totalDuration : option Z;
  si_isActive : bool;
  si_deviceInfo : option DeviceInfo;
  si_location : option Location
}.

Definition select_info (d : CursorLog) : SessionInfo :=
  mkSessionInfo (eventId d) (userId d) (sessionId d) (userAgent d) (ipAddress d)
    (sessionStart d) (sessionEnd d) (totalDuration d) (isActive d)
    (deviceInfo d) (location d).

(** [.sort({ sessionStart: -1 })], as a stable insertion sort. *)
Fixpoint insert_newest (d : CursorLog) (l : list CursorLog) : list CursorLog :=
  match l with
  | [] => [d]
  | d' :: rest =>
    if sessionStart d' <=? sessionStart d then d :: l
    else d' :: insert_newest d rest
  end.

Definition sort_newest (rows : list CursorLog) : list CursorLog :=
  fold_right insert_newest [] rows.

Record Pagination := mkPagination {
  currentPage : positive;
  totalPages : nat;
  totalSessions : nat;
  hasNextPage : bool;
  hasPrevPage : bool
}.

Inductive Listing :=
| ListingOk (sessions : list SessionInfo) (pagination : Pagination)
| ListingNotFound (error : string).

Definition of_event (eid : string) (d : CursorLog) : bool := (eventId d =? eid)%string.

(** [GET /api/cursor/event/:eventId/sessions]; [page] and [limit] are the
    parsed query parameters, positive integers, absent when the query does
    not give them. *)
Definition event_sessions (events : list Event) (eid : string)
    (page limit : option positive) (rows : list CursorLog) : Listing :=
  let page := match page with Some p => p | None => 1%positive end in
  let limit := match limit with Some l => l | None => 20%positive end in
  match Event_findById events eid with
  | None => ListingNotFound "Event not found"
  | Some _ =>
    let skip := ((Pos.to_nat page - 1) * Pos.to_nat limit)%nat in
    let sessions :=
      map select_info
        (firstn (Pos.to_nat limit) (skipn skip (sort_newest (filter (of_event eid) rows)))) in
    let total := countDocuments (of_event eid) rows in
    (* Math.ceil(total / limit) *)
    let totalPages := ((total + Pos.to_nat limit - 1) / Pos.to_nat limit)%nat in
    ListingOk sessions
      (mkPagination page totalPages total
         (Pos.to_nat page <? totalPages)%nat (1 <? Pos.to_nat page)%nat)
  end.

Record EventAnalytics := mkEventAnalytics {
  ea_totalSessions : nat;
  ea_uniqueUsers : nat;
  ea_totalInteractions : nat;
  ea_averageSessionDuration : option Q;
  ea_totalCursorMovements : nat
}.

Definition some_durations (rows : list CursorLog) : list Q :=
  flat_map (fun d => match totalDuration d with
                     | Some t => [inject_Z t]
                     | None => []
                     end) rows.

(** [cursorLogSchema.statics.getEventAnalytics]; [createdAt] is the timestamp
    the store keeps for a row, and the date range applies only when both of
    its ends are given. *)
Definition getEventAnalytics (createdAt : CursorLog -> Z) (rows : list CursorLog)
    (eid : string) (startDate endDate : option Z) : EventAnalytics :=
  let matched := filter (of_event eid) rows in
  let matched :=
    match startDate, endDate with
    | Some s, Some e =>
      filter (fun d => (s <=? createdAt d) && (createdAt d <=? e)) matched
    | _, _ => matched
    end in
  match matched with
  | [] => mkEventAnalytics 0 0 0 (Some 0%Q) 0
  | _ :: _ =>
    mkEventAnalytics
      (length matched)
      (length (Mongo.distinct_strings (map userId matched)))
      (list_sum (map (fun d => length (interactions d)) matched))
      (option_map Mongo.round2 (Mongo.avg (some_durations matched)))
      (list_sum (map (fun d => length (cursorData d)) matched))
  end.


Definition listed_sessions (l : Listing) : list SessionInfo :=
  match l with
  | ListingOk sessions _ => sessions
  | ListingNotFound _ => []
  end.

Definition newest_first (a b : CursorLog) : Prop := sessionStart b <= sessionStart a.


(** *** Observations on the connections of the flat server *)

(** The sockets that have a connection entry are connected, each has one
    entry, and no pair has two rows. *)
Definition registry_ok (st : Server) : Prop :=
  NoDup (map fst (activeConnections st))
  /\ (forall sid, In sid (map fst (activeConnections st)) -> connected sid st = true)
  /\ unique_pairs (db st).

(** Whether the cleanup at [now] disconnects a connection. *)
Definition expired (now : Z) (connection : Connection) : bool :=
  staleThreshold <? now - cn_connectedAt connection.

(** The time the connection of a socket counts from, if it has one. *)
Definition connected_since (sid : string) (st : Server) : option Z :=
  option_map cn_connectedAt (lookup sid (activeConnections st)).

(** A tracking input of the socket [sid]. *)
Definition tracking_of (sid : string) (i : Input) : bool :=
  match i with
  | OnCursorMove _ s _ | OnUserInteraction _ s _ | OnPageView _ s _ => (s =? sid)%string
  | _ => false
  end.


(** Whether the socket counts among the active users of the event:
    [eventRooms.get(room).has(sid)]. *)
Definition counted_in (sid eid : string) (st : Server) : bool :=
  match lookup eid (eventRooms st) with
  | Some members => existsb (fun s => (s =? sid)%string) members
  | None => false
  end.

(** A [join-event] of the socket [sid] for the event [eid]. *)
Definition joins (sid eid : string) (i : Input) : bool :=
  match i with
  | OnJoinEvent _ s data =>
    (s =? sid)%string && strict_eq (truthy_value (jd_eventId data)) (Some eid)
  | _ => false
  end.

(** The connection entry of the socket, if it has one, is for another event. *)
Definition connected_elsewhere (sid eid : string) (st : Server) : Prop :=
  forall c, lookup sid (activeConnections st) = Some c -> cn_eventId c <> eid.

(** The counts of the [active-users-update] notices for an event. *)
Definition counts_for (eid : string) (out : list Emission) : list nat :=
  flat_map (fun em => match em_notice em with
                      | active_users_update e count _ =>
                        if (e =? eid)%string then [count] else []
                      | _ => []
                      end) out.

(** A visitor joins one event, then another, and disconnects. *)
Definition departed_visitor : list Input :=
  wandering_visitor ++ [OnDisconnect 3 "socket_1"].

End Backend.

(** ** The nested model, the socket handlers and the analytics routes
       ([event-analytics-dashboard/backend/]) *)

Module Dashboard.
Import Collection Runtime.

Inductive Action := move | click | hover | scroll | focus | blur.

Definition Action_eqb (a b : Action) : bool :=
  match a, b with
  | move, move | click, click | hover, hover
  | scroll, scroll | focus, focus | blur, blur => true
  | _, _ => false
  end.

Record CursorSample := mkCursorSample {
  cs_x : Q;
  cs_y : Q;
  cs_timestamp : Z;
  cs_page : string;
  cs_element : option string;
  cs_action : Action
}.

Record PageVisit := mkPageVisit {
  pg_page : string;
  pg_timeSpent : Z;
  pg_visitedAt : Z
}.

Record Click := mkClick {
  ck_x : Q;
  ck_y : Q;
  ck_page : string;
  ck_timestamp : Z
}.

Record Hover := mkHover {
  hv_x : Q;
  hv_y : Q;
  hv_duration : Z;
  hv_page : string;
  hv_timestamp : Z
}.

Record ScrollDepth := mkScrollDepth {
  sd_page : string;
  sd_maxDepth : Q;
  sd_timestamp : Z
}.

Record SessionMetrics := mkSessionMetrics {
  startTime : Z;
  endTime : option Z;
  duration : Z;
  totalClicks : Z;
  totalScrolls : Z;
  pagesVisited : list PageVisit;
  isActive : bool;
  lastActivity : Z
}.

Record HeatmapData := mkHeatmapData {
  clicks : list Click;
  hovers : list Hover;
  scrollDepth : list ScrollDepth
}.

Record Location := mkLocation {
  loc_country : option string;
  loc_region : option string;
  loc_city : option string;
  loc_timezone : option string
}.

Inductive DeviceType := desktop | mobile | tablet | unknown.

Record Device := mkDevice {
  dv_type : DeviceType;
  dv_os : option string;
  dv_browser : option string;
  dv_screenResolution : option (Z * Z)
}.

Record CursorLog := mkCursorLog {
  sessionId : string;
  userId : option string;
  eventId : string;
  userAgent : option string;
  ipAddress : option string;
  location : option Location;
  device : Device;
  cursorData : list CursorSample;
  sessionMetrics : SessionMetrics;
  heatmapData : HeatmapData;
  isDeleted : bool;
  createdAt : Z
}.

Definition set_cursorData (v : list CursorSample) (d : CursorLog) : CursorLog :=
  mkCursorLog (sessionId d) (userId d) (eventId d) (userAgent d) (ipAddress d)
    (location d) (device d) v (sessionMetrics d) (heatmapData d)
    (isDeleted d) (createdAt d).

Definition set_sessionMetrics (v : SessionMetrics) (d : CursorLog) : CursorLog :=
  mkCursorLog (sessionId d) (userId d) (eventId d) (userAgent d) (ipAddress d)
    (location d) (device d) (cursorData d) v (heatmapData d)
    (isDeleted d) (createdAt d).

Definition set_heatmapData (v : HeatmapData) (d : CursorLog) : CursorLog :=
  mkCursorLog (sessionId d) (userId d) (eventId d) (userAgent d) (ipAddress d)
    (location d) (device d) (cursorData d) (sessionMetrics d) v
    (isDeleted d) (createdAt d).

Definition set_lastActivity (t : Z) (m : SessionMetrics) : SessionMetrics :=
  mkSessionMetrics (startTime m) (endTime m) (duration m) (totalClicks m)
    (totalScrolls m) (pagesVisited m) (isActive m) t.

Definition set_totalClicks (n : Z) (m : SessionMetrics) : SessionMetrics :=
  mkSessionMetrics (startTime m) (endTime m) (duration m) n
    (totalScrolls m) (pagesVisited m) (isActive m) (lastActivity m).

Definition set_totalScrolls (n : Z) (m : SessionMetrics) : SessionMetrics :=
  mkSessionMetrics (startTime m) (endTime m) (duration m) (totalClicks m)
    n (pagesVisited m) (isActive m) (lastActivity m).

Definition set_pagesVisited (v : list PageVisit) (m : SessionMetrics) : SessionMetrics :=
  mkSessionMetrics (startTime m) (endTime m) (duration m) (totalClicks m)
    (totalScrolls m) v (isActive m) (lastActivity m).

Definition set_closed (stop : Z) (dur : Z) (m : SessionMetrics) : SessionMetrics :=
  mkSessionMetrics (startTime m) (Some stop) dur (totalClicks m)
    (totalScrolls m) (pagesVisited m) false (lastActivity m).

Definition set_clicks (v : list Click) (h : HeatmapData) : HeatmapData :=
  mkHeatmapData v (hovers h) (scrollDepth h).

Definition set_hovers (v : list Hover) (h : HeatmapData) : HeatmapData :=
  mkHeatmapData (clicks h) v (scrollDepth h).

Definition set_scrollDepth (v : list ScrollDepth) (h : HeatmapData) : HeatmapData :=
  mkHeatmapData (clicks h) (hovers h) v.

(** [cursorLogSchema.methods.addCursorMovement].  The sample pushed on
    [cursorData] goes through the setters of the schema, which trim its
    [page] and its [element]; the schema of [heatmapData.clicks] declares no
    setter, so the click keeps the page as it was given. *)
Definition addCursorMovement (now : Z) (x y : Q) (page : string)
    (element : option string) (action : Action) (d : CursorLog) : CursorLog :=
  let d1 := set_cursorData
              (cursorData d
               ++ [mkCursorSample x y now (trim page) (option_map trim element) action]) d in
  let d2 := set_sessionMetrics (set_lastActivity now (sessionMetrics d1)) d1 in
  let d3 :=
    if Action_eqb action click then
      let d' := set_sessionMetrics
                  (set_totalClicks (totalClicks (sessionMetrics d2) + 1) (sessionMetrics d2)) d2 in
      set_heatmapData
        (set_clicks (clicks (heatmapData d') ++ [mkClick x y page now]) (heatmapData d')) d'
    else d2 in
  if Action_eqb action scroll then
    set_sessionMetrics
      (set_totalScrolls (totalScrolls (sessionMetrics d3) + 1) (sessionMetrics d3)) d3
  else d3.

(** [cursorLogSchema.methods.addHoverData]. *)
Definition addHoverData (now : Z) (x y : Q) (dur : Z) (page : string)
    (d : CursorLog) : CursorLog :=
  set_heatmapData
    (set_hovers (hovers (heatmapData d) ++ [mkHover x y dur page now]) (heatmapData d)) d.

(** [Array.prototype.find] followed by an in-place change of the element
    found: the first entry that satisfies [p] is replaced by its image. *)
Fixpoint update_first {A} (p : A -> bool) (f : A -> A) (l : list A) : list A :=
  match l with
  | [] => []
  | a :: rest => if p a then f a :: rest else a :: update_first p f rest
  end.

(** [depth > existingEntry.maxDepth]. *)
Definition Qgt_bool (a b : Q) : bool := negb (Qle_bool a b).

(** [cursorLogSchema.methods.updateScrollDepth], on the [scrollDepth] array. *)
Definition updateScrollDepth_entries (now : Z) (page : string) (depth : Q)
    (entries : list ScrollDepth) : list ScrollDepth :=
  match find (fun s => (sd_page s =? page)%string) entries with
  | Some _ =>
    update_first (fun s => (sd_page s =? page)%string)
      (fun existingEntry =>
         if Qgt_bool depth (sd_maxDepth existingEntry)
         then mkScrollDepth (sd_page existingEntry) depth now
         else existingEntry)
      entries
  | None => entries ++ [mkScrollDepth page depth now]
  end.

Definition updateScrollDepth (now : Z) (page : string) (depth : Q)
    (d : CursorLog) : CursorLog :=
  set_heatmapData
    (set_scrollDepth
       (updateScrollDepth_entries now page depth (scrollDepth (heatmapData d)))
       (heatmapData d)) d.

(** [cursorLogSchema.methods.endSession]; [Math.floor] is [Z.div]. *)
Definition endSession (now : Z) (d : CursorLog) : CursorLog :=
  let m := sessionMetrics d in
  set_sessionMetrics (set_closed now ((now - startTime m) / 1000) m) d.

(** [cursorLogSchema.methods.addPageVisit].  [find] compares the stored
    pages with the argument as it was given; the entry pushed on
    [pagesVisited] goes through the setter of the schema, which trims its
    [page]. *)
Definition addPageVisit (now : Z) (page : string) (timeSpent : option Z)
    (d : CursorLog) : CursorLog :=
  let t := match timeSpent with Some t => t | None => 0 end in
  let m := sessionMetrics d in
  let visited :=
    match find (fun p => (pg_page p =? page)%string) (pagesVisited m) with
    | Some _ =>
      update_first (fun p => (pg_page p =? page)%string)
        (fun existingPage =>
           mkPageVisit (pg_page existingPage) (pg_timeSpent existingPage + t)
             (pg_visitedAt existingPage))
        (pagesVisited m)
    | None => pagesVisited m ++ [mkPageVisit (trim page) t now]
    end in
  set_sessionMetrics (set_pagesVisited visited m) d.

Definition by_active_pair (sid eid : string) (d : CursorLog) : bool :=
  (sessionId d =? sid)%string && (eventId d =? eid)%string
  && isActive (sessionMetrics d).

(** The document [CursorLog.create] builds in the join handler and in
    [createOrUpdateSession]. *)
Definition new_CursorLog (now : Z) (sid : string) (uid : option string) (eid : string)
    (ua ip : option string) (loc : option Location) (dev : Device) : CursorLog :=
  mkCursorLog sid uid eid ua ip loc dev []
    (mkSessionMetrics now None 0 0 0 [] true now)
    (mkHeatmapData [] [] []) false now.

(** *** Heatmap aggregation *)

(** The [_id] of the [$group] stage. *)
Record Bucket := mkBucket {
  bk_x : Z;
  bk_y : Z;
  bk_page : string
}.

Definition Bucket_eqb (a b : Bucket) : bool :=
  (bk_x a =? bk_x b) && (bk_y a =? bk_y b) && (bk_page a =? bk_page b)%string.

(** [{ $floor: { $divide: [v, 10] } }]. *)
Definition cell (v : Q) : Z := Qfloor (v / 10).

Definition bucket_of (c : Click) : Bucket :=
  mkBucket (cell (ck_x c)) (cell (ck_y c)) (ck_page c).

Record HeatmapRow := mkHeatmapRow {
  row_id : Bucket;
  row_count : nat;
  row_avgX : Q;
  row_avgY : Q
}.

Definition Qsum (l : list Q) : Q := fold_right Qplus 0%Q l.

(** [$avg]. *)
Definition Qavg (l : list Q) : Q := (Qsum l / inject_Z (Z.of_nat (length l)))%Q.

(** The distinct group keys, in order of first appearance. *)
Fixpoint distinct (ks : list Bucket) : list Bucket :=
  match ks with
  | [] => []
  | k :: rest => k :: filter (fun k' => negb (Bucket_eqb k' k)) (distinct rest)
  end.

(** [$group]: one row per distinct [_id], with [$sum: 1] and the two [$avg]s
    taken over the clicks of the group. *)
Definition group_clicks (cs : list Click) : list HeatmapRow :=
  map (fun k =>
         let members := filter (fun c => Bucket_eqb (bucket_of c) k) cs in
         mkHeatmapRow k (length members)
           (Qavg (map ck_x members)) (Qavg (map ck_y members)))
      (distinct (map bucket_of cs)).

(** [{ $sort: { count: -1 } }], as a stable insertion sort (rows of equal
    count stay in the order of the [$group] stage). *)
Fixpoint insert_desc (r : HeatmapRow) (rows : list HeatmapRow) : list HeatmapRow :=
  match rows with
  | [] => [r]
  | r' :: rest =>
    if (row_count r' <=? row_count r)%nat then r :: rows
    else r' :: insert_desc r rest
  end.

Definition sort_desc (rows : list HeatmapRow) : list HeatmapRow :=
  fold_right (fun r acc => insert_desc r acc) [] rows.

(** The [$match] stage of [getHeatmapData], called with the [ObjectId]
    [eid]. *)
Definition heatmap_match (eid : string) (page : option string)
    (startDate endDate : option Z) (d : CursorLog) : bool :=
  (eventId d =? eid)%string && negb (isDeleted d)
  && match page with
     | Some p =>
       if truthy page
       then existsb (fun c => (ck_page c =? p)%string) (clicks (heatmapData d))
       else true
     | None => true
     end
  && match startDate with Some s => s <=? createdAt d | None => true end
  && match endDate with Some e => createdAt d <=? e | None => true end.

(** [cursorLogSchema.statics.getHeatmapData], called with the [ObjectId]
    [eid]: [$match], [$unwind] of the clicks, [$group], [$sort]. *)
Definition unwind_clicks (docs : list CursorLog) : list Click :=
  flat_map (fun d => clicks (heatmapData d)) docs.

Definition getHeatmapData (db : list CursorLog) (eid : string) (page : option string)
    (startDate endDate : option Z) : list HeatmapRow :=
  sort_desc
    (group_clicks
       (unwind_clicks (filter (heatmap_match eid page startDate endDate) db))).

Record HeatmapPoint := mkHeatmapPoint {
  hp_x : Q;
  hp_y : Q;
  hp_value : nat;
  hp_page : string;
  hp_gridX : Z;
  hp_gridY : Z
}.

(** [cursorLogSchema.statics.getHeatmapData] for any value of its argument
    [eventId], which the [$match] stage compares with the stored id. *)
Definition heatmap_match_value (v : Mongo.QueryValue) (page : option string)
    (startDate endDate : option Z) (d : CursorLog) : bool :=
  match v with
  | Mongo.AsObjectId eid => heatmap_match eid page startDate endDate d
  | Mongo.AsString _ => false
  end.

Definition CursorLog_getHeatmapData (db : list CursorLog) (v : Mongo.QueryValue)
    (page : option string) (startDate endDate : option Z) : list HeatmapRow :=
  sort_desc
    (group_clicks
       (unwind_clicks (filter (heatmap_match_value v page startDate endDate) db))).

(** The route handler [getHeatmapData] of [cursorRoutes.js]; [eid] is
    [req.params.eventId], the string the handler passes to the static, and
    [resolution] is the parsed query parameter, absent when the query does
    not give it. *)
Definition heatmap_route (db : list CursorLog) (eid : string) (page : option string)
    (startDate endDate : option Z) (resolution : option Z) : list HeatmapPoint :=
  let res := match resolution with Some r => r | None => 10 end in
  map (fun item =>
         mkHeatmapPoint (row_avgX item) (row_avgY item) (row_count item)
           (bk_page (row_id item))
           (bk_x (row_id item) * res) (bk_y (row_id item) * res))
      (CursorLog_getHeatmapData db (Mongo.AsString eid) page startDate endDate).

(** *** The connection registry and the socket handlers *)

Record UserInfo := mkUserInfo {
  ui_name : string;
  ui_email : string;
  ui_avatar : option string
}.

(** The [sessionData] object of one connection. *)
Record SessionData := mkSessionData {
  socketId : string;
  sd_userId : option string;
  userInfo : option UserInfo;
  connectedAt : Z;
  currentEvent : option string;
  sd_lastActivity : Z
}.

(** What the handlers of one connected socket close over: the handshake
    address and the [sessionData] object.  The [activeSessions] map holds a
    reference to the same object, so the map is its list of keys (in
    insertion order) and a lookup goes through [conns]. *)
Record Conn := mkConn {
  address : string;
  sessionData : SessionData
}.

Record State := mkState {
  conns : list (string * Conn);
  activeSessions : list string;
  rooms : list (string * string);
  db : list CursorLog
}.

Definition initial : State := mkState [] [] [] [].

(** [activeSessions.set] / [activeSessions.delete] on the keys. *)
Definition keys_set (k : string) (ks : list string) : list string :=
  if existsb (fun k' => (k' =? k)%string) ks then ks else ks ++ [k].

Definition keys_delete (k : string) (ks : list string) : list string :=
  filter (fun k' => negb (k' =? k)%string) ks.

(** [activeSessions.get]. *)
Definition activeSessions_get (st : State) (sid : string) : option SessionData :=
  if existsb (fun k => (k =? sid)%string) (activeSessions st)
  then option_map sessionData (lookup sid (conns st))
  else None.

(** [Array.from(activeSessions.values())]. *)
Definition activeSessions_values (st : State) : list SessionData :=
  flat_map (fun k => match lookup k (conns st) with
                     | Some c => [sessionData c]
                     | None => []
                     end) (activeSessions st).

Inductive Target :=
| SocketTo (sender room : string)   (* socket.to(room): the room but the sender *)
| IoTo (room : string)              (* io.to(room): the whole room *)
| SocketSelf (sid : string).        (* socket.emit *)

Record ActiveUser := mkActiveUser {
  au_sessionId : string;
  au_userInfo : option UserInfo;
  au_connectedAt : Z
}.

Inductive Message :=
| user_left (sessionId : string) (info : option UserInfo)
| user_joined (sessionId : string) (info : option UserInfo) (joinedAt : Z)
| active_users (users : list ActiveUser)
| joined_event (eventId sessionId : string) (activeUsersCount : nat)
| cursor_update (sessionId : string) (info : option UserInfo) (x y : Q)
    (page : string) (element : option string) (timestamp : Z)
| cursor_click (sessionId : string) (info : option UserInfo) (x y : Q)
    (page : string) (element : option string) (timestamp : Z)
| error (message : string).

(** One emitted message, with the sockets the adapter delivers it to. *)
Record Emission := mkEmission {
  em_target : Target;
  em_recipients : list string;
  em_message : Message
}.

Definition emit (rs : list (string * string)) (t : Target) (m : Message) : Emission :=
  mkEmission t
    match t with
    | SocketTo sender room =>
      filter (fun s => negb (s =? sender)%string) (room_members room rs)
    | IoTo room => room_members room rs
    | SocketSelf sid => [sid]
    end m.

Definition set_room (e : option string) (t : Z) (s : SessionData) : SessionData :=
  mkSessionData (socketId s) (sd_userId s) (userInfo s) (connectedAt s) e t.

Definition touch (t : Z) (s : SessionData) : SessionData :=
  mkSessionData (socketId s) (sd_userId s) (userInfo s) (connectedAt s)
    (currentEvent s) t.

Definition set_conn (sid : string) (c : Conn) (s : SessionData) (st : State) : State :=
  mkState (assign sid (mkConn (address c) s) (conns st)) (activeSessions st)
    (rooms st) (db st).

Definition set_db (v : list CursorLog) (st : State) : State :=
  mkState (conns st) (activeSessions st) (rooms st) v.

Definition set_rooms (v : list (string * string)) (st : State) : State :=
  mkState (conns st) (activeSessions st) v (db st).

(** [findOne] of the active row of a pair, a method on it, and its [save];
    nothing happens when there is no such row. *)
Definition persist (sid eid : string) (method : CursorLog -> CursorLog)
    (rows : list CursorLog) : list CursorLog :=
  match findOne (by_active_pair sid eid) rows with
  | Some (i, cursorLog) => save i (method cursorLog) rows
  | None => rows
  end.

(** The authenticated user attached to the socket by [socketAuth], if any. *)
Record User := mkUser {
  u_id : string;
  u_info : UserInfo
}.

(** [io.on('connection')].  The socket is new: it is in no event room. *)
Definition connection (now : Z) (sid : string) (user : option User) (addr : string)
    (st : State) : State :=
  let sessionData :=
    mkSessionData sid (option_map u_id user) (option_map u_info user) now None now in
  mkState (assign sid (mkConn addr sessionData) (conns st))
    (keys_set sid (activeSessions st)) (leave_all sid (rooms st)) (db st).

Record JoinData := mkJoinData {
  jd_eventId : option string;
  jd_userAgent : option string;
  jd_screenResolution : option (Z * Z);
  jd_location : option Location
}.

Definition to_ActiveUser (s : SessionData) : ActiveUser :=
  mkActiveUser (socketId s) (userInfo s) (connectedAt s).

(** [socket.on('join-event')]. *)
Definition join_event (now : Z) (sid : string) (data : JoinData) (st : State)
    : State * list Emission :=
  match lookup sid (conns st) with
  | None => (st, [])
  | Some c =>
    let sessionData := sessionData c in
    match truthy_value (jd_eventId data) with
    | None => (st, [emit (rooms st) (SocketSelf sid) (error "Event ID is required")])
    | Some eventId =>
      (* Leave previous event room *)
      let left :=
        match truthy_value (currentEvent sessionData) with
        | Some previous =>
          let rs := socket_leave sid previous (rooms st) in
          (rs, [emit rs (SocketTo sid previous) (user_left sid (userInfo sessionData))])
        | None => (rooms st, [])
        end in
      (* Join new event room *)
      let rs := socket_join sid eventId (fst left) in
      let sessionData' := set_room (Some eventId) now sessionData in
      (* Create or update cursor log session *)
      let rows :=
        match findOne (by_active_pair sid eventId) (db st) with
        | Some _ => db st
        | None =>
          create (new_CursorLog now sid (sd_userId sessionData) eventId
                    (jd_userAgent data) (Some (address c)) (jd_location data)
                    (mkDevice unknown None None (jd_screenResolution data)))
                 (db st)
        end in
      let st' :=
        mkState (assign sid (mkConn (address c) sessionData') (conns st))
          (activeSessions st) rs rows in
      let activeUsers :=
        map to_ActiveUser
          (filter (fun session =>
                     strict_eq (currentEvent session) (Some eventId)
                     && negb (socketId session =? sid)%string)
                  (activeSessions_values st')) in
      (st',
       snd left ++
       [emit rs (SocketTo sid eventId) (user_joined sid (userInfo sessionData) now);
        emit rs (SocketSelf sid) (active_users activeUsers);
        emit rs (SocketSelf sid)
          (joined_event eventId sid (length activeUsers + 1))])
    end
  end.

(** The guard that opens every tracking handler:
    [!sessionData.currentEvent || sessionData.currentEvent !== eventId]. *)
Definition current_room (s : SessionData) (eventId : option string) : option string :=
  match truthy_value (currentEvent s) with
  | Some e => if strict_eq (currentEvent s) eventId then Some e else None
  | None => None
  end.

Record PointerData := mkPointerData {
  pd_x : Q;
  pd_y : Q;
  pd_page : string;
  pd_element : option string;
  pd_eventId : option string
}.

(** [socket.on('cursor-move')]; [rnd] is the value [Math.random()] returns. *)
Definition cursor_move (now : Z) (sid : string) (data : PointerData) (rnd : Q)
    (st : State) : State * list Emission :=
  match lookup sid (conns st) with
  | None => (st, [])
  | Some c =>
    match current_room (sessionData c) (pd_eventId data) with
    | None => (st, [])
    | Some eventId =>
      let st1 := set_conn sid c (touch now (sessionData c)) st in
      let out := [emit (rooms st) (SocketTo sid eventId)
                    (cursor_update sid (userInfo (sessionData c)) (pd_x data) (pd_y data)
                       (pd_page data) (pd_element data) now)] in
      if Qgt_bool (1 # 10) rnd
      then (set_db (persist sid eventId
                      (addCursorMovement now (pd_x data) (pd_y data) (pd_page data)
                         (pd_element data) move) (db st1)) st1, out)
      else (st1, out)
    end
  end.

(** [socket.on('cursor-click')]. *)
Definition cursor_click_handler (now : Z) (sid : string) (data : PointerData)
    (st : State) : State * list Emission :=
  match lookup sid (conns st) with
  | None => (st, [])
  | Some c =>
    match current_room (sessionData c) (pd_eventId data) with
    | None => (st, [])
    | Some eventId =>
      let st1 := set_conn sid c (touch now (sessionData c)) st in
      (set_db (persist sid eventId
                 (addCursorMovement now (pd_x data) (pd_y data) (pd_page data)
                    (pd_element data) click) (db st1)) st1,
       [emit (rooms st) (SocketTo sid eventId)
          (cursor_click sid (userInfo (sessionData c)) (pd_x data) (pd_y data)
             (pd_page data) (pd_element data) now)])
    end
  end.

(** The handlers that only log: [page-scroll], [page-visit], [cursor-hover]. *)
Definition logging_handler (now : Z) (sid : string) (eventId : option string)
    (method : CursorLog -> CursorLog) (st : State) : State * list Emission :=
  match lookup sid (conns st) with
  | None => (st, [])
  | Some c =>
    match current_room (sessionData c) eventId with
    | None => (st, [])
    | Some e =>
      let st1 := set_conn sid c (touch now (sessionData c)) st in
      (set_db (persist sid e method (db st1)) st1, [])
    end
  end.

Definition page_scroll (now : Z) (sid : string) (page : string) (depth : Q)
    (eventId : option string) :=
  logging_handler now sid eventId (updateScrollDepth now page depth).

Definition page_visit (now : Z) (sid : string) (page : string) (timeSpent : option Z)
    (eventId : option string) :=
  logging_handler now sid eventId (addPageVisit now page timeSpent).

Definition cursor_hover (now : Z) (sid : string) (x y : Q) (dur : Z) (page : string)
    (eventId : option string) :=
  logging_handler now sid eventId (addHoverData now x y dur page).

(** What both the disconnect handler and the sweep do for a session that is
    in a room: notify the room and end the cursor log session. *)
Definition close_session (now : Z) (sid : string) (session : SessionData)
    (t : string -> Target) (st : State) : State * list Emission :=
  match truthy_value (currentEvent session) with
  | Some e =>
    (set_db (persist sid e (endSession now) (db st)) st,
     [emit (rooms st) (t e) (user_left sid (userInfo session))])
  | None => (st, [])
  end.

Definition delete_session (sid : string) (st : State) : State :=
  mkState (conns st) (keys_delete sid (activeSessions st)) (rooms st) (db st).

(** The body of the [disconnect] handler. *)
Definition disconnect_handler (now : Z) (sid : string) (st : State)
    : State * list Emission :=
  let closed :=
    match activeSessions_get st sid with
    | Some session => close_session now sid session (SocketTo sid) st
    | None => (st, [])
    end in
  (delete_session sid (fst closed), snd closed).

(** [socket.on('disconnect')]: the transport has taken the socket out of its
    rooms when the handler runs, and no handler of the socket runs later. *)
Definition disconnect (now : Z) (sid : string) (st : State) : State * list Emission :=
  match lookup sid (conns st) with
  | None => (st, [])
  | Some _ =>
    let r := disconnect_handler now sid (set_rooms (leave_all sid (rooms st)) st) in
    (mkState (remove_key sid (conns (fst r))) (activeSessions (fst r))
       (rooms (fst r)) (db (fst r)), snd r)
  end.

Definition inactiveThreshold : Z := 5 * 60 * 1000.

(** The body of the sweep loop, for the map entry with key [sid]. *)
Definition sweep_entry (now : Z) (sid : string) (st : State) : State * list Emission :=
  match activeSessions_get st sid with
  | None => (st, [])
  | Some session =>
    if inactiveThreshold <? now - sd_lastActivity session then
      let closed := close_session now sid session (fun e => IoTo e) st in
      (delete_session sid (fst closed), snd closed)
    else (st, [])
  end.

(** The [setInterval] callback: one pass over the entries of the map. *)
Fixpoint sweep (now : Z) (keys : list string) (st : State) : State * list Emission :=
  match keys with
  | [] => (st, [])
  | k :: rest =>
    let r := sweep_entry now k st in
    let r' := sweep now rest (fst r) in
    (fst r', snd r ++ snd r')
  end.

Definition cleanup (now : Z) (st : State) : State * list Emission :=
  sweep now (activeSessions st) st.

Record ActiveSession := mkActiveSession {
  as_sessionId : string;
  as_userInfo : option UserInfo;
  as_connectedAt : Z;
  as_lastActivity : Z
}.

(** [getActiveSessionsForEvent]. *)
Definition getActiveSessionsForEvent (st : State) (eventId : string) : list ActiveSession :=
  map (fun session =>
         mkActiveSession (socketId session) (userInfo session) (connectedAt session)
           (sd_lastActivity session))
      (filter (fun session => strict_eq (currentEvent session) (Some eventId))
              (activeSessions_values st)).

Record SessionBody := mkSessionBody {
  sb_sessionId : option string;
  sb_eventId : option string;
  sb_userAgent : option string;
  sb_screenResolution : option (Z * Z);
  sb_location : option Location;
  sb_device : option Device
}.

Inductive Response :=
| Success (sessionId eventId : string) (startTime : Z)
| BadRequest (message : string).

(** [createOrUpdateSession] ([POST /api/cursor/session]). *)
Definition createOrUpdateSession (now : Z) (user : option User) (ip : string)
    (b : SessionBody) (rows : list CursorLog) : Response * list CursorLog :=
  match truthy_value (sb_sessionId b), truthy_value (sb_eventId b) with
  | Some sid, Some eid =>
    match findOne (by_active_pair sid eid) rows with
    | None =>
      let dev := match sb_device b with
                 | Some d => mkDevice (dv_type d) (dv_os d) (dv_browser d) (sb_screenResolution b)
                 | None => mkDevice unknown None None (sb_screenResolution b)
                 end in
      let cursorLog := new_CursorLog now sid (option_map u_id user) eid
                         (sb_userAgent b) (Some ip) (sb_location b) dev in
      (Success (sessionId cursorLog) (eventId cursorLog) (startTime (sessionMetrics cursorLog)),
       create cursorLog rows)
    | Some (i, cursorLog) =>
      let cursorLog' := set_sessionMetrics (set_lastActivity now (sessionMetrics cursorLog)) cursorLog in
      (Success (sessionId cursorLog') (eventId cursorLog') (startTime (sessionMetrics cursorLog')),
       save i cursorLog' rows)
    end
  | _, _ => (BadRequest "Session ID and Event ID are required", rows)
  end.

(** Everything the server reacts to, stamped with the time it is handled at. *)
Inductive Input :=
| OnConnection (now : Z) (sid : string) (user : option User) (addr : string)
| OnJoinEvent (now : Z) (sid : string) (data : JoinData)
| OnCursorMove (now : Z) (sid : string) (data : PointerData) (rnd : Q)
| OnCursorClick (now : Z) (sid : string) (data : PointerData)
| OnPageScroll (now : Z) (sid : string) (page : string) (depth : Q) (eventId : option string)
| OnPageVisit (now : Z) (sid : string) (page : string) (timeSpent : option Z) (eventId : option string)
| OnCursorHover (now : Z) (sid : string) (x y : Q) (dur : Z) (page : string) (eventId : option string)
| OnDisconnect (now : Z) (sid : string)
| OnCleanup (now : Z)
| OnPostSession (now : Z) (user : option User) (ip : string) (b : SessionBody).

Definition step (i : Input) (st : State) : State * list Emission :=
  match i with
  | OnConnection now sid user addr => (connection now sid user addr st, [])
  | OnJoinEvent now sid data => join_event now sid data st
  | OnCursorMove now sid data rnd => cursor_move now sid data rnd st
  | OnCursorClick now sid data => cursor_click_handler now sid data st
  | OnPageScroll now sid page depth e => page_scroll now sid page depth e st
  | OnPageVisit now sid page t e => page_visit now sid page t e st
  | OnCursorHover now sid x y dur page e => cursor_hover now sid x y dur page e st
  | OnDisconnect now sid => disconnect now sid st
  | OnCleanup now => cleanup now st
  | OnPostSession now user ip b =>
    (set_db (snd (createOrUpdateSession now user ip b (db st))) st, [])
  end.

(** The state after the inputs, and everything emitted on the way. *)
Fixpoint run (inputs : list Input) (st : State) : State * list Emission :=
  match inputs with
  | [] => (st, [])
  | i :: rest =>
    let r := step i st in
    let r' := run rest (fst r) in
    (fst r', snd r ++ snd r')
  end.

(** *** The session starts at their [await]s

    The join handler and [createOrUpdateSession] wait for
    [CursorLog.findOne] and then for [CursorLog.create] or [save], and give
    way to the other handlers meanwhile.  They are given here in the two
    parts the wait cuts them in; [join_event] and [createOrUpdateSession]
    above are these handlers run without interruption. *)

(** The answer of [findOne] for the active row of a pair. *)
Inductive SessionLookup :=
| SessionFound (i : nat) (cursorLog : CursorLog)
| SessionAbsent.

Definition session_lookup (sid eid : string) (rows : list CursorLog) : SessionLookup :=
  match findOne (by_active_pair sid eid) rows with
  | Some (i, cursorLog) => SessionFound i cursorLog
  | None => SessionAbsent
  end.

(** A [join-event] that waits for the store: the socket, what its handlers
    close over, the event, the data of the event and the answer of
    [findOne]. *)
Record PendingJoin := mkPendingJoin {
  pj_socket : string;
  pj_conn : Conn;
  pj_eventId : string;
  pj_data : JoinData;
  pj_found : SessionLookup
}.

(** [join-event] up to the answer of [CursorLog.findOne]. *)
Definition join_event_lookup (now : Z) (sid : string) (data : JoinData) (st : State)
    : State * list Emission * option PendingJoin :=
  match lookup sid (conns st) with
  | None => (st, [], None)
  | Some c =>
    let sessionData := sessionData c in
    match truthy_value (jd_eventId data) with
    | None =>
      (st, [emit (rooms st) (SocketSelf sid) (error "Event ID is required")], None)
    | Some eventId =>
      (* Leave previous event room *)
      let left :=
        match truthy_value (currentEvent sessionData) with
        | Some previous =>
          let rs := socket_leave sid previous (rooms st) in
          (rs, [emit rs (SocketTo sid previous) (user_left sid (userInfo sessionData))])
        | None => (rooms st, [])
        end in
      (* Join new event room *)
      let rs := socket_join sid eventId (fst left) in
      let sessionData' := set_room (Some eventId) now sessionData in
      (mkState (assign sid (mkConn (address c) sessionData') (conns st))
         (activeSessions st) rs (db st),
       snd left,
       Some (mkPendingJoin sid c eventId data (session_lookup sid eventId (db st))))
    end
  end.

(** [join-event] from the answer on: the session log is created when none
    was found, and the room and the socket are told (what is emitted to the
    socket itself is listed whether or not the socket is still there). *)
Definition join_event_write (now : Z) (p : PendingJoin) (st : State)
    : State * list Emission :=
  let sid := pj_socket p in
  let eventId := pj_eventId p in
  let sessionData := sessionData (pj_conn p) in
  let rows :=
    match pj_found p with
    | SessionFound _ _ => db st
    | SessionAbsent =>
      create (new_CursorLog now sid (sd_userId sessionData) eventId
                (jd_userAgent (pj_data p)) (Some (address (pj_conn p)))
                (jd_location (pj_data p))
                (mkDevice unknown None None (jd_screenResolution (pj_data p))))
             (db st)
    end in
  let st' := set_db rows st in
  let activeUsers :=
    map to_ActiveUser
      (filter (fun session =>
                 strict_eq (currentEvent session) (Some eventId)
                 && negb (socketId session =? sid)%string)
              (activeSessions_values st')) in
  (st',
   [emit (rooms st) (SocketTo sid eventId) (user_joined sid (userInfo sessionData) now);
    emit (rooms st) (SocketSelf sid) (active_users activeUsers);
    emit (rooms st) (SocketSelf sid)
      (joined_event eventId sid (length activeUsers + 1))]).

(** What [createOrUpdateSession] knows when [findOne] has answered. *)
Inductive PostLookup :=
| PostRejected
| PostLooked (sid eid : string) (found : SessionLookup).

Definition createOrUpdateSession_lookup (b : SessionBody) (rows : list CursorLog)
    : PostLookup :=
  match truthy_value (sb_sessionId b), truthy_value (sb_eventId b) with
  | Some sid, Some eid => PostLooked sid eid (session_lookup sid eid rows)
  | _, _ => PostRejected
  end.

(** What it does then.  [cursorLog.save()] sends the path the handler
    assigned, [sessionMetrics.lastActivity], and the store sets it on the row
    with the id of the document, which is the row at its position; the answer
    is made from the document the handler holds. *)
Definition createOrUpdateSession_write (now : Z) (user : option User) (ip : string)
    (b : SessionBody) (l : PostLookup) (rows : list CursorLog)
    : Response * list CursorLog :=
  match l with
  | PostRejected => (BadRequest "Session ID and Event ID are required", rows)
  | PostLooked sid eid SessionAbsent =>
    let dev := match sb_device b with
               | Some d => mkDevice (dv_type d) (dv_os d) (dv_browser d) (sb_screenResolution b)
               | None => mkDevice unknown None None (sb_screenResolution b)
               end in
    let cursorLog := new_CursorLog now sid (option_map u_id user) eid
                       (sb_userAgent b) (Some ip) (sb_location b) dev in
    (Success (sessionId cursorLog) (eventId cursorLog) (startTime (sessionMetrics cursorLog)),
     create cursorLog rows)
  | PostLooked sid eid (SessionFound i cursorLog) =>
    (Success (sessionId cursorLog) (eventId cursorLog) (startTime (sessionMetrics cursorLog)),
     match nth_error rows i with
     | Some stored =>
       save i (set_sessionMetrics (set_lastActivity now (sessionMetrics stored)) stored) rows
     | None => rows
     end)
  end.

(** A schedule of the server: handlers run whole, and session starts taken
    in their two parts.  The schedule names a request, and the server keeps
    what a request knows while it waits (a lookup under the name of a
    waiting request takes its place). *)
Inductive Phase :=
| Whole (i : Input)
| JoinEventLookup (request : string) (now : Z) (sid : string) (data : JoinData)
| JoinEventWrite (request : string) (now : Z)
| PostSessionLookup (request : string) (user : option User) (ip : string)
    (b : SessionBody)
| PostSessionWrite (request : string) (now : Z).

Inductive Awaited :=
| AwaitingJoin (p : PendingJoin)
| AwaitingPost (user : option User) (ip : string) (b : SessionBody) (l : PostLookup).

Record Interleaved := mkInterleaved {
  server : State;
  awaiting : list (string * Awaited)
}.

Definition phase_step (p : Phase) (s : Interleaved) : Interleaved * list Emission :=
  match p with
  | Whole i =>
    let r := step i (server s) in
    (mkInterleaved (fst r) (awaiting s), snd r)
  | JoinEventLookup request now sid data =>
    let r := join_event_lookup now sid data (server s) in
    (mkInterleaved (fst (fst r))
       match snd r with
       | Some pending => assign request (AwaitingJoin pending) (awaiting s)
       | None => awaiting s
       end,
     snd (fst r))
  | JoinEventWrite request now =>
    match lookup request (awaiting s) with
    | Some (AwaitingJoin pending) =>
      let r := join_event_write now pending (server s) in
      (mkInterleaved (fst r) (remove_key request (awaiting s)), snd r)
    | _ => (s, [])
    end
  | PostSessionLookup request user ip b =>
    (mkInterleaved (server s)
       (assign request
          (AwaitingPost user ip b (createOrUpdateSession_lookup b (db (server s))))
          (awaiting s)),
     [])
  | PostSessionWrite request now =>
    match lookup request (awaiting s) with
    | Some (AwaitingPost user ip b l) =>
      (mkInterleaved
         (set_db (snd (createOrUpdateSession_write now user ip b l (db (server s))))
            (server s))
         (remove_key request (awaiting s)),
       [])
    | _ => (s, [])
    end
  end.

Fixpoint phase_run (schedule : list Phase) (s : Interleaved)
    : Interleaved * list Emission :=
  match schedule with
  | [] => (s, [])
  | p :: rest =>
    let r := phase_step p s in
    let r' := phase_run rest (fst r) in
    (fst r', snd r ++ snd r')
  end.

(** The pair of a join and of a posted session. *)
Definition join_pair (sid : string) (data : JoinData) : option (string * string) :=
  match truthy_value (jd_eventId data) with
  | Some eid => Some (sid, eid)
  | None => None
  end.

Definition post_pair (b : SessionBody) : option (string * string) :=
  match truthy_value (sb_sessionId b), truthy_value (sb_eventId b) with
  | Some sid, Some eid => Some (sid, eid)
  | _, _ => None
  end.

(** The pair whose session a phase starts by looking it up. *)
Definition starts (p : Phase) : option (string * string) :=
  match p with
  | Whole (OnJoinEvent _ sid data) => join_pair sid data
  | Whole (OnPostSession _ _ _ b) => post_pair b
  | JoinEventLookup _ _ sid data => join_pair sid data
  | PostSessionLookup _ _ _ b => post_pair b
  | _ => None
  end.

(** The pair a waiting request looked up. *)
Definition awaited_pair (a : Awaited) : option (string * string) :=
  match a with
  | AwaitingJoin pending => Some (pj_socket pending, pj_eventId pending)
  | AwaitingPost _ _ _ (PostLooked sid eid _) => Some (sid, eid)
  | AwaitingPost _ _ _ PostRejected => None
  end.

Definition same_pair (a b : string * string) : bool :=
  (fst a =? fst b)%string && (snd a =? snd b)%string.

(** A phase overlaps a waiting request when it starts a session of the pair
    the request looked up. *)
Definition overlaps (p : Phase) (s : Interleaved) : bool :=
  match starts p with
  | Some started =>
    existsb (fun entry =>
               match awaited_pair (snd entry) with
               | Some looked => same_pair looked started
               | None => false
               end)
      (awaiting s)
  | None => false
  end.

(** No session start of the schedule begins while another one of the same
    pair waits between its lookup and its write. *)
Fixpoint serial (schedule : list Phase) (s : Interleaved) : bool :=
  match schedule with
  | [] => true
  | p :: rest => negb (overlaps p s) && serial rest (fst (phase_step p s))
  end.

(** *** Observations the statements below are phrased with *)

Definition on_page (page : string) (s : ScrollDepth) : bool :=
  (sd_page s =? page)%string.

(** The depth stored for a page, if the page has an entry. *)
Definition stored_depth (page : string) (d : CursorLog) : option Q :=
  option_map sd_maxDepth (find (on_page page) (scrollDepth (heatmapData d))).

(** The number of scroll-depth entries of a page. *)
Definition depth_entries (page : string) (d : CursorLog) : nat :=
  length (filter (on_page page) (scrollDepth (heatmapData d))).

(** A session log as [CursorLog.create] leaves it. *)
Definition fresh_log : CursorLog :=
  new_CursorLog 0 "s1" None "e1" None None None (mkDevice unknown None None None).


(** *** Inputs the examples run on *)

Definition tech_conference : string := "507f1f77bcf86cd799439011".
Definition music_festival : string := "507f1f77bcf86cd799439012".

Definition join_data (eventId : string) : JoinData :=
  mkJoinData (Some eventId) None None None.

Definition pointer_at (x y : Q) (page eventId : string) : PointerData :=
  mkPointerData x y page None (Some eventId).

(** A visitor connects, joins an event and clicks [n] times. *)
Definition clicking_visitor (n : nat) : list Input :=
  OnConnection 0 "socket_1" None "10.0.0.1"
  :: OnJoinEvent 0 "socket_1" (join_data tech_conference)
  :: repeat (OnCursorClick 1 "socket_1" (pointer_at 12 18 "home" tech_conference)) n.


(** A session log with the given clicks, each recorded by the click handler's
    [addCursorMovement]. *)
Definition log_with_clicks (sid eid : string) (cs : list (Q * Q * string)) : CursorLog :=
  fold_left
    (fun d c => addCursorMovement 1 (fst (fst c)) (snd (fst c)) (snd c) None click d)
    cs
    (new_CursorLog 0 sid None eid None None None (mkDevice unknown None None None)).

(** Whether a session log has a click on the page. *)
Definition clicked_on (p : string) (d : CursorLog) : bool :=
  existsb (fun c => (ck_page c =? p)%string) (clicks (heatmapData d)).

(** The grid cell the specification assigns a click to, for a resolution. *)
Definition specified_cell (resolution : Z) (c : Click) : Z * Z :=
  (Qfloor (ck_x c / inject_Z resolution), Qfloor (ck_y c / inject_Z resolution)).

Definition by_count_desc (a b : HeatmapRow) : Prop :=
  (row_count b <= row_count a)%nat.


Definition two_clicks : CursorLog :=
  log_with_clicks "socket_1" tech_conference [(12, 18, "home"); (14, 19, "home")]%Q.

Definition clicks_on_two_pages : CursorLog :=
  log_with_clicks "socket_2" tech_conference [(12, 18, "home"); (14, 19, "tickets")]%Q.

Definition one_click : CursorLog :=
  log_with_clicks "socket_3" tech_conference [(15, 5, "home")]%Q.

Definition click_elsewhere : CursorLog :=
  log_with_clicks "socket_4" tech_conference [(40, 40, "about")]%Q.


(** No pair has two active rows. *)
Definition single_active (rows : list CursorLog) : Prop :=
  forall sid eid, (Collection.countDocuments (by_active_pair sid eid) rows <= 1)%nat.

(** A method that activates no row and moves no row to another pair. *)
Definition no_activation (method : CursorLog -> CursorLog) : Prop :=
  forall sid eid d, by_active_pair sid eid (method d) = true -> by_active_pair sid eid d = true.


(** The other sockets in the room of an event. *)
Definition peers (sid eid : string) (rs : list (string * string)) : list string :=
  filter (fun s => negb (s =? sid)%string) (room_members eid rs).

(** The room a connection is in according to its [sessionData]. *)
Definition room_of_conn (c : option Conn) : list string :=
  match c with
  | Some c =>
    match truthy_value (currentEvent (sessionData c)) with
    | Some e => [e]
    | None => []
    end
  | None => []
  end.

(** The adapter and the registry agree: a socket is in the room of its
    [currentEvent] and in no other. *)
Definition rooms_consistent (st : State) : Prop :=
  forall sid, rooms_of sid (rooms st) = room_of_conn (lookup sid (conns st)).

(** Two visitors in the room of one event. *)
Definition two_visitors : list Input :=
  [OnConnection 0 "socket_1" None "10.0.0.1";
   OnConnection 0 "socket_2" None "10.0.0.2";
   OnJoinEvent 1 "socket_1" (join_data tech_conference);
   OnJoinEvent 2 "socket_2" (join_data tech_conference)].


(** The first of two visitors goes silent while the second stays active. *)
Definition silent_visitor : list Input :=
  two_visitors
  ++ [OnCursorClick 350000 "socket_2" (pointer_at 12 18 "home" tech_conference)].


(** *** Observations on the counters, the timing and the page visits *)

(** The samples of the cursor buffer that record a click.  A click is held
    twice, as a sample of the buffer and as a click of the heatmap: what the
    two hold of it, the sample with the page as the schema trimmed it and
    the click with the page as it was sent. *)
Definition click_samples (d : CursorLog) : list CursorSample :=
  filter (fun s => Action_eqb (cs_action s) click) (cursorData d).

Definition sample_view (s : CursorSample) : Q * Q * string * Z :=
  (cs_x s, cs_y s, cs_page s, cs_timestamp s).

Definition click_view (c : Click) : Q * Q * string * Z :=
  (ck_x c, ck_y c, trim (ck_page c), ck_timestamp c).

(** The counters of a session log agree with its arrays. *)
Definition counters_agree (d : CursorLog) : Prop :=
  map click_view (clicks (heatmapData d)) = map sample_view (click_samples d)
  /\ totalClicks (sessionMetrics d) = Z.of_nat (length (clicks (heatmapData d)))
  /\ totalScrolls (sessionMetrics d) = 0
  /\ Forall (fun s => (cs_action s = move \/ cs_action s = click)
                      /\ trim (cs_page s) = cs_page s) (cursorData d).

(** An active log has no end; a closed one lasted the whole seconds between
    its start and its end. *)
Definition timing_ok (d : CursorLog) : Prop :=
  let m := sessionMetrics d in
  startTime m = createdAt d
  /\ if isActive m then endTime m = None /\ duration m = 0
     else exists stop,
         endTime m = Some stop
         /\ duration m = (stop - startTime m) / 1000
         /\ 1000 * duration m <= stop - startTime m < 1000 * duration m + 1000.

Definition visited (page : string) (p : PageVisit) : bool :=
  (pg_page p =? page)%string.

(** The time recorded for a page, if the page has an entry, and the time
    recorded over all pages. *)
Definition time_on (page : string) (d : CursorLog) : option Z :=
  option_map pg_timeSpent (find (visited page) (pagesVisited (sessionMetrics d))).

Definition total_time (d : CursorLog) : Z :=
  fold_right Z.add 0 (map pg_timeSpent (pagesVisited (sessionMetrics d))).

Definition first_visit (page : string) (d : CursorLog) : option Z :=
  option_map pg_visitedAt (find (visited page) (pagesVisited (sessionMetrics d))).

(** A coordinate inside the cell of side 10 that starts at [origin]. *)
Definition in_cell (origin : Z) (v : Q) : Prop :=
  (inject_Z origin <= v < inject_Z origin + 10)%Q.


(** *** Observations on the sweep *)

(** Whether the sweep at [now] removes the registry entry [k]. *)
Definition stale (now : Z) (st : State) (k : string) : bool :=
  match activeSessions_get st k with
  | Some session => inactiveThreshold <? now - sd_lastActivity session
  | None => false
  end.

(** Whether [d] is the active session log of the entry [k], for the event
    the entry is in, when the sweep at [now] removes the entry. *)
Definition sweeps (now : Z) (st : State) (k : string) (d : CursorLog) : bool :=
  match activeSessions_get st k with
  | Some session =>
    (inactiveThreshold <? now - sd_lastActivity session)
    && match truthy_value (currentEvent session) with
       | Some e => by_active_pair k e d
       | None => false
       end
  | None => false
  end.

Definition swept (now : Z) (st : State) (d : CursorLog) : bool :=
  existsb (fun k => sweeps now st k d) (activeSessions st).


(** A tracking input of the socket [sid]: a cursor move, a click, a scroll,
    a page visit or a hover. *)
Definition tracking_of (sid : string) (i : Input) : bool :=
  match i with
  | OnCursorMove _ s _ _ | OnCursorClick _ s _ | OnPageScroll _ s _ _ _
  | OnPageVisit _ s _ _ _ | OnCursorHover _ s _ _ _ _ _ => (s =? sid)%string
  | _ => false
  end.


(** A new connection of the socket [sid]. *)
Definition connection_of (sid : string) (i : Input) : bool :=
  match i with
  | OnConnection _ s _ _ => (s =? sid)%string
  | _ => false
  end.

(** A method that neither ends a session log nor moves it to another pair. *)
Definition no_deactivation (method : CursorLog -> CursorLog) : Prop :=
  forall sid eid d, by_active_pair sid eid (method d) = by_active_pair sid eid d.


(** *** Session analytics ([getSessionAnalytics]) *)

(** [matchConditions], with the value [v] for [eventId]. *)
Definition analytics_match (v : Mongo.QueryValue) (startDate endDate : option Z)
    (d : CursorLog) : bool :=
  Mongo.matches_id (eventId d) v && negb (isDeleted d)
  && match startDate with Some s => s <=? createdAt d | None => true end
  && match endDate with Some e => createdAt d <=? e | None => true end.

Definition Zsum (l : list Z) : Z := fold_right Z.add 0 l.

Definition durations (docs : list CursorLog) : list Q :=
  map (fun d => inject_Z (duration (sessionMetrics d))) docs.

Record Overview := mkOverview {
  ov_totalSessions : nat;
  ov_totalClicks : Z;
  ov_totalScrolls : Z;
  ov_avgDuration : Q;
  ov_uniqueUsers : nat;
  ov_totalPageViews : nat;
  ov_avgClicksPerSession : Q;
  ov_avgScrollsPerSession : Q
}.

(** The [$group] and [$project] stages of [sessionStats]: one row when a
    document matches, none otherwise. *)
Definition sessionStats (matched : list CursorLog) : option Overview :=
  match matched with
  | [] => None
  | _ :: _ =>
    let totalSessions := length matched in
    let totalClicks := Zsum (map (fun d => totalClicks (sessionMetrics d)) matched) in
    let totalScrolls := Zsum (map (fun d => totalScrolls (sessionMetrics d)) matched) in
    Some (mkOverview totalSessions totalClicks totalScrolls
            (Mongo.round2 (Qavg (durations matched)))
            (length (Mongo.distinct strict_eq (map userId matched)))
            (list_sum (map (fun d => length (pagesVisited (sessionMetrics d))) matched))
            (Mongo.round2 (inject_Z totalClicks / inject_Z (Z.of_nat totalSessions)))
            (Mongo.round2 (inject_Z totalScrolls / inject_Z (Z.of_nat totalSessions))))
  end.

Record PageAnalytics := mkPageAnalytics {
  pa_totalVisits : nat;
  pa_avgTimeSpent : Q;
  pa_totalTimeSpent : Z
}.

(** The [pageAnalytics] pipeline: the documents that visited the page, their
    visits unwound, the visits of the page, one group. *)
Definition page_visits (page : string) (matched : list CursorLog) : list PageVisit :=
  filter (visited page)
    (flat_map (fun d => pagesVisited (sessionMetrics d))
       (filter (fun d => existsb (visited page) (pagesVisited (sessionMetrics d)))
          matched)).

Definition pageStats (page : string) (matched : list CursorLog) : option PageAnalytics :=
  match page_visits page matched with
  | [] => None
  | visits =>
    Some (mkPageAnalytics (length visits)
            (Qavg (map (fun p => inject_Z (pg_timeSpent p)) visits))
            (Zsum (map pg_timeSpent visits)))
  end.

Definition DeviceType_eqb (a b : DeviceType) : bool :=
  match a, b with
  | desktop, desktop | mobile, mobile | tablet, tablet | unknown, unknown => true
  | _, _ => false
  end.

Record DeviceRow := mkDeviceRow {
  dr_type : DeviceType;
  dr_count : nat;
  dr_avgDuration : Q
}.

(** [deviceStats]: grouped by [device.type], sorted by count descending. *)
Definition deviceStats (matched : list CursorLog) : list DeviceRow :=
  Mongo.sort (fun a b => (dr_count b <=? dr_count a)%nat)
    (map (fun g => mkDeviceRow (fst g) (length (snd g)) (Qavg (durations (snd g))))
       (Mongo.group DeviceType_eqb (fun d => dv_type (device d)) matched)).

(** [{ $hour: date }]: the hour of the day, in UTC. *)
Definition hour_of (t : Z) : Z := (t / 3600000) mod 24.

Record HourRow := mkHourRow {
  hr_hour : Z;
  hr_sessions : nat;
  hr_avgDuration : Q
}.

(** [hourlyStats]: grouped by the hour of the start, sorted by hour. *)
Definition hourlyStats (matched : list CursorLog) : list HourRow :=
  Mongo.sort (fun a b => hr_hour a <=? hr_hour b)
    (map (fun g => mkHourRow (fst g) (length (snd g)) (Qavg (durations (snd g))))
       (Mongo.group Z.eqb (fun d => hour_of (startTime (sessionMetrics d))) matched)).

Record SessionAnalytics := mkSessionAnalytics {
  overview : Overview;
  pageAnalytics : option PageAnalytics;
  deviceDistribution : list DeviceRow;
  hourlyDistribution : list HourRow
}.

(** [getSessionAnalytics] ([GET /api/cursor/analytics/:eventId]); [eid] is
    [req.params.eventId], the string the handler puts in [matchConditions]. *)
Definition getSessionAnalytics (rows : list CursorLog) (eid : string)
    (startDate endDate : option Z) (page : option string) : SessionAnalytics :=
  let matched := filter (analytics_match (Mongo.AsString eid) startDate endDate) rows in
  mkSessionAnalytics
    match sessionStats matched with
    | Some stats => stats
    | None => mkOverview 0 0 0 0 0 0 0 0
    end
    match truthy_value page with
    | Some p => pageStats p matched
    | None => None
    end
    (deviceStats matched)
    (hourlyStats matched).

(** The hours of a distribution go up strictly. *)
Definition hours_ascending (a b : HourRow) : Prop := hr_hour a < hr_hour b.

Definition device_count_desc (a b : DeviceRow) : Prop := (dr_count b <= dr_count a)%nat.


(** *** The active sessions of an event ([getActiveSessions]) *)

(** [cursorLogSchema.statics.getActiveSessions]: the active session logs of
    the event with activity in the last five minutes. *)
Definition CursorLog_getActiveSessions (now : Z) (rows : list CursorLog) (eid : string)
    : list CursorLog :=
  filter (fun d => (eventId d =? eid)%string && isActive (sessionMetrics d)
                   && (now - 5 * 60 * 1000 <=? lastActivity (sessionMetrics d)))
         rows.

Inductive Source := memory | database.

Record ListedSession := mkListedSession {
  ls_sessionId : string;
  ls_userInfo : option UserInfo;
  ls_connectedAt : Z;
  ls_lastActivity : Z;
  ls_source : Source
}.

Definition of_memory (session : ActiveSession) : ListedSession :=
  mkListedSession (as_sessionId session) (as_userInfo session)
    (as_connectedAt session) (as_lastActivity session) memory.

Section ActiveSessionsRoute.
(** The full name and the email of the user document an id refers to, as
    [populate('userId', ...)] finds it. *)
Variable users : string -> option (string * string).

Definition of_database (session : CursorLog) : ListedSession :=
  mkListedSession (sessionId session)
    match userId session with
    | Some uid =>
      match users uid with
      | Some (fullName, email) => Some (mkUserInfo fullName email None)
      | None => None
      end
    | None => None
    end
    (startTime (sessionMetrics session)) (lastActivity (sessionMetrics session))
    database.

(** The route handler [getActiveSessions]: the sessions in memory, then the
    sessions of the collection whose id is not listed yet. *)
Definition getActiveSessions (now : Z) (st : State) (eid : string) : list ListedSession :=
  let memorySessions := getActiveSessionsForEvent st eid in
  let dbSessions := CursorLog_getActiveSessions now (db st) eid in
  let sessionMap :=
    fold_left (fun m session => assign (as_sessionId session) (of_memory session) m)
      memorySessions [] in
  let sessionMap :=
    fold_left (fun m session =>
                 match lookup (sessionId session) m with
                 | Some _ => m
                 | None => assign (sessionId session) (of_database session) m
                 end)
      dbSessions sessionMap in
  map snd sessionMap.
End ActiveSessionsRoute.


(** A [join-event] of the socket [sid] for the event [eid]. *)
Definition joins (sid eid : string) (i : Input) : bool :=
  match i with
  | OnJoinEvent _ s data =>
    (s =? sid)%string && strict_eq (truthy_value (jd_eventId data)) (Some eid)
  | _ => false
  end.

(** The socket [sid] is not in the room of the event [eid], as far as its
    [sessionData] goes. *)
Definition elsewhere (sid eid : string) (st : State) : Prop :=
  forall c, lookup sid (conns st) = Some c ->
            truthy_value (currentEvent (sessionData c)) <> Some eid.


(** *** Observations on the broadcasts *)

(** The socket [r] is connected and its [sessionData] names the event [e]. *)
Definition in_event (st : State) (r e : string) : Prop :=
  exists c, lookup r (conns st) = Some c
            /\ truthy_value (currentEvent (sessionData c)) = Some e.

(** An emission to a room reaches only sockets that are in the event of the
    room, and [socket.to] does not reach the sender. *)
Definition delivered_in_room (st : State) (em : Emission) : Prop :=
  match em_target em with
  | SocketTo sender room =>
    forall r, In r (em_recipients em) -> r <> sender /\ in_event st r room
  | IoTo room => forall r, In r (em_recipients em) -> in_event st r room
  | SocketSelf sid => em_recipients em = [sid]
  end.

(** *** Observations on the schedules *)

(** The server before any event, with no request waiting. *)
Definition quiet : Interleaved := mkInterleaved initial [].

(** Whether a waiting request found no active row. *)
Definition found_none (a : Awaited) : bool :=
  match a with
  | AwaitingJoin pending =>
    match pj_found pending with SessionAbsent => true | SessionFound _ _ => false end
  | AwaitingPost _ _ _ (PostLooked _ _ SessionAbsent) => true
  | AwaitingPost _ _ _ _ => false
  end.

(** What a schedule without overlap keeps: a pair has one active row at
    most, the requests that wait looked up different pairs, and the pair of
    a request that found no active row still has none. *)
Definition phase_Inv (s : Interleaved) : Prop :=
  single_active (db (server s))
  /\ (forall a b q, In a (awaiting s) -> In b (awaiting s) ->
                    awaited_pair (snd a) = Some q -> awaited_pair (snd b) = Some q ->
                    fst a = fst b)
  /\ (forall a q, In a (awaiting s) -> awaited_pair (snd a) = Some q ->
                  found_none (snd a) = true ->
                  Collection.countDocuments (by_active_pair (fst q) (snd q))
                    (db (server s)) = 0%nat).

End Dashboard.

(** * Properties *)

(** ** Trimming *)

Module TrimFacts.

Lemma trimEnd_idempotent s : trimEnd (trimEnd s) = trimEnd s.
Proof.
  induction s as [|c rest IH]; simpl; auto.
  destruct (trimEnd rest) as [|a kept] eqn:E.
  - destruct (isWhiteSpace c) eqn:Hc; simpl; auto. now rewrite Hc.
  - change (trimEnd (String c (String a kept))) with
      (match trimEnd (String a kept) with
       | EmptyString => if isWhiteSpace c then EmptyString else String c EmptyString
       | kept0 => String c kept0
       end).
    now rewrite IH.
Qed.

Lemma trimStart_head s :
  trimStart s = EmptyString
  \/ exists c rest, trimStart s = String c rest /\ isWhiteSpace c = false.
Proof.
  induction s as [|c rest IH]; simpl; auto.
  destruct (isWhiteSpace c) eqn:Hc; auto. right. eauto.
Qed.

Lemma trimStart_trim s : trimStart (trim s) = trim s.
Proof.
  unfold trim. destruct (trimStart_head s) as [->|(c & rest & -> & Hc)]; auto.
  change (trimEnd (String c rest)) with
    (match trimEnd rest with
     | EmptyString => if isWhiteSpace c then EmptyString else String c EmptyString
     | kept => String c kept
     end).
  destruct (trimEnd rest); rewrite ?Hc; simpl; now rewrite Hc.
Qed.

Lemma trim_idempotent s : trim (trim s) = trim s.
Proof.
  unfold trim at 1. rewrite trimStart_trim. unfold trim. apply trimEnd_idempotent.
Qed.

End TrimFacts.

(** ** Maps *)

Module RuntimeFacts.
Import Runtime.

Lemma assigned_entry {A} k (v : A) m x :
  In x (assign k v m) -> x = (k, v) \/ In x m.
Proof.
  induction m as [|[k' v'] m IH]; simpl.
  - intros [<-|[]]. auto.
  - destruct (String.eqb_spec k' k) as [->|Hne]; simpl.
    + intros [<-|H]; auto.
    + intros [<-|H]; auto. destruct (IH H); auto.
Qed.

Lemma looked_up_entry {A} k (v : A) m : lookup k m = Some v -> In (k, v) m.
Proof.
  induction m as [|[k' v'] m IH]; simpl; [discriminate|].
  destruct (String.eqb_spec k' k) as [->|Hne]; [intros H; inversion H; auto|auto].
Qed.

Lemma removed_entry {A} k (m : list (string * A)) x :
  In x (remove_key k m) -> In x m /\ fst x <> k.
Proof.
  unfold remove_key. rewrite filter_In, negb_true_iff, String.eqb_neq. tauto.
Qed.

End RuntimeFacts.


Module CollectionFacts.
Import Collection.

Section Facts.
Context {A : Type}.
Implicit Types (p q : A -> bool) (db : list A).

Lemma findOne_from_split p db : forall i j d,
  findOne_from i p db = Some (j, d) ->
  exists before after,
    db = before ++ d :: after /\ j = (i + length before)%nat /\
    p d = true /\ forallb (fun x => negb (p x)) before = true.
Proof.
  induction db as [|x rest IH]; intros i j d H; simpl in H; [discriminate|].
  destruct (p x) eqn:Hx.
  - inversion H; subst. exists [], rest. simpl. repeat split; auto with arith.
  - destruct (IH _ _ _ H) as (b & a & -> & -> & Hd & Hb).
    exists (x :: b), a. simpl. rewrite Hx. repeat split; auto; lia.
Qed.

Lemma findOne_split p db j d :
  findOne p db = Some (j, d) ->
  exists before after,
    db = before ++ d :: after /\ j = length before /\
    p d = true /\ forallb (fun x => negb (p x)) before = true.
Proof. intros H. apply findOne_from_split in H. exact H. Qed.

Lemma findOne_from_None p db : forall i,
  findOne_from i p db = None -> filter p db = [].
Proof.
  induction db as [|x rest IH]; intros i H; simpl in *; auto.
  destruct (p x); [discriminate|eauto].
Qed.

Lemma findOne_None p db : findOne p db = None -> filter p db = [].
Proof. apply findOne_from_None. Qed.

Lemma findOne_from_filter_nil p db : forall i,
  filter p db = [] -> findOne_from i p db = None.
Proof.
  induction db as [|x rest IH]; intros i H; simpl in *; auto.
  destruct (p x); [discriminate|eauto].
Qed.

Lemma save_split (before : list A) (d d' : A) (after : list A) :
  save (length before) d' (before ++ d :: after) = before ++ d' :: after.
Proof. induction before as [|x b IH]; simpl; [reflexivity|now rewrite IH]. Qed.

Lemma save_length i (d : A) db : length (save i d db) = length db.
Proof.
  revert i; induction db as [|x rest IH]; intros [|i]; simpl; auto.
Qed.

Lemma filter_none p l :
  forallb (fun x => negb (p x)) l = true -> filter p l = [].
Proof.
  induction l as [|x l IH]; simpl; auto.
  destruct (p x); simpl; [discriminate|auto].
Qed.
End Facts.

Section Positions.
Context {A : Type}.

Lemma nth_error_save_other (d : A) : forall db i j,
  j <> i -> nth_error (save i d db) j = nth_error db j.
Proof.
  induction db as [|x rest IH]; intros [|i] [|j] H; simpl; auto; try congruence.
Qed.

Lemma nth_error_split (before : list A) d after :
  nth_error (before ++ d :: after) (length before) = Some d.
Proof. induction before; simpl; auto. Qed.

Lemma countDocuments_app (p : A -> bool) l l' :
  countDocuments p (l ++ l') = (countDocuments p l + countDocuments p l')%nat.
Proof. unfold countDocuments. now rewrite filter_app, length_app. Qed.

Lemma countDocuments_cons (p : A -> bool) a l :
  countDocuments p (a :: l) = ((if p a then 1 else 0) + countDocuments p l)%nat.
Proof. unfold countDocuments. simpl. now destruct (p a). Qed.

Lemma countDocuments_none (p : A -> bool) l :
  forallb (fun x => negb (p x)) l = true -> countDocuments p l = 0%nat.
Proof. intros H. unfold countDocuments. now rewrite filter_none. Qed.
Lemma findOne_none_of_count (p : A -> bool) l :
  countDocuments p l = 0%nat -> findOne p l = None.
Proof.
  intros H. apply findOne_from_filter_nil. unfold countDocuments in H.
  now apply length_zero_iff_nil.
Qed.

Lemma findOne_some_of_count (p : A -> bool) l :
  countDocuments p l <> 0%nat -> exists i d, findOne p l = Some (i, d).
Proof.
  intros H. destruct (findOne p l) as [[i d]|] eqn:Hf; eauto.
  apply findOne_None in Hf. unfold countDocuments in H. rewrite Hf in H.
  now contradiction H.
Qed.
End Positions.


Section Counting.
Context {A : Type}.

(** Saving a document in the place [findOne] read it from changes a count by
    what the document itself contributes. *)
Lemma countDocuments_save (p q : A -> bool) rows i d d' :
  findOne p rows = Some (i, d) ->
  (countDocuments q (save i d' rows) + (if q d then 1 else 0)
   = countDocuments q rows + (if q d' then 1 else 0))%nat.
Proof.
  intros Hf. destruct (findOne_split _ _ _ _ Hf) as (before & after & -> & -> & _ & _).
  rewrite save_split, !countDocuments_app, !countDocuments_cons. lia.
Qed.

Lemma countDocuments_create (q : A -> bool) rows d :
  countDocuments q (create d rows)
  = (countDocuments q rows + (if q d then 1 else 0))%nat.
Proof.
  unfold create. rewrite countDocuments_app, countDocuments_cons.
  change (countDocuments q []) with 0%nat. lia.
Qed.

Lemma countDocuments_weaken (p q : A -> bool) rows :
  (forall d, p d = true -> q d = true) ->
  (countDocuments p rows <= countDocuments q rows)%nat.
Proof.
  intros H. induction rows as [|a rows IH]; [auto|].
  rewrite !countDocuments_cons.
  destruct (p a) eqn:Hp; [rewrite (H a Hp)|destruct (q a)]; lia.
Qed.
End Counting.


Section Invariants.
Context {A : Type}.
Variable P : A -> Prop.

Lemma Forall_save i d rows : Forall P rows -> P d -> Forall P (save i d rows).
Proof.
  intros H Hd. revert i. induction H as [|x rows Hx H IH]; intros [|i]; simpl;
    constructor; auto.
Qed.

Lemma Forall_create d rows : Forall P rows -> P d -> Forall P (create d rows).
Proof. intros H Hd. apply Forall_app. split; auto. Qed.

Lemma Forall_findOne (p : A -> bool) rows i d :
  Forall P rows -> findOne p rows = Some (i, d) -> P d.
Proof.
  intros H Hf. destruct (findOne_split _ _ _ _ Hf) as (b & a & -> & _).
  apply Forall_app in H as [_ H]. now inversion H.
Qed.
End Invariants.

End CollectionFacts.

(** ** The flat model *)

Module BackendFacts.
Import Collection CollectionFacts Runtime Backend.

(** *** The cursor buffer *)

Lemma slice_last_length {A} n (l : list A) :
  length (slice_last n l) = Nat.min n (length l).
Proof. unfold slice_last. rewrite length_skipn. lia. Qed.

Lemma slice_last_all {A} n (l : list A) :
  (length l <= n)%nat -> slice_last n l = l.
Proof.
  intros H. unfold slice_last.
  replace (length l - n)%nat with 0%nat by lia. reflexivity.
Qed.

(** The flat model keeps the last 1000 samples of what was pushed. *)
Lemma addCursorMovement_keeps_last now x y action element d :
  cursorData (addCursorMovement now x y action element d)
  = slice_last 1000 (cursorData d ++ [mkCursorSample x y now element action]).
Proof.
  unfold addCursorMovement.
  destruct (Nat.ltb_spec 1000 (length (cursorData d ++ [mkCursorSample x y now element action]))).
  - reflexivity.
  - simpl. now rewrite slice_last_all by lia.
Qed.

Lemma addCursorMovement_capped now x y action element d :
  (length (cursorData (addCursorMovement now x y action element d)) <= 1000)%nat.
Proof. rewrite addCursorMovement_keeps_last, slice_last_length. lia. Qed.

(** *** Resuming a session *)

(** C9. When [start-session] finds a row for the pair, active or closed, the
    answer is the resumed session and the row keeps its place; in it
    [sessionStart] is the time of the call, [sessionEnd] and [totalDuration]
    are null and [isActive] is true, while [cursorData], [interactions] and
    [pageViews] (and the identity of the row) are those of the row found;
    every other row is untouched. *)
Theorem resume_resets_timing isMongoId isIP events now b db i existing event :
  valid_start_session isMongoId isIP b = true ->
  Event_findById events (ss_eventId b) = Some event ->
  ev_isPublic event = true ->
  findOne (by_pair (ss_eventId b) (ss_sessionId b)) db = Some (i, existing) ->
  exists resumed,
    start_session isMongoId isIP events now b db
    = (OkSession "Session resumed successfully" (sessionId existing),
       save i resumed db)
    /\ nth_error db i = Some existing
    /\ nth_error (save i resumed db) i = Some resumed
    /\ (forall j, j <> i -> nth_error (save i resumed db) j = nth_error db j)
    /\ length (save i resumed db) = length db
    /\ sessionStart resumed = now
    /\ sessionEnd resumed = None
    /\ totalDuration resumed = None
    /\ isActive resumed = true
    /\ cursorData resumed = cursorData existing
    /\ interactions resumed = interactions existing
    /\ pageViews resumed = pageViews existing
    /\ (eventId resumed, sessionId resumed, userId resumed)
       = (eventId existing, sessionId existing, userId existing).
Proof.
  intros Hv He Hp Hf. unfold start_session. rewrite Hv, He, Hp, Hf. simpl.
  eexists. split; [reflexivity|].
  destruct (findOne_split _ _ _ _ Hf) as (before & after & -> & -> & _ & _).
  rewrite save_split. rewrite !nth_error_split.
  repeat split; auto.
  - intros j Hj. rewrite <- (save_split before existing).
    now apply nth_error_save_other.
  - rewrite !length_app. reflexivity.
Qed.

(** A session is started, used and ended, then started again. *)
Lemma resume_resets_timing_witness :
  let db1 := snd (start_session hex24 no_ip sample_events 1000 sample_start []) in
  let db2 := snd (movement hex24 2000
                    (mkMovementBody tech_conference "session_001" 10 20 None None) db1) in
  let db3 := snd (end_session hex24 61000 sample_end db2) in
  map (fun d => (sessionStart d, sessionEnd d, totalDuration d, isActive d,
                 length (cursorData d)))
      db3 = [(1000, Some 61000, Some 60, false, 1%nat)]
  /\ map (fun d => (sessionStart d, sessionEnd d, totalDuration d, isActive d,
                    length (cursorData d)))
         (snd (start_session hex24 no_ip sample_events 90000 sample_start db3))
     = [(90000, None, None, true, 1%nat)].
Proof.
  intros db1 db2 db3. split; [reflexivity|].
  destruct (resume_resets_timing hex24 no_ip sample_events 90000 sample_start db3 0
              (endSession 61000
                 (addCursorMovement 2000 10 20 move None (new_CursorLog 1000 sample_start)))
              (mkEvent tech_conference true)
              eq_refl eq_refl eq_refl eq_refl)
    as (resumed & Hstart & _ & Hnth & _ & _ & H1 & H2 & H3 & H4 & H5 & _).
  rewrite Hstart. simpl in Hnth |- *. inversion Hnth as [Hr].
  rewrite H1, H2, H3, H4, H5. reflexivity.
Defined.

(** *** Ending a session *)

Lemma endSession_inactive now d : isActive (endSession now d) = false.
Proof. reflexivity. Qed.

Lemma endSession_pair now d eid sid :
  by_pair eid sid (endSession now d) = by_pair eid sid d.
Proof. reflexivity. Qed.

(** The second of two [end-session] calls answers 404, and so does a call for
    a pair that never had a session. *)
Lemma end_session_twice_not_found :
  let db1 := snd (start_session hex24 no_ip sample_events 1000 sample_start []) in
  let first := end_session hex24 61000 sample_end db1 in
  let second := end_session hex24 62000 sample_end (snd first) in
  fst first = OkEnded "Session ended successfully" (Some 60)
  /\ fst second = NotFound "Active session not found"
  /\ reports_success (fst second) = false
  /\ reports_success (fst (end_session hex24 61000 sample_end [])) = false.
Proof. repeat split. Qed.

(** C2, as the code has it.  For a well-formed body, [end-session] on a pair
    without an active row (closed already, or never started) answers 404
    "Active session not found" and leaves the collection as it is; hence,
    after a call that ended the one active row of a pair, a second call
    answers 404, and the row still carries the end time and the duration the
    first call stored and returned. *)
Theorem end_session_closed_not_found isMongoId b :
  valid_end_session isMongoId b = true ->
  (forall now db,
     countDocuments (by_active_pair (es_eventId b) (es_sessionId b)) db = 0%nat ->
     end_session isMongoId now b db = (NotFound "Active session not found", db))
  /\ (forall now1 now2 db msg dur db1,
        (countDocuments (by_active_pair (es_eventId b) (es_sessionId b)) db <= 1)%nat ->
        end_session isMongoId now1 b db = (OkEnded msg dur, db1) ->
        end_session isMongoId now2 b db1 = (NotFound "Active session not found", db1)
        /\ exists i row,
             nth_error db1 i = Some row
             /\ by_pair (es_eventId b) (es_sessionId b) row = true
             /\ isActive row = false
             /\ sessionEnd row = Some now1
             /\ totalDuration row = dur).
Proof.
  intros Hv. split.
  - intros now db H0. unfold end_session. rewrite Hv. simpl.
    now rewrite findOne_none_of_count.
  - intros now1 now2 db msg dur db1 Hone H1.
    unfold end_session in H1. rewrite Hv in H1. simpl in H1.
    destruct (findOne _ db) as [[i c]|] eqn:Hf; [|discriminate].
    inversion H1; subst; clear H1.
    destruct (findOne_split _ _ _ _ Hf) as (before & after & -> & -> & Hc & Hb).
    rewrite save_split.
    rewrite countDocuments_app, countDocuments_cons, Hc in Hone.
    assert (Hnone : countDocuments (by_active_pair (es_eventId b) (es_sessionId b))
                      (before ++ endSession now1 c :: after) = 0%nat).
    { rewrite countDocuments_app, countDocuments_cons, (countDocuments_none _ before Hb).
      unfold by_active_pair at 1. rewrite endSession_inactive, andb_false_r. lia. }
    split.
    + unfold end_session. rewrite Hv. simpl. now rewrite findOne_none_of_count.
    + exists (length before), (endSession now1 c).
      rewrite nth_error_split. repeat split.
      unfold by_active_pair in Hc. apply andb_prop in Hc as [Hc _].
      now rewrite endSession_pair.
Qed.

Lemma end_session_closed_not_found_witness :
  let db1 := snd (start_session hex24 no_ip sample_events 1000 sample_start []) in
  let db2 := snd (end_session hex24 61000 sample_end db1) in
  valid_end_session hex24 sample_end = true
  /\ end_session hex24 62000 sample_end db2
     = (NotFound "Active session not found", db2)
  /\ map totalDuration db2 = [Some 60].
Proof.
  intros db1 db2.
  destruct (end_session_closed_not_found hex24 sample_end eq_refl) as [_ H].
  destruct (H 61000 62000 db1 "Session ended successfully" (Some 60) db2) as [H2 _].
  - vm_compute. lia.
  - reflexivity.
  - split; [reflexivity|]. split; [exact H2 | reflexivity].
Defined.

(** *** One row per pair *)

Lemma save_keeps_pairs p rows i d d' :
  findOne p rows = Some (i, d) ->
  (forall eid sid, by_pair eid sid d' = by_pair eid sid d) ->
  forall eid sid,
    countDocuments (by_pair eid sid) (save i d' rows)
    = countDocuments (by_pair eid sid) rows.
Proof.
  intros Hf Hk eid sid.
  pose proof (countDocuments_save p (by_pair eid sid) rows i d d' Hf) as H.
  rewrite Hk in H. lia.
Qed.

Lemma by_pair_own d : by_pair (eventId d) (sessionId d) d = true.
Proof. unfold by_pair. now rewrite !String.eqb_refl. Qed.

Lemma by_pair_eq eid sid d :
  by_pair eid sid d = true -> eventId d = eid /\ sessionId d = sid.
Proof.
  unfold by_pair. rewrite andb_true_iff, !String.eqb_eq. tauto.
Qed.

Lemma handle_unique isMongoId isIP events r rows :
  unique_pairs rows -> unique_pairs (snd (handle isMongoId isIP events r rows)).
Proof.
  intros Hu. destruct r as [now b|now b|now b|now b|now b]; simpl.
  - unfold start_session.
    destruct (valid_start_session _ _ b); simpl; auto.
    destruct (Event_findById events (ss_eventId b)) as [event|]; simpl; auto.
    destruct (ev_isPublic event); simpl; auto.
    destruct (findOne _ rows) as [[i existing]|] eqn:Hf; simpl.
    + intros eid sid. erewrite save_keeps_pairs; eauto.
    + intros eid sid. rewrite countDocuments_create.
      destruct (by_pair eid sid (new_CursorLog now b)) eqn:Hn; [|specialize (Hu eid sid); lia].
      apply by_pair_eq in Hn as [<- <-]. simpl.
      rewrite (countDocuments_none (by_pair (ss_eventId b) (ss_sessionId b)) rows); [lia|].
      apply findOne_None in Hf.
      clear -Hf. induction rows as [|a rows IH]; simpl in *; auto.
      destruct (by_pair _ _ a); [discriminate|simpl; auto].
  - unfold movement. destruct (valid_movement _ b); simpl; auto.
    destruct (findOne _ rows) as [[i cursorLog]|] eqn:Hf; simpl; auto.
    intros eid sid. erewrite save_keeps_pairs; eauto.
    intros. unfold addCursorMovement. now destruct (_ <? _)%nat.
  - unfold interaction. destruct (valid_interaction _ b); simpl; auto.
    destruct (findOne _ rows) as [[i cursorLog]|] eqn:Hf; simpl; auto.
    intros eid sid. erewrite save_keeps_pairs; eauto.
  - unfold page_view. destruct (valid_page_view _ b); simpl; auto.
    destruct (findOne _ rows) as [[i cursorLog]|] eqn:Hf; simpl; auto.
    intros eid sid. erewrite save_keeps_pairs; eauto.
  - unfold end_session. destruct (valid_end_session _ b); simpl; auto.
    destruct (findOne _ rows) as [[i cursorLog]|] eqn:Hf; simpl; auto.
    intros eid sid. erewrite save_keeps_pairs; eauto.
Qed.

Lemma update_active_unique eid sid method rows :
  (forall e s d, by_pair e s (method d) = by_pair e s d) ->
  unique_pairs rows -> unique_pairs (update_active eid sid method rows).
Proof.
  intros Hm Hu. unfold update_active.
  destruct (findOne _ rows) as [[i d]|] eqn:Hf; auto.
  intros e s. erewrite save_keeps_pairs; eauto.
Qed.

Lemma addCursorMovement_pair now x y action element e s d :
  by_pair e s (addCursorMovement now x y action element d) = by_pair e s d.
Proof. unfold addCursorMovement. now destruct (_ <? _)%nat. Qed.

Lemma disconnect_handler_db now sid st :
  db (fst (disconnect_handler now sid st)) = db st
  \/ exists eid s, db (fst (disconnect_handler now sid st))
                   = update_active eid s (endSession now) (db st).
Proof.
  unfold disconnect_handler.
  destruct (lookup sid (activeConnections st)) as [connection|]; simpl; eauto.
Qed.

Lemma disconnect_db now sid st :
  db (fst (disconnect now sid st)) = db st
  \/ exists eid s, db (fst (disconnect now sid st))
                   = update_active eid s (endSession now) (db st).
Proof.
  unfold disconnect. destruct (connected sid st); simpl; auto.
  apply (disconnect_handler_db now sid
           (mkServer (set_delete sid (sockets st)) (activeConnections st)
              (eventRooms st) (leave_all sid (adapter st)) (db st))).
Qed.

Lemma sweep_connection_db now entry st :
  db (fst (sweep_connection now entry st)) = db st
  \/ exists eid s, db (fst (sweep_connection now entry st))
                   = update_active eid s (endSession now) (db st).
Proof.
  unfold sweep_connection. destruct (_ <? _); simpl; auto.
  apply disconnect_db.
Qed.

Section Runs.
Variables (isMongoId isIP : string -> bool) (events : list Event).

(** A property of collections that every write of the server keeps. *)
Variable Inv : list CursorLog -> Prop.
Hypothesis Inv_step : forall rows rows',
  db_step isMongoId isIP events rows rows' -> Inv rows -> Inv rows'.

Lemma sweep_Inv now entries : forall st,
  Inv (db st) -> Inv (db (fst (sweep now entries st))).
Proof.
  induction entries as [|entry rest IH]; intros st H; simpl; auto.
  apply IH.
  destruct (sweep_connection_db now entry st) as [->|(eid & s & ->)]; auto.
  eapply Inv_step; [apply db_end|exact H].
Qed.

Lemma step_Inv i st : Inv (db st) -> Inv (db (fst (step isMongoId isIP events i st))).
Proof.
  intros H. destruct i; simpl; auto.
  - eapply Inv_step; [apply db_request|exact H].
  - unfold join_event. destruct (connected sid st); simpl; auto.
    destruct (truthy_value (jd_eventId data)), (truthy_value (jd_userId data)),
      (truthy_value (jd_sessionId data)); simpl; auto.
    destruct (Event_findById events s); simpl; auto.
  - unfold cursor_move. destruct (connected sid st); simpl; auto.
    destruct (truthy_value (md_eventId data)), (truthy_value (md_userId data)),
      (truthy_value (md_sessionId data)), (md_x data), (md_y data); simpl; auto.
    destruct (connection_for sid s st); simpl; auto.
    destruct (_ <? _); simpl; auto.
    eapply Inv_step; [apply db_movement|exact H].
  - unfold user_interaction_handler. destruct (connected sid st); simpl; auto.
    destruct (truthy_value (id_eventId data)), (truthy_value (id_userId data)),
      (truthy_value (id_sessionId data)), (id_type data),
      (truthy_value (id_target data)); simpl; auto.
    destruct (connection_for sid s st); simpl; auto.
    eapply Inv_step; [apply db_interaction|exact H].
  - unfold page_view_handler. destruct (connected sid st); simpl; auto.
    destruct (truthy_value (pvd_eventId data)), (truthy_value (pvd_userId data)),
      (truthy_value (pvd_sessionId data)), (truthy_value (pvd_page data)); simpl; auto.
    destruct (connection_for sid s st); simpl; auto.
    eapply Inv_step; [apply db_page_view|exact H].
  - destruct (disconnect_db now sid st) as [->|(eid & s & ->)]; auto.
    eapply Inv_step; [apply db_end|exact H].
  - now apply sweep_Inv.
Qed.

Lemma run_Inv inputs : forall st,
  Inv (db st) -> Inv (db (fst (run isMongoId isIP events inputs st))).
Proof.
  induction inputs as [|i rest IH]; intros st H; simpl; auto.
  apply IH. now apply step_Inv.
Qed.
End Runs.

Lemma db_step_unique isMongoId isIP events rows rows' :
  db_step isMongoId isIP events rows rows' -> unique_pairs rows -> unique_pairs rows'.
Proof.
  intros Hs Hu. destruct Hs; auto.
  - now apply handle_unique.
  - apply update_active_unique; auto. intros. apply addCursorMovement_pair.
  - apply update_active_unique; auto.
  - apply update_active_unique; auto.
  - apply update_active_unique; auto.
Qed.

Lemma run_unique isMongoId isIP events inputs :
  unique_pairs (db (fst (run isMongoId isIP events inputs initial))).
Proof.
  apply (run_Inv isMongoId isIP events unique_pairs).
  - apply db_step_unique.
  - intros eid sid. unfold countDocuments. simpl. lia.
Qed.

Lemma unique_pairs_empty : unique_pairs [].
Proof. intros eid sid. unfold countDocuments. simpl. lia. Qed.

Lemma active_le_rows eid sid rows :
  (countDocuments (by_active_pair eid sid) rows
   <= countDocuments (by_pair eid sid) rows)%nat.
Proof.
  apply countDocuments_weaken. intros d H. unfold by_active_pair in H.
  now apply andb_prop in H.
Qed.

(** [start-session] for a pair with an active row resumes it: no row is
    added, and the pair has its one active row afterwards. *)
Lemma start_session_resumes isMongoId isIP events now b rows event :
  unique_pairs rows ->
  valid_start_session isMongoId isIP b = true ->
  Event_findById events (ss_eventId b) = Some event ->
  ev_isPublic event = true ->
  countDocuments (by_active_pair (ss_eventId b) (ss_sessionId b)) rows <> 0%nat ->
  let r := start_session isMongoId isIP events now b rows in
  fst r = OkSession "Session resumed successfully" (ss_sessionId b)
  /\ length (snd r) = length rows
  /\ countDocuments (by_active_pair (ss_eventId b) (ss_sessionId b)) (snd r) = 1%nat.
Proof.
  intros Hu Hv He Hp Hact r.
  pose proof (active_le_rows (ss_eventId b) (ss_sessionId b) rows) as Hle.
  destruct (findOne_some_of_count (by_pair (ss_eventId b) (ss_sessionId b)) rows)
    as (i & existing & Hf); [lia|].
  unfold r, start_session. rewrite Hv, He, Hp, Hf. simpl.
  destruct (findOne_split _ _ _ _ Hf) as (before & after & Hrows & Hi & Hd & Hb).
  apply by_pair_eq in Hd as Hd'. destruct Hd' as [Hd1 Hd2].
  split; [now rewrite Hd2|]. split; [apply save_length|].
  match goal with |- countDocuments ?q (save i ?d' rows) = _ =>
    pose proof (countDocuments_save _ q rows i existing d' Hf) as Hs;
    assert (Hq' : q d' = true) by (unfold by_active_pair, by_pair; simpl;
                                   unfold by_pair in Hd; now rewrite Hd)
  end.
  rewrite Hq' in Hs.
  assert (Hrest : countDocuments (by_active_pair (ss_eventId b) (ss_sessionId b)) rows
                  = if by_active_pair (ss_eventId b) (ss_sessionId b) existing
                    then 1%nat else 0%nat).
  { pose proof (Hu (ss_eventId b) (ss_sessionId b)) as Hone.
    subst rows. rewrite !countDocuments_app, !countDocuments_cons in *.
    rewrite Hd in Hone.
    pose proof (active_le_rows (ss_eventId b) (ss_sessionId b) before).
    pose proof (active_le_rows (ss_eventId b) (ss_sessionId b) after).
    destruct (by_active_pair _ _ existing); lia. }
  destruct (by_active_pair (ss_eventId b) (ss_sessionId b) existing); lia.
Qed.

Lemma update_active_Forall (P : CursorLog -> Prop) eid sid method rows :
  (forall d, P d -> P (method d)) -> Forall P rows ->
  Forall P (update_active eid sid method rows).
Proof.
  intros Hm H. unfold update_active.
  destruct (findOne _ rows) as [[i d]|] eqn:Hf; auto.
  apply Forall_save; auto. apply Hm, (Forall_findOne _ _ _ _ _ H Hf).
Qed.

(** In every collection the flat server can build, every row holds at most
    1000 cursor samples. *)
Lemma run_buffers_capped isMongoId isIP events inputs :
  Forall (fun d => (length (cursorData d) <= 1000)%nat)
    (db (fst (run isMongoId isIP events inputs initial))).
Proof.
  apply (run_Inv isMongoId isIP events
           (Forall (fun d => (length (cursorData d) <= 1000)%nat)));
    [|constructor].
  intros rows rows' Hs Hrows. destruct Hs; auto;
    try (apply update_active_Forall; auto; intros; apply addCursorMovement_capped).
  destruct r as [now b|now b|now b|now b|now b]; simpl.
  - unfold start_session.
    destruct (valid_start_session _ _ b); simpl; auto.
    destruct (Event_findById events (ss_eventId b)) as [event|]; simpl; auto.
    destruct (ev_isPublic event); simpl; auto.
    destruct (findOne _ rows) as [[i existing]|] eqn:Hf; simpl.
    + apply Forall_save; auto. simpl.
      apply (Forall_findOne _ _ _ _ _ Hrows Hf).
    + apply Forall_create; auto. simpl. lia.
  - unfold movement. destruct (valid_movement _ b); simpl; auto.
    destruct (findOne _ rows) as [[i cursorLog]|] eqn:Hf; simpl; auto.
    apply Forall_save; auto. apply addCursorMovement_capped.
  - unfold interaction. destruct (valid_interaction _ b); simpl; auto.
    destruct (findOne _ rows) as [[i cursorLog]|] eqn:Hf; simpl; auto.
    apply Forall_save; auto. simpl. apply (Forall_findOne _ _ _ _ _ Hrows Hf).
  - unfold page_view. destruct (valid_page_view _ b); simpl; auto.
    destruct (findOne _ rows) as [[i cursorLog]|] eqn:Hf; simpl; auto.
    apply Forall_save; auto. simpl. apply (Forall_findOne _ _ _ _ _ Hrows Hf).
  - unfold end_session. destruct (valid_end_session _ b); simpl; auto.
    destruct (findOne _ rows) as [[i cursorLog]|] eqn:Hf; simpl; auto.
    apply Forall_save; auto. simpl. apply (Forall_findOne _ _ _ _ _ Hrows Hf).
Qed.

(** *** Rooms of the flat server *)

(** The join handler of the flat server takes the socket out of no room and
    announces no departure. *)
Lemma join_event_keeps_rooms events now sid data st m :
  In m (adapter st) -> In m (adapter (fst (join_event events now sid data st))).
Proof.
  intros H. unfold join_event. destruct (connected sid st); simpl; auto.
  destruct (truthy_value (jd_eventId data)) as [eid|],
    (truthy_value (jd_userId data)), (truthy_value (jd_sessionId data)); simpl; auto.
  destruct (Event_findById events eid); simpl; auto.
  unfold socket_join. destruct (existsb _ _); auto. apply in_or_app. now left.
Qed.

Lemma join_event_no_departure events now sid data st :
  Forall (fun e => forall u s t, em_notice e <> user_left u s t)
    (snd (join_event events now sid data st)).
Proof.
  unfold join_event. destruct (connected sid st); simpl; auto.
  destruct (truthy_value (jd_eventId data)) as [eid|],
    (truthy_value (jd_userId data)), (truthy_value (jd_sessionId data)); simpl;
    try (repeat constructor; discriminate).
  destruct (Event_findById events eid); simpl; repeat constructor; discriminate.
Qed.

End BackendFacts.

(** ** The nested model *)

Module DashboardFacts.
Import Collection CollectionFacts Runtime Dashboard.

(** *** Scroll depth *)

Lemma update_first_pages (p : ScrollDepth -> bool) f l :
  (forall e, sd_page (f e) = sd_page e) ->
  map sd_page (update_first p f l) = map sd_page l.
Proof.
  intros Hf. induction l as [|a l IH]; simpl; auto.
  destruct (p a); simpl; [now rewrite Hf | now rewrite IH].
Qed.

Lemma update_first_fix {A} (p : A -> bool) f l e :
  find p l = Some e -> f e = e -> update_first p f l = l.
Proof.
  induction l as [|a l IH]; simpl; [discriminate|].
  destruct (p a); intros H Hf.
  - inversion H; subst. now rewrite Hf.
  - now rewrite IH.
Qed.

Lemma find_update_first {A} (p : A -> bool) f l e :
  (forall a, p (f a) = p a) ->
  find p l = Some e -> find p (update_first p f l) = Some (f e).
Proof.
  intros Hp. induction l as [|a l IH]; simpl; [discriminate|].
  destruct (p a) eqn:Ha; intros H; simpl.
  - inversion H; subst. now rewrite Hp, Ha.
  - rewrite Ha. auto.
Qed.

Lemma find_update_first_other {A} (p q : A -> bool) f l :
  (forall a, p a = true -> q (f a) = q a) ->
  (forall a, p a = true -> q a = false) ->
  find q (update_first p f l) = find q l.
Proof.
  intros Hq Hpq. induction l as [|a l IH]; simpl; auto.
  destruct (p a) eqn:Ha; simpl.
  - rewrite Hq, (Hpq a) by assumption. reflexivity.
  - now rewrite IH.
Qed.

Lemma find_none_not_in page l :
  find (on_page page) l = None -> ~ In page (map sd_page l).
Proof.
  induction l as [|a l IH]; simpl; [tauto|].
  unfold on_page at 1. destruct (String.eqb_spec (sd_page a) page); [discriminate|].
  intros H [E|E]; [congruence|now apply IH].
Qed.

Lemma NoDup_count_one page l :
  NoDup (map sd_page l) -> In page (map sd_page l) ->
  length (filter (on_page page) l) = 1%nat.
Proof.
  induction l as [|a l IH]; simpl; [tauto|].
  intros Hnd Hin. inversion Hnd as [|? ? Hnot Hnd']; subst.
  unfold on_page at 1. destruct (String.eqb_spec (sd_page a) page) as [E|E].
  - simpl. f_equal. rewrite E in Hnot.
    clear -Hnot. induction l as [|b l IH]; simpl; auto.
    simpl in Hnot. unfold on_page at 1.
    destruct (String.eqb_spec (sd_page b) page); [tauto|]. apply IH. tauto.
  - destruct Hin as [Hin|Hin]; [contradiction|]. auto.
Qed.

Lemma find_some_in page l e :
  find (on_page page) l = Some e -> In page (map sd_page l).
Proof.
  intros H. apply find_some in H as [Hin He]. unfold on_page in He.
  apply String.eqb_eq in He. subst. now apply in_map.
Qed.

Lemma set_scrollDepth_same d :
  set_heatmapData (set_scrollDepth (scrollDepth (heatmapData d)) (heatmapData d)) d = d.
Proof. destruct d as [? ? ? ? ? ? ? ? ? [? ? ?] ? ?]; reflexivity. Qed.

Lemma updateScrollDepth_pages now page depth l :
  map sd_page (updateScrollDepth_entries now page depth l)
  = match find (on_page page) l with
    | Some _ => map sd_page l
    | None => map sd_page l ++ [page]
    end.
Proof.
  unfold updateScrollDepth_entries. fold (on_page page).
  destruct (find (on_page page) l).
  - apply update_first_pages. intros e. now destruct (Qgt_bool _ _).
  - now rewrite map_app.
Qed.

Lemma updateScrollDepth_NoDup now page depth l :
  NoDup (map sd_page l) ->
  NoDup (map sd_page (updateScrollDepth_entries now page depth l)).
Proof.
  intros Hnd. rewrite updateScrollDepth_pages.
  destruct (find (on_page page) l) eqn:Hf; auto.
  apply find_none_not_in in Hf.
  apply NoDup_rev in Hnd. rewrite <- (rev_involutive (_ ++ _)).
  apply NoDup_rev. rewrite rev_app_distr. simpl. constructor; auto.
  now rewrite <- in_rev.
Qed.

Lemma updateScrollDepth_has_page now page depth l :
  In page (map sd_page (updateScrollDepth_entries now page depth l)).
Proof.
  rewrite updateScrollDepth_pages.
  destruct (find (on_page page) l) eqn:Hf.
  - eapply find_some_in; eauto.
  - apply in_or_app. right. now left.
Qed.

Lemma find_app_none {A} (p : A -> bool) l a :
  find p l = None -> find p (l ++ [a]) = if p a then Some a else None.
Proof.
  induction l as [|b l IH]; simpl; auto.
  destruct (p b); [discriminate|auto].
Qed.

Lemma find_app_some {A} (p : A -> bool) l l' e :
  find p l = Some e -> find p (l ++ l') = Some e.
Proof.
  induction l as [|b l IH]; simpl; [discriminate|].
  destruct (p b); auto.
Qed.

(** C6. The scroll depth of a page is merged by maximum.  On a session log
    whose scroll-depth entries name each page once, [updateScrollDepth] keeps
    it so and leaves exactly one entry for the page; the depth stored
    afterwards is the larger of the stored depth and the recorded one (the
    recorded one when the page had no entry), so it never goes down; a depth
    that is not above the stored one leaves the whole document unchanged; and
    the depths of the other pages are untouched. *)
Theorem scroll_depth_max_merge now page depth (d : CursorLog) :
  NoDup (map sd_page (scrollDepth (heatmapData d))) ->
  let d' := updateScrollDepth now page depth d in
  NoDup (map sd_page (scrollDepth (heatmapData d')))
  /\ depth_entries page d' = 1%nat
  /\ stored_depth page d'
     = Some match stored_depth page d with
            | Some m => if Qgt_bool depth m then depth else m
            | None => depth
            end
  /\ (forall m, stored_depth page d = Some m ->
        exists m', stored_depth page d' = Some m' /\ (m <= m')%Q /\ (depth <= m')%Q)
  /\ (forall m, stored_depth page d = Some m -> (depth <= m)%Q -> d' = d)
  /\ (forall other, other <> page -> stored_depth other d' = stored_depth other d).
Proof.
  intros Hnd d'.
  assert (Hstored : stored_depth page d'
     = Some match stored_depth page d with
            | Some m => if Qgt_bool depth m then depth else m
            | None => depth
            end).
  { unfold stored_depth, d', updateScrollDepth; simpl.
    unfold updateScrollDepth_entries. fold (on_page page).
    destruct (find (on_page page) (scrollDepth (heatmapData d))) as [e|] eqn:Hf; simpl.
    - erewrite find_update_first; eauto.
      + simpl. now destruct (Qgt_bool depth (sd_maxDepth e)).
      + intros a. unfold on_page. now destruct (Qgt_bool _ _).
    - rewrite find_app_none by assumption. unfold on_page; simpl.
      now rewrite String.eqb_refl. }
  repeat split.
  - apply updateScrollDepth_NoDup, Hnd.
  - apply NoDup_count_one.
    + apply updateScrollDepth_NoDup, Hnd.
    + apply updateScrollDepth_has_page.
  - exact Hstored.
  - intros m Hm. rewrite Hstored, Hm. eexists; split; [reflexivity|].
    unfold Qgt_bool. destruct (Qle_bool depth m) eqn:Hle; simpl.
    + apply Qle_bool_iff in Hle. split; [apply Qle_refl|exact Hle].
    + split; [|apply Qle_refl].
      destruct (Qlt_le_dec m depth) as [Hlt|Hge]; [now apply Qlt_le_weak|].
      apply Qle_bool_iff in Hge. congruence.
  - intros m Hm Hle. unfold d', updateScrollDepth, updateScrollDepth_entries.
    fold (on_page page). unfold stored_depth in Hm.
    destruct (find (on_page page) (scrollDepth (heatmapData d))) as [e|] eqn:Hf;
      [|discriminate].
    simpl in Hm. inversion Hm; subst.
    erewrite update_first_fix; eauto.
    + apply set_scrollDepth_same.
    + unfold Qgt_bool. apply Qle_bool_iff in Hle. now rewrite Hle.
  - intros other Hother. unfold stored_depth, d', updateScrollDepth; simpl.
    unfold updateScrollDepth_entries. fold (on_page page).
    destruct (find (on_page page) (scrollDepth (heatmapData d))) as [e|] eqn:Hf.
    + rewrite find_update_first_other; auto.
      * intros a _. unfold on_page. now destruct (Qgt_bool _ _).
      * intros a Ha. unfold on_page in *. apply String.eqb_eq in Ha.
        apply String.eqb_neq. congruence.
    + destruct (find (on_page other) (scrollDepth (heatmapData d))) as [e|] eqn:Ho.
      * erewrite find_app_some; eauto.
      * rewrite find_app_none by assumption. unfold on_page; simpl.
        apply String.eqb_neq in Hother. rewrite String.eqb_sym in Hother.
        now rewrite Hother.
Qed.

(** Depth 30 and then depth 20 for the same page leave the stored depth at 30,
    in a single entry. *)
Lemma scroll_depth_max_merge_witness :
  let d30 := updateScrollDepth 1 "home" 30 fresh_log in
  NoDup (map sd_page (scrollDepth (heatmapData d30)))
  /\ stored_depth "home" d30 = Some 30%Q
  /\ updateScrollDepth 2 "home" 20 d30 = d30
  /\ depth_entries "home" (updateScrollDepth 2 "home" 20 d30) = 1%nat.
Proof.
  intros d30.
  assert (Hnd : NoDup (map sd_page (scrollDepth (heatmapData d30)))).
  { simpl. constructor; [simpl; tauto | constructor]. }
  pose proof (scroll_depth_max_merge 2 "home" 20 d30 Hnd) as H.
  simpl in H. destruct H as (_ & Hone & _ & _ & Hsame & _).
  split; [exact Hnd|]. split; [reflexivity|]. split.
  - apply (Hsame 30%Q); [reflexivity | discriminate].
  - exact Hone.
Defined.

(** *** The cursor buffer *)

Lemma addCursorMovement_grows now x y page element action d :
  length (cursorData (addCursorMovement now x y page element action d))
  = S (length (cursorData d)).
Proof.
  unfold addCursorMovement.
  destruct (Action_eqb action click), (Action_eqb action scroll); simpl;
    rewrite length_app; simpl; lia.
Qed.

(** The nested model never trims: [n] appends make the buffer [n] longer. *)
Lemma addCursorMovement_unbounded now x y page element action n d :
  length (cursorData (Nat.iter n (addCursorMovement now x y page element action) d))
  = (length (cursorData d) + n)%nat.
Proof.
  induction n as [|n IH]; simpl; [lia|].
  rewrite addCursorMovement_grows, IH. lia.
Qed.

(** C5, at the failing input.  A visitor who joins an event and clicks 1001
    times leaves one session log whose [cursorData] holds 1001 samples: the
    nested model has no cap. *)
Theorem cursor_buffer_exceeds_cap :
  map (fun d => length (cursorData d)) (db (fst (run (clicking_visitor 1001) initial)))
  = [1001%nat].
Proof. vm_compute. reflexivity. Qed.

(** *** Heatmap aggregation *)

Lemma Bucket_eqb_eq a b : Bucket_eqb a b = true <-> a = b.
Proof.
  destruct a as [ax ay ap], b as [bx by' bp]. unfold Bucket_eqb; simpl.
  rewrite !andb_true_iff, !Z.eqb_eq, String.eqb_eq.
  split; [intros [[-> ->] ->]; reflexivity | intros H; inversion H; auto].
Qed.

Lemma Bucket_eqb_refl a : Bucket_eqb a a = true.
Proof. now apply Bucket_eqb_eq. Qed.

Lemma distinct_In k ks : In k (distinct ks) <-> In k ks.
Proof.
  induction ks as [|a ks IH]; simpl; [tauto|].
  rewrite filter_In, IH. split.
  - intros [H|[H _]]; auto.
  - intros [H|H]; auto.
    destruct (Bucket_eqb k a) eqn:E.
    + left. symmetry. now apply Bucket_eqb_eq.
    + right. auto.
Qed.

Lemma distinct_NoDup ks : NoDup (distinct ks).
Proof.
  induction ks as [|a ks IH]; simpl; constructor.
  - rewrite filter_In. intros [_ H]. now rewrite Bucket_eqb_refl in H.
  - now apply NoDup_filter.
Qed.

Lemma insert_desc_perm r rows : Permutation (insert_desc r rows) (r :: rows).
Proof.
  induction rows as [|a rows IH]; simpl; auto.
  destruct (row_count a <=? row_count r)%nat; auto.
  rewrite IH. apply perm_swap.
Qed.

Lemma sort_desc_perm rows : Permutation (sort_desc rows) rows.
Proof.
  induction rows as [|a rows IH]; simpl; auto.
  rewrite insert_desc_perm. now constructor.
Qed.

Lemma insert_desc_sorted r rows :
  StronglySorted by_count_desc rows -> StronglySorted by_count_desc (insert_desc r rows).
Proof.
  induction rows as [|a rows IH]; simpl; intros Hs.
  - constructor; auto.
  - inversion Hs as [|? ? Hs' Hall]; subst.
    destruct (Nat.leb_spec (row_count a) (row_count r)).
    + constructor; auto. constructor.
      * unfold by_count_desc. lia.
      * eapply Forall_impl; [|exact Hall]. unfold by_count_desc. intros; lia.
    + constructor; auto.
      eapply Permutation_Forall; [symmetry; apply insert_desc_perm|].
      constructor; auto. unfold by_count_desc. lia.
Qed.

Lemma sort_desc_sorted rows : StronglySorted by_count_desc (sort_desc rows).
Proof.
  induction rows as [|a rows IH]; simpl; [constructor|].
  now apply insert_desc_sorted.
Qed.

Lemma group_clicks_ids cs : map row_id (group_clicks cs) = distinct (map bucket_of cs).
Proof. unfold group_clicks. rewrite map_map. simpl. apply map_id. Qed.

Lemma group_clicks_row cs r :
  In r (group_clicks cs) ->
  let members := filter (fun c => Bucket_eqb (bucket_of c) (row_id r)) cs in
  members <> []
  /\ row_count r = length members
  /\ row_avgX r = Qavg (map ck_x members)
  /\ row_avgY r = Qavg (map ck_y members).
Proof.
  unfold group_clicks. rewrite in_map_iff. intros (k & <- & Hk). simpl.
  repeat split.
  apply distinct_In, in_map_iff in Hk as (c & <- & Hc).
  intros Hnil.
  assert (Hin : In c (filter (fun c' => Bucket_eqb (bucket_of c') (bucket_of c)) cs)).
  { apply filter_In. split; auto. apply Bucket_eqb_refl. }
  rewrite Hnil in Hin. exact Hin.
Qed.

Lemma group_clicks_covers cs c :
  In c cs -> exists r, In r (group_clicks cs) /\ row_id r = bucket_of c.
Proof.
  intros Hc.
  assert (Hk : In (bucket_of c) (map row_id (group_clicks cs))).
  { rewrite group_clicks_ids. apply distinct_In. now apply in_map. }
  apply in_map_iff in Hk as (r & Hr & Hin). eauto.
Qed.

(** The heatmap property as the specification words it fails twice.  The
    query takes no resolution: with resolution 20 the click at (15, 5)
    belongs to cell (0, 0), but the query groups it in cell (1, 0) of its
    fixed grid of 10, and the route, asked for resolution 20, assigns the
    click to no bucket at all; and without a page filter two clicks of one
    cell on different pages are two buckets of one click each, not one
    bucket of two. *)
Lemma heatmap_resolution_and_page_counterexample :
  map row_id (getHeatmapData [one_click] tech_conference None None None)
  = [mkBucket 1 0 "home"]
  /\ map (specified_cell 20) (clicks (heatmapData one_click)) = [(0, 0)]
  /\ heatmap_route [one_click] tech_conference None None None (Some 20) = []
  /\ map (specified_cell 10) (clicks (heatmapData clicks_on_two_pages)) = [(1, 1); (1, 1)]
  /\ map (fun r => (row_id r, row_count r))
         (getHeatmapData [clicks_on_two_pages] tech_conference None None None)
     = [(mkBucket 1 1 "home", 1%nat); (mkBucket 1 1 "tickets", 1%nat)].
Proof. repeat split. Qed.

(** C4, as the code has it.  The heatmap query groups the clicks of the
    selected session logs in cells of 10, the default resolution: every click
    is counted in the row whose key is
    [(floor (x / 10), floor (y / 10), page of the click)] - the page is part
    of the key whether or not a page filter is given -, no two rows share a
    key, a row carries the number of clicks of its key and the means of their
    raw [x] and [y], and the rows come by count descending.  Two clicks at (12, 18) and (14, 19) on one page give the single
    row of cell (1, 1) with count 2 and centroid (13, 18.5). *)
Theorem heatmap_buckets_of_ten db eid page startDate endDate :
  let cs := unwind_clicks (filter (heatmap_match eid page startDate endDate) db) in
  let rows := getHeatmapData db eid page startDate endDate in
  (forall c, In c cs ->
     exists r, In r rows
       /\ row_id r = mkBucket (Qfloor (ck_x c / 10)) (Qfloor (ck_y c / 10)) (ck_page c))
  /\ NoDup (map row_id rows)
  /\ (forall r, In r rows ->
        let members := filter (fun c => Bucket_eqb (bucket_of c) (row_id r)) cs in
        members <> []
        /\ row_count r = length members
        /\ row_avgX r = Qavg (map ck_x members)
        /\ row_avgY r = Qavg (map ck_y members))
  /\ StronglySorted by_count_desc rows
  /\ exists r,
       getHeatmapData [two_clicks] tech_conference None None None = [r]
       /\ row_id r = mkBucket 1 1 "home"
       /\ row_count r = 2%nat
       /\ (row_avgX r == 13)%Q
       /\ (row_avgY r == 37 # 2)%Q.
Proof.
  intros cs rows.
  assert (Hperm : Permutation rows (group_clicks cs)) by apply sort_desc_perm.
  repeat split.
  - intros c Hc. destruct (group_clicks_covers cs c Hc) as (r & Hr & Hid).
    exists r. split; [|exact Hid].
    eapply Permutation_in; [symmetry; exact Hperm | exact Hr].
  - eapply Permutation_NoDup; [apply Permutation_map; symmetry; exact Hperm|].
    rewrite group_clicks_ids. apply distinct_NoDup.
  - eapply (Permutation_in _ Hperm) in H. now apply group_clicks_row in H.
  - eapply (Permutation_in _ Hperm) in H. now apply group_clicks_row in H.
  - eapply (Permutation_in _ Hperm) in H. now apply group_clicks_row in H.
  - eapply (Permutation_in _ Hperm) in H. now apply group_clicks_row in H.
  - apply sort_desc_sorted.
  - eexists. split; [reflexivity|]. repeat split.
Qed.

Lemma heatmap_match_page eid p startDate endDate d :
  p <> "" ->
  heatmap_match eid (Some p) startDate endDate d
  = heatmap_match eid None startDate endDate d && clicked_on p d.
Proof.
  intros Hp. unfold heatmap_match, clicked_on. simpl.
  apply String.eqb_neq in Hp. rewrite Hp. simpl.
  destruct (eventId d =? eid)%string, (isDeleted d),
    (existsb _ _), startDate, endDate; simpl;
    repeat match goal with |- context [(?a <=? ?b)] => destruct (a <=? b) end;
    reflexivity.
Qed.

Lemma filter_filter {A} (p q : A -> bool) l :
  filter p (filter q l) = filter (fun a => q a && p a) l.
Proof.
  induction l as [|a l IH]; simpl; auto.
  destruct (q a); simpl; [destruct (p a)|]; now rewrite IH.
Qed.

(** C10. With a page filter [p] the heatmap query keeps the session logs of
    the event that have at least one click on [p], and then buckets all the
    clicks of each of them: every click of a kept session log is counted in a
    row under its own page, so a click on another page yields a row whose page
    is not [p]; session logs without a click on [p] contribute nothing (the
    result is that of the collection without them). *)
Theorem heatmap_page_filter_selects_sessions db eid p startDate endDate :
  p <> "" ->
  let rows := getHeatmapData db eid (Some p) startDate endDate in
  rows = sort_desc (group_clicks (unwind_clicks
           (filter (fun d => heatmap_match eid None startDate endDate d && clicked_on p d) db)))
  /\ (forall d c,
        In d db -> heatmap_match eid None startDate endDate d = true ->
        clicked_on p d = true -> In c (clicks (heatmapData d)) ->
        exists r, In r rows /\ row_id r = bucket_of c /\ bk_page (row_id r) = ck_page c)
  /\ (forall d c,
        In d db -> heatmap_match eid None startDate endDate d = true ->
        clicked_on p d = true -> In c (clicks (heatmapData d)) -> ck_page c <> p ->
        exists r, In r rows /\ bk_page (row_id r) <> p)
  /\ rows = getHeatmapData (filter (clicked_on p) db) eid None startDate endDate.
Proof.
  intros Hp rows.
  assert (Hrows : rows = sort_desc (group_clicks (unwind_clicks
           (filter (fun d => heatmap_match eid None startDate endDate d && clicked_on p d) db)))).
  { unfold rows, getHeatmapData. do 3 f_equal. apply filter_ext.
    intros d. now apply heatmap_match_page. }
  assert (Hall : forall d c,
        In d db -> heatmap_match eid None startDate endDate d = true ->
        clicked_on p d = true -> In c (clicks (heatmapData d)) ->
        exists r, In r rows /\ row_id r = bucket_of c /\ bk_page (row_id r) = ck_page c).
  { intros d c Hd Hm Hcl Hc. rewrite Hrows.
    destruct (group_clicks_covers
                (unwind_clicks (filter (fun d => heatmap_match eid None startDate endDate d
                                                 && clicked_on p d) db)) c)
      as (r & Hr & Hid).
    - unfold unwind_clicks. apply in_flat_map. exists d. split; auto.
      apply filter_In. split; auto. now rewrite Hm, Hcl.
    - exists r. split; [|split; [exact Hid | now rewrite Hid]].
      eapply Permutation_in; [symmetry; apply sort_desc_perm | exact Hr]. }
  split; [exact Hrows|]. split; [exact Hall|]. split.
  - intros d c Hd Hm Hcl Hc Hne.
    destruct (Hall d c Hd Hm Hcl Hc) as (r & Hr & _ & Hpage).
    exists r. split; auto. congruence.
  - rewrite Hrows. unfold getHeatmapData. do 3 f_equal.
    rewrite filter_filter. apply filter_ext. intros d. apply andb_comm.
Qed.

(** Asked for the page "home", the query also returns the bucket of the
    click on "tickets" made in the same session, and nothing of the session
    that only clicked on "about". *)
Lemma heatmap_page_filter_selects_sessions_witness :
  "home" <> ""
  /\ map (fun r => (row_id r, row_count r))
         (getHeatmapData [clicks_on_two_pages; click_elsewhere] tech_conference
            (Some "home") None None)
     = [(mkBucket 1 1 "home", 1%nat); (mkBucket 1 1 "tickets", 1%nat)]
  /\ exists r,
       In r (getHeatmapData [clicks_on_two_pages; click_elsewhere] tech_conference
               (Some "home") None None)
       /\ bk_page (row_id r) <> "home".
Proof.
  assert (Hp : "home" <> "") by discriminate.
  split; [exact Hp|]. split; [reflexivity|].
  destruct (heatmap_page_filter_selects_sessions
              [clicks_on_two_pages; click_elsewhere] tech_conference "home" None None Hp)
    as (_ & _ & Hother & _).
  apply (Hother clicks_on_two_pages (mkClick 14 19 "tickets" 1)).
  - left. reflexivity.
  - reflexivity.
  - reflexivity.
  - right. left. reflexivity.
  - discriminate.
Defined.

(** *** Session creation *)

(** The join handler creates the session log of a pair without an active
    row from the payload alone. *)
Lemma join_event_creates now sid data st c eid :
  lookup sid (conns st) = Some c ->
  truthy_value (jd_eventId data) = Some eid ->
  countDocuments (by_active_pair sid eid) (db st) = 0%nat ->
  db (fst (join_event now sid data st))
  = db st ++ [new_CursorLog now sid (sd_userId (sessionData c)) eid
                (jd_userAgent data) (Some (address c)) (jd_location data)
                (mkDevice unknown None None (jd_screenResolution data))]
  /\ Forall (fun e => forall m, em_message e <> error m)
       (snd (join_event now sid data st)).
Proof.
  intros Hc He H0. unfold join_event. rewrite Hc, He.
  rewrite (findOne_none_of_count _ _ H0). simpl. split; [reflexivity|].
  apply Forall_app. split.
  - destruct (truthy_value (currentEvent (sessionData c))); simpl;
      repeat constructor; discriminate.
  - repeat constructor; discriminate.
Qed.

Lemma join_event_requires_id now sid data st c :
  lookup sid (conns st) = Some c ->
  truthy_value (jd_eventId data) = None ->
  join_event now sid data st
  = (st, [emit (rooms st) (SocketSelf sid) (error "Event ID is required")]).
Proof. intros Hc He. unfold join_event. now rewrite Hc, He. Qed.

Lemma createOrUpdateSession_creates now user ip b rows sid eid :
  truthy_value (sb_sessionId b) = Some sid ->
  truthy_value (sb_eventId b) = Some eid ->
  countDocuments (by_active_pair sid eid) rows = 0%nat ->
  exists row,
    createOrUpdateSession now user ip b rows
    = (Success sid eid now, rows ++ [row])
    /\ sessionId row = sid /\ eventId row = eid
    /\ isActive (sessionMetrics row) = true.
Proof.
  intros Hs He H0. unfold createOrUpdateSession. rewrite Hs, He.
  rewrite (findOne_none_of_count _ _ H0). simpl.
  eexists. split; [reflexivity|]. repeat split.
Qed.

(** *** At most one active row per pair *)

Lemma persist_not_more sid eid method rows :
  no_activation method ->
  forall s e,
    (countDocuments (by_active_pair s e) (persist sid eid method rows)
     <= countDocuments (by_active_pair s e) rows)%nat.
Proof.
  intros Hm s e. unfold persist.
  destruct (findOne _ rows) as [[i d]|] eqn:Hf; [|lia].
  pose proof (countDocuments_save _ (by_active_pair s e) rows i d (method d) Hf) as H.
  specialize (Hm s e d).
  destruct (by_active_pair s e (method d)); [rewrite Hm in H by reflexivity|]; 
    destruct (by_active_pair s e d); lia.
Qed.

Lemma persist_single_active sid eid method rows :
  no_activation method -> single_active rows ->
  single_active (persist sid eid method rows).
Proof.
  intros Hm Hs s e.
  pose proof (persist_not_more sid eid method rows Hm s e). specialize (Hs s e). lia.
Qed.

Lemma addCursorMovement_no_activation now x y page element action :
  no_activation (addCursorMovement now x y page element action).
Proof.
  intros s e d. unfold addCursorMovement.
  destruct (Action_eqb action click), (Action_eqb action scroll); auto.
Qed.

Lemma addHoverData_no_activation now x y dur page :
  no_activation (addHoverData now x y dur page).
Proof. intros s e d H. exact H. Qed.

Lemma updateScrollDepth_no_activation now page depth :
  no_activation (updateScrollDepth now page depth).
Proof. intros s e d H. exact H. Qed.

Lemma addPageVisit_no_activation now page timeSpent :
  no_activation (addPageVisit now page timeSpent).
Proof. intros s e d H. exact H. Qed.

Lemma endSession_closed now s e d : by_active_pair s e (endSession now d) = false.
Proof. unfold by_active_pair. simpl. apply andb_false_r. Qed.

Lemma endSession_no_activation now : no_activation (endSession now).
Proof. intros s e d H. now rewrite endSession_closed in H. Qed.

Lemma by_active_pair_eq s e d :
  by_active_pair s e d = true ->
  sessionId d = s /\ eventId d = e /\ isActive (sessionMetrics d) = true.
Proof.
  unfold by_active_pair. rewrite !andb_true_iff, !String.eqb_eq. tauto.
Qed.

Lemma create_single_active rows d :
  single_active rows ->
  countDocuments (by_active_pair (sessionId d) (eventId d)) rows = 0%nat ->
  single_active (create d rows).
Proof.
  intros Hs H0 s e. rewrite countDocuments_create.
  destruct (by_active_pair s e d) eqn:Hd.
  - apply by_active_pair_eq in Hd as (<- & <- & _). lia.
  - specialize (Hs s e). lia.
Qed.

Lemma findOne_none_count {A} (p : A -> bool) rows :
  findOne p rows = None -> countDocuments p rows = 0%nat.
Proof. intros H. unfold countDocuments. now rewrite (findOne_None _ _ H). Qed.

Lemma close_session_db now sid session t st :
  db (fst (close_session now sid session t st)) = db st
  \/ exists e, db (fst (close_session now sid session t st))
               = persist sid e (endSession now) (db st).
Proof.
  unfold close_session. destruct (truthy_value (currentEvent session)); simpl; eauto.
Qed.

Lemma close_session_single_active now sid session t st :
  single_active (db st) ->
  single_active (db (fst (close_session now sid session t st))).
Proof.
  intros Hs. destruct (close_session_db now sid session t st) as [->|[e ->]]; auto.
  apply persist_single_active; auto using endSession_no_activation.
Qed.

Lemma sweep_entry_single_active now sid st :
  single_active (db st) -> single_active (db (fst (sweep_entry now sid st))).
Proof.
  intros Hs. unfold sweep_entry.
  destruct (activeSessions_get st sid) as [session|]; auto.
  destruct (_ <? _); auto. simpl.
  now apply close_session_single_active.
Qed.

Lemma sweep_single_active now keys : forall st,
  single_active (db st) -> single_active (db (fst (sweep now keys st))).
Proof.
  induction keys as [|k keys IH]; intros st Hs; simpl; auto.
  apply IH. now apply sweep_entry_single_active.
Qed.

Lemma logging_handler_single_active now sid eventId method st :
  no_activation method -> single_active (db st) ->
  single_active (db (fst (logging_handler now sid eventId method st))).
Proof.
  intros Hm Hs. unfold logging_handler.
  destruct (lookup sid (conns st)) as [c|]; auto.
  destruct (current_room _ _); auto. simpl.
  now apply persist_single_active.
Qed.

Lemma step_single_active i st :
  single_active (db st) -> single_active (db (fst (step i st))).
Proof.
  intros Hs. destruct i; simpl; auto.
  - (* join-event *)
    unfold join_event. destruct (lookup sid (conns st)) as [c|]; auto.
    destruct (truthy_value (jd_eventId data)) as [eventId|]; auto. simpl.
    destruct (findOne _ (db st)) eqn:Hf; auto.
    apply create_single_active; auto. simpl. now apply findOne_none_count.
  - (* cursor-move *)
    unfold cursor_move. destruct (lookup sid (conns st)) as [c|]; auto.
    destruct (current_room _ _); auto.
    destruct (Qgt_bool _ _); simpl; auto.
    apply persist_single_active; auto using addCursorMovement_no_activation.
  - (* cursor-click *)
    unfold cursor_click_handler. destruct (lookup sid (conns st)) as [c|]; auto.
    destruct (current_room _ _); auto. simpl.
    apply persist_single_active; auto using addCursorMovement_no_activation.
  - apply logging_handler_single_active; auto using updateScrollDepth_no_activation.
  - apply logging_handler_single_active; auto using addPageVisit_no_activation.
  - apply logging_handler_single_active; auto using addHoverData_no_activation.
  - (* disconnect *)
    unfold disconnect. destruct (lookup sid (conns st)); auto. simpl.
    unfold disconnect_handler.
    destruct (activeSessions_get _ sid) as [session|]; simpl; auto.
    now apply close_session_single_active.
  - now apply sweep_single_active.
  - (* POST /api/cursor/session *)
    unfold createOrUpdateSession.
    destruct (truthy_value (sb_sessionId b)) as [sid|]; auto.
    destruct (truthy_value (sb_eventId b)) as [eid|]; auto.
    destruct (findOne _ (db st)) as [[i cursorLog]|] eqn:Hf; simpl.
    + change (save i _ (db st)) with
        (match Some (i, cursorLog) with
         | Some (i, cursorLog) =>
           save i ((fun d => set_sessionMetrics (set_lastActivity now (sessionMetrics d)) d)
                     cursorLog) (db st)
         | None => db st
         end).
      rewrite <- Hf. apply (persist_single_active sid eid); auto.
      intros s e d H. exact H.
    + apply create_single_active; auto. simpl. now apply findOne_none_count.
Qed.

Lemma run_single_active inputs : forall st,
  single_active (db st) -> single_active (db (fst (run inputs st))).
Proof.
  induction inputs as [|i rest IH]; intros st Hs; simpl; auto.
  apply IH. now apply step_single_active.
Qed.

Lemma single_active_empty : single_active [].
Proof. intros s e. unfold countDocuments. simpl. lia. Qed.

(** Joining, or posting the session again, for a pair with an active row
    creates nothing. *)
Lemma join_event_resumes now sid data st c eid :
  lookup sid (conns st) = Some c ->
  truthy_value (jd_eventId data) = Some eid ->
  countDocuments (by_active_pair sid eid) (db st) <> 0%nat ->
  db (fst (join_event now sid data st)) = db st.
Proof.
  intros Hc He Hn. unfold join_event. rewrite Hc, He.
  destruct (findOne_some_of_count _ _ Hn) as (i & d & ->). reflexivity.
Qed.

Lemma createOrUpdateSession_resumes now user ip b rows sid eid :
  truthy_value (sb_sessionId b) = Some sid ->
  truthy_value (sb_eventId b) = Some eid ->
  countDocuments (by_active_pair sid eid) rows <> 0%nat ->
  exists i existing,
    findOne (by_active_pair sid eid) rows = Some (i, existing)
    /\ createOrUpdateSession now user ip b rows
       = (Success sid eid (startTime (sessionMetrics existing)),
          save i (set_sessionMetrics (set_lastActivity now (sessionMetrics existing)) existing)
            rows)
    /\ length (snd (createOrUpdateSession now user ip b rows)) = length rows.
Proof.
  intros Hs He Hn. unfold createOrUpdateSession. rewrite Hs, He.
  destruct (findOne_some_of_count _ _ Hn) as (i & d & Hf). rewrite Hf.
  exists i, d. split; [reflexivity|].
  destruct (findOne_split _ _ _ _ Hf) as (_ & _ & _ & _ & Hd & _).
  apply by_active_pair_eq in Hd as (H1 & H2 & _). simpl. rewrite H1, H2.
  split; [reflexivity|apply save_length].
Qed.

(** *** The registry and the rooms *)

Lemma lookup_assign_same {A} k (v : A) l : lookup k (assign k v l) = Some v.
Proof.
  induction l as [|[k' v'] l IH]; simpl.
  - now rewrite String.eqb_refl.
  - destruct (String.eqb_spec k' k); simpl.
    + now rewrite String.eqb_refl.
    + destruct (String.eqb_spec k' k); [contradiction|exact IH].
Qed.

Lemma lookup_assign_other {A} k k' (v : A) l :
  k' <> k -> lookup k' (assign k v l) = lookup k' l.
Proof.
  intros Hne. induction l as [|[k0 v0] l IH]; simpl.
  - destruct (String.eqb_spec k k'); [congruence|reflexivity].
  - destruct (String.eqb_spec k0 k); simpl.
    + subst. destruct (String.eqb_spec k k'); [congruence|reflexivity].
    + destruct (String.eqb_spec k0 k'); [reflexivity|exact IH].
Qed.

Lemma lookup_remove_same {A} k (l : list (string * A)) :
  lookup k (remove_key k l) = None.
Proof.
  induction l as [|[k0 v0] l IH]; simpl; auto.
  destruct (String.eqb_spec k0 k); simpl; auto.
  destruct (String.eqb_spec k0 k); [contradiction|exact IH].
Qed.

Lemma lookup_remove_other {A} k k' (l : list (string * A)) :
  k' <> k -> lookup k' (remove_key k l) = lookup k' l.
Proof.
  intros Hne. induction l as [|[k0 v0] l IH]; simpl; auto.
  destruct (String.eqb_spec k0 k); simpl.
  - subst. destruct (String.eqb_spec k k'); [congruence|exact IH].
  - destruct (String.eqb_spec k0 k'); [reflexivity|exact IH].
Qed.

Lemma rooms_of_leave_all_same sid rs : rooms_of sid (leave_all sid rs) = [].
Proof.
  unfold rooms_of, leave_all. induction rs as [|[s e] rs IH]; simpl; auto.
  destruct (String.eqb_spec s sid); simpl; auto.
  destruct (String.eqb_spec s sid); [contradiction|exact IH].
Qed.

Lemma rooms_of_leave_all_other sid s rs :
  s <> sid -> rooms_of s (leave_all sid rs) = rooms_of s rs.
Proof.
  intros Hne. unfold rooms_of, leave_all.
  induction rs as [|[s0 e] rs IH]; simpl; auto.
  destruct (String.eqb_spec s0 sid); simpl.
  - subst. destruct (String.eqb_spec sid s); [congruence|exact IH].
  - destruct (String.eqb_spec s0 s); simpl; now rewrite IH.
Qed.

Lemma rooms_of_socket_leave_other sid e s rs :
  s <> sid -> rooms_of s (socket_leave sid e rs) = rooms_of s rs.
Proof.
  intros Hne. unfold rooms_of, socket_leave, in_room.
  induction rs as [|[s0 e0] rs IH]; simpl; auto.
  destruct (String.eqb_spec s0 sid); simpl.
  - subst. destruct (String.eqb_spec e0 e); simpl;
      destruct (String.eqb_spec sid s); try congruence; exact IH.
  - destruct (String.eqb_spec s0 s); simpl; now rewrite IH.
Qed.

Lemma rooms_of_socket_leave_same sid e rs :
  rooms_of sid (socket_leave sid e rs)
  = filter (fun e' => negb (e' =? e)%string) (rooms_of sid rs).
Proof.
  unfold rooms_of, socket_leave, in_room.
  induction rs as [|[s0 e0] rs IH]; simpl; auto.
  destruct (String.eqb_spec s0 sid); simpl.
  - destruct (String.eqb_spec e0 e); simpl.
    + exact IH.
    + subst. rewrite String.eqb_refl. simpl. now rewrite IH.
  - destruct (String.eqb_spec s0 sid); [contradiction|exact IH].
Qed.

Lemma rooms_of_app sid rs rs' :
  rooms_of sid (rs ++ rs') = rooms_of sid rs ++ rooms_of sid rs'.
Proof. unfold rooms_of. now rewrite filter_app, map_app. Qed.

Lemma rooms_of_socket_join_other sid e s rs :
  s <> sid -> rooms_of s (socket_join sid e rs) = rooms_of s rs.
Proof.
  intros Hne. unfold socket_join. destruct (existsb _ rs); auto.
  rewrite rooms_of_app. unfold rooms_of at 2. simpl.
  destruct (String.eqb_spec sid s); [congruence|]. simpl. apply app_nil_r.
Qed.

Lemma rooms_of_socket_join_fresh sid e rs :
  rooms_of sid rs = [] -> rooms_of sid (socket_join sid e rs) = [e].
Proof.
  intros Hnil. unfold socket_join.
  destruct (existsb (in_room sid e) rs) eqn:Hex.
  - apply existsb_exists in Hex as ([s0 e0] & Hin & Hm).
    unfold in_room in Hm. simpl in Hm. apply andb_prop in Hm as [Hs He].
    assert (Hin' : In e0 (rooms_of sid rs)).
    { unfold rooms_of. apply in_map_iff. exists (s0, e0). split; auto.
      apply filter_In. split; auto. }
    rewrite Hnil in Hin'. contradiction.
  - rewrite rooms_of_app, Hnil. unfold rooms_of. simpl.
    now rewrite String.eqb_refl.
Qed.

Lemma truthy_value_some o e :
  truthy_value o = Some e -> o = Some e /\ truthy_value (Some e) = Some e.
Proof.
  destruct o as [s|]; simpl; [|discriminate].
  destruct (s =? "")%string eqn:Hs; [discriminate|].
  intros H; inversion H; subst. simpl. now rewrite Hs.
Qed.

(** The rooms of the joining socket after [join-event]. *)
Lemma join_event_rooms now sid data st c b :
  rooms_consistent st ->
  lookup sid (conns st) = Some c ->
  truthy_value (jd_eventId data) = Some b ->
  rooms_of sid (rooms (fst (join_event now sid data st))) = [b].
Proof.
  intros Hcons Hc Hb. unfold join_event. rewrite Hc, Hb. simpl.
  pose proof (Hcons sid) as Hsid. rewrite Hc in Hsid. simpl in Hsid.
  apply rooms_of_socket_join_fresh.
  destruct (truthy_value (currentEvent (sessionData c))) as [a|]; simpl; auto.
  rewrite rooms_of_socket_leave_same, Hsid. simpl.
  now rewrite String.eqb_refl.
Qed.

Lemma join_event_consistent now sid data st :
  rooms_consistent st -> rooms_consistent (fst (join_event now sid data st)).
Proof.
  intros Hcons.
  destruct (lookup sid (conns st)) as [c|] eqn:Hc;
    [|unfold join_event; now rewrite Hc].
  destruct (truthy_value (jd_eventId data)) as [b|] eqn:Hb;
    [|unfold join_event; now rewrite Hc, Hb].
  intros s. destruct (String.eqb_spec s sid) as [->|Hne].
  - rewrite (join_event_rooms now sid data st c b Hcons Hc Hb).
    unfold join_event. rewrite Hc, Hb. simpl. rewrite lookup_assign_same. simpl.
    apply truthy_value_some in Hb as [_ Hb]. simpl in Hb. now rewrite Hb.
  - unfold join_event. rewrite Hc, Hb. simpl.
    rewrite lookup_assign_other by assumption.
    rewrite rooms_of_socket_join_other by assumption.
    destruct (truthy_value (currentEvent (sessionData c))); simpl;
      [rewrite rooms_of_socket_leave_other by assumption|]; apply Hcons.
Qed.

Lemma touch_consistent now sid c st :
  lookup sid (conns st) = Some c ->
  rooms_consistent st ->
  rooms_consistent (set_conn sid c (touch now (sessionData c)) st).
Proof.
  intros Hc Hcons s. simpl. destruct (String.eqb_spec s sid) as [->|Hne].
  - rewrite lookup_assign_same. simpl. rewrite (Hcons sid), Hc. reflexivity.
  - rewrite lookup_assign_other by assumption. apply Hcons.
Qed.

Lemma rooms_consistent_db st rows :
  rooms_consistent st -> rooms_consistent (set_db rows st).
Proof. intros H s. apply H. Qed.

Lemma sweep_entry_frame now sid st :
  conns (fst (sweep_entry now sid st)) = conns st
  /\ rooms (fst (sweep_entry now sid st)) = rooms st.
Proof.
  unfold sweep_entry. destruct (activeSessions_get st sid) as [session|]; auto.
  destruct (_ <? _); auto. unfold close_session.
  destruct (truthy_value (currentEvent session)); auto.
Qed.

Lemma sweep_frame now keys : forall st,
  conns (fst (sweep now keys st)) = conns st
  /\ rooms (fst (sweep now keys st)) = rooms st.
Proof.
  induction keys as [|k keys IH]; intros st; simpl; auto.
  destruct (IH (fst (sweep_entry now k st))) as [-> ->].
  apply sweep_entry_frame.
Qed.

Lemma logging_handler_consistent now sid eventId method st :
  rooms_consistent st ->
  rooms_consistent (fst (logging_handler now sid eventId method st)).
Proof.
  intros Hcons. unfold logging_handler.
  destruct (lookup sid (conns st)) as [c|] eqn:Hc; auto.
  destruct (current_room _ _); auto. simpl.
  apply rooms_consistent_db, touch_consistent; auto.
Qed.

Lemma step_consistent i st :
  rooms_consistent st -> rooms_consistent (fst (step i st)).
Proof.
  intros Hcons. destruct i; simpl.
  - (* connection *)
    intros s. simpl. destruct (String.eqb_spec s sid) as [->|Hne].
    + now rewrite lookup_assign_same, rooms_of_leave_all_same.
    + rewrite lookup_assign_other, rooms_of_leave_all_other by assumption.
      apply Hcons.
  - now apply join_event_consistent.
  - unfold cursor_move. destruct (lookup sid (conns st)) as [c|] eqn:Hc; auto.
    destruct (current_room _ _); auto.
    destruct (Qgt_bool _ _); simpl;
      [apply rooms_consistent_db|]; now apply touch_consistent.
  - unfold cursor_click_handler. destruct (lookup sid (conns st)) as [c|] eqn:Hc; auto.
    destruct (current_room _ _); auto. simpl.
    apply rooms_consistent_db. now apply touch_consistent.
  - now apply logging_handler_consistent.
  - now apply logging_handler_consistent.
  - now apply logging_handler_consistent.
  - (* disconnect *)
    unfold disconnect. destruct (lookup sid (conns st)) as [c|] eqn:Hc; auto.
    assert (Hframe : conns (fst (disconnect_handler now sid (set_rooms (leave_all sid (rooms st)) st)))
                     = conns st
                     /\ rooms (fst (disconnect_handler now sid (set_rooms (leave_all sid (rooms st)) st)))
                        = leave_all sid (rooms st)).
    { unfold disconnect_handler. destruct (activeSessions_get _ sid) as [session|]; simpl; auto.
      unfold close_session. destruct (truthy_value (currentEvent session)); simpl; auto. }
    destruct Hframe as [Hf1 Hf2].
    intros s. cbn [fst conns rooms]. rewrite Hf1, Hf2.
    destruct (String.eqb_spec s sid) as [->|Hne].
    + now rewrite lookup_remove_same, rooms_of_leave_all_same.
    + rewrite lookup_remove_other, rooms_of_leave_all_other by assumption.
      apply Hcons.
  - (* sweep *)
    intros s. unfold cleanup.
    destruct (sweep_frame now (activeSessions st) st) as [-> ->]. apply Hcons.
  - now apply rooms_consistent_db.
Qed.

Lemma run_consistent inputs : forall st,
  rooms_consistent st -> rooms_consistent (fst (run inputs st)).
Proof.
  induction inputs as [|i rest IH]; intros st H; simpl; auto.
  apply IH. now apply step_consistent.
Qed.

Lemma initial_consistent : rooms_consistent initial.
Proof. intros s. reflexivity. Qed.

Lemma consistent_one_room st sid :
  rooms_consistent st -> (length (rooms_of sid (rooms st)) <= 1)%nat.
Proof.
  intros H. rewrite (H sid). unfold room_of_conn.
  destruct (lookup sid (conns st)) as [c|]; simpl; auto.
  destruct (truthy_value _); simpl; auto.
Qed.

(** *** Changing rooms *)

Lemma peers_socket_leave sid e rs :
  peers sid e (socket_leave sid e rs) = peers sid e rs.
Proof.
  unfold peers, room_members, socket_leave, in_room.
  induction rs as [|[s0 e0] rs IH]; simpl; auto.
  destruct (String.eqb_spec s0 sid), (String.eqb_spec e0 e); simpl; subst.
  - rewrite String.eqb_refl. simpl. exact IH.
  - destruct (String.eqb_spec e0 e); [contradiction|exact IH].
  - rewrite String.eqb_refl. simpl.
    destruct (String.eqb_spec s0 sid); [contradiction|]. simpl. now rewrite IH.
  - destruct (String.eqb_spec e0 e); [contradiction|exact IH].
Qed.

Lemma in_socket_leave sid e rs m :
  In m (socket_leave sid e rs) <-> In m rs /\ m <> (sid, e).
Proof.
  unfold socket_leave. rewrite filter_In. destruct m as [s0 e0].
  unfold in_room. simpl.
  destruct (String.eqb_spec s0 sid), (String.eqb_spec e0 e); simpl; subst;
    split; intros [H1 H2]; split; auto; try discriminate; try congruence.
Qed.

Lemma in_socket_join sid e rs m :
  In m (socket_join sid e rs) <-> In m rs \/ m = (sid, e).
Proof.
  unfold socket_join. destruct (existsb (in_room sid e) rs) eqn:Hex.
  - split; auto. intros [H| ->]; auto.
    apply existsb_exists in Hex as ([s0 e0] & Hin & Hm).
    unfold in_room in Hm. simpl in Hm.
    apply andb_prop in Hm as [Hs He].
    apply String.eqb_eq in Hs, He. now subst.
  - rewrite in_app_iff. simpl. intuition congruence.
Qed.

Lemma in_rooms_of sid e rs : In e (rooms_of sid rs) -> In (sid, e) rs.
Proof.
  unfold rooms_of. rewrite in_map_iff. intros ([s0 e0] & He & Hin).
  apply filter_In in Hin as [Hin Hs]. simpl in *.
  apply String.eqb_eq in Hs. now subst.
Qed.

(** What a socket in room [a] emits when it joins [b]. *)
Lemma join_event_emits now sid data st c a b :
  lookup sid (conns st) = Some c ->
  truthy_value (currentEvent (sessionData c)) = Some a ->
  truthy_value (jd_eventId data) = Some b ->
  let r := join_event now sid data st in
  exists users,
    snd r
    = [mkEmission (SocketTo sid a) (peers sid a (rooms st))
         (user_left sid (userInfo (sessionData c)));
       mkEmission (SocketTo sid b) (peers sid b (rooms (fst r)))
         (user_joined sid (userInfo (sessionData c)) now);
       mkEmission (SocketSelf sid) [sid] (active_users users);
       mkEmission (SocketSelf sid) [sid] (joined_event b sid (length users + 1))].
Proof.
  intros Hc Ha Hb r. unfold r, join_event. rewrite Hc, Hb, Ha.
  eexists. cbn [fst snd app rooms]. unfold emit at 1.
  fold (peers sid a (socket_leave sid a (rooms st))).
  rewrite peers_socket_leave. reflexivity.
Qed.

Lemma rejoin_same_membership now sid data st c a :
  rooms_consistent st ->
  lookup sid (conns st) = Some c ->
  truthy_value (currentEvent (sessionData c)) = Some a ->
  truthy_value (jd_eventId data) = Some a ->
  forall m, In m (rooms (fst (join_event now sid data st))) <-> In m (rooms st).
Proof.
  intros Hcons Hc Ha Hb m. unfold join_event. rewrite Hc, Hb, Ha.
  cbn [fst snd rooms].
  rewrite in_socket_join, in_socket_leave.
  assert (Hin : In (sid, a) (rooms st)).
  { apply in_rooms_of. rewrite (Hcons sid), Hc. simpl. rewrite Ha. now left. }
  split.
  - intros [[H _]| ->]; auto.
  - intros H. destruct m as [s0 e0].
    destruct (String.eqb_spec s0 sid), (String.eqb_spec e0 a); subst; auto;
      left; split; auto; congruence.
Qed.

(** C7, as the socket handlers of the nested model have it.  Whatever the
    server has handled, a socket is in at most one event room.  When a socket
    that is in room [a] joins [b] it is in [b] alone afterwards, and the
    handler emits, in this order: the departure to the other sockets of [a],
    the arrival to the other sockets of [b], and the two answers to the
    socket itself.  This is so also when [b] is [a]: joining the same room
    again leaves the membership of every room as it was, but the peers are
    sent the departure and the arrival once more. *)
Theorem join_leaves_previous_room :
  (forall inputs sid,
     (length (rooms_of sid (rooms (fst (run inputs initial)))) <= 1)%nat)
  /\ (forall inputs now sid data c a b,
        let st := fst (run inputs initial) in
        lookup sid (conns st) = Some c ->
        truthy_value (currentEvent (sessionData c)) = Some a ->
        truthy_value (jd_eventId data) = Some b ->
        let r := join_event now sid data st in
        rooms_of sid (rooms st) = [a]
        /\ rooms_of sid (rooms (fst r)) = [b]
        /\ (exists users,
              snd r
              = [mkEmission (SocketTo sid a) (peers sid a (rooms st))
                   (user_left sid (userInfo (sessionData c)));
                 mkEmission (SocketTo sid b) (peers sid b (rooms (fst r)))
                   (user_joined sid (userInfo (sessionData c)) now);
                 mkEmission (SocketSelf sid) [sid] (active_users users);
                 mkEmission (SocketSelf sid) [sid]
                   (joined_event b sid (length users + 1))])
        /\ (a = b -> forall m, In m (rooms (fst r)) <-> In m (rooms st))).
Proof.
  split.
  - intros inputs sid. apply consistent_one_room.
    apply run_consistent, initial_consistent.
  - intros inputs now sid data c a b st Hc Ha Hb r.
    assert (Hcons : rooms_consistent st)
      by apply run_consistent, initial_consistent.
    split; [|split; [|split]].
    + rewrite (Hcons sid), Hc. simpl. now rewrite Ha.
    + now apply join_event_rooms with (c := c).
    + now apply join_event_emits.
    + intros <-. now apply rejoin_same_membership with (c := c) (a := a).
Qed.

(** The first visitor of [two_visitors] moves on to another event. *)
Lemma join_leaves_previous_room_witness :
  let st := fst (run two_visitors initial) in
  let r := join_event 3 "socket_1" (join_data music_festival) st in
  rooms_of "socket_1" (rooms st) = [tech_conference]
  /\ rooms_of "socket_1" (rooms (fst r)) = [music_festival]
  /\ map (fun e => (em_target e, em_recipients e)) (snd r)
     = [(SocketTo "socket_1" tech_conference, ["socket_2"]);
        (SocketTo "socket_1" music_festival, []);
        (SocketSelf "socket_1", ["socket_1"]);
        (SocketSelf "socket_1", ["socket_1"])].
Proof.
  intros st r.
  destruct join_leaves_previous_room as [_ H].
  destruct (H two_visitors 3 "socket_1" (join_data music_festival)
              (mkConn "10.0.0.1"
                 (mkSessionData "socket_1" None None 0 (Some tech_conference) 1))
              tech_conference music_festival eq_refl eq_refl eq_refl)
    as (H1 & H2 & _ & _).
  split; [exact H1|]. split; [exact H2|]. reflexivity.
Defined.

(** *** The cleanup sweep *)

Lemma in_keys k ks : existsb (fun k' => (k' =? k)%string) ks = true <-> In k ks.
Proof.
  rewrite existsb_exists. split.
  - intros (x & Hin & Hx). apply String.eqb_eq in Hx. now subst.
  - intros H. exists k. split; auto. apply String.eqb_refl.
Qed.

Lemma activeSessions_get_some st sid session :
  activeSessions_get st sid = Some session ->
  In sid (activeSessions st)
  /\ exists c, lookup sid (conns st) = Some c /\ sessionData c = session.
Proof.
  unfold activeSessions_get.
  destruct (existsb _ (activeSessions st)) eqn:Hk; [|discriminate].
  apply in_keys in Hk. intros H. split; auto.
  destruct (lookup sid (conns st)) as [c|]; [|discriminate].
  inversion H. eauto.
Qed.

Lemma activeSessions_get_none st sid :
  ~ In sid (activeSessions st) -> activeSessions_get st sid = None.
Proof.
  intros H. unfold activeSessions_get.
  destruct (existsb _ (activeSessions st)) eqn:Hk; auto.
  apply in_keys in Hk. contradiction.
Qed.

Lemma in_keys_delete k sid ks :
  In sid (keys_delete k ks) <-> In sid ks /\ sid <> k.
Proof.
  unfold keys_delete. rewrite filter_In.
  destruct (String.eqb_spec sid k); simpl; intuition congruence.
Qed.

Lemma sweep_entry_keys now k st :
  activeSessions (fst (sweep_entry now k st)) = activeSessions st
  \/ activeSessions (fst (sweep_entry now k st)) = keys_delete k (activeSessions st).
Proof.
  unfold sweep_entry. destruct (activeSessions_get st k) as [session|]; auto.
  destruct (_ <? _); auto. right. unfold close_session.
  destruct (truthy_value (currentEvent session)); reflexivity.
Qed.

Lemma sweep_entry_other now k sid st :
  k <> sid ->
  activeSessions_get (fst (sweep_entry now k st)) sid = activeSessions_get st sid.
Proof.
  intros Hne. unfold activeSessions_get.
  destruct (sweep_entry_frame now k st) as [-> _].
  destruct (sweep_entry_keys now k st) as [->| ->]; auto.
  destruct (existsb _ (activeSessions st)) eqn:Hk.
  - apply in_keys in Hk.
    assert (H : In sid (keys_delete k (activeSessions st)))
      by (apply in_keys_delete; split; auto).
    apply in_keys in H. now rewrite H.
  - destruct (existsb _ (keys_delete k (activeSessions st))) eqn:Hk'; auto.
    apply in_keys, in_keys_delete in Hk' as [Hk' _].
    apply in_keys in Hk'. congruence.
Qed.

(** The sweep only deletes keys. *)
Lemma sweep_keys now keys : forall st,
  exists h, activeSessions (fst (sweep now keys st)) = filter h (activeSessions st).
Proof.
  induction keys as [|k keys IH]; intros st; simpl.
  - exists (fun _ => true). clear. induction (activeSessions st); simpl; congruence.
  - destruct (IH (fst (sweep_entry now k st))) as [h ->].
    destruct (sweep_entry_keys now k st) as [->| ->]; [eauto|].
    unfold keys_delete. rewrite filter_filter. eauto.
Qed.

Lemma sweep_not_more now keys : forall st s e,
  (countDocuments (by_active_pair s e) (db (fst (sweep now keys st)))
   <= countDocuments (by_active_pair s e) (db st))%nat.
Proof.
  induction keys as [|k keys IH]; intros st s e; simpl; auto.
  etransitivity; [apply IH|].
  unfold sweep_entry. destruct (activeSessions_get st k) as [session|]; auto.
  destruct (_ <? _); auto. simpl.
  destruct (close_session_db now k session (fun e => IoTo e) st) as [->|[e' ->]]; auto.
  apply persist_not_more, endSession_no_activation.
Qed.

Lemma persist_endSession_closes now sid e rows :
  single_active rows ->
  countDocuments (by_active_pair sid e) (persist sid e (endSession now) rows) = 0%nat.
Proof.
  intros Hs. unfold persist.
  destruct (findOne _ rows) as [[i d]|] eqn:Hf.
  - pose proof (countDocuments_save _ (by_active_pair sid e) rows i d
                  (endSession now d) Hf) as H.
    destruct (findOne_split _ _ _ _ Hf) as (_ & _ & _ & _ & Hd & _).
    rewrite Hd, endSession_closed in H. specialize (Hs sid e). lia.
  - now apply findOne_none_count.
Qed.

(** The entry of a stale connection that is in a room. *)
Lemma sweep_entry_stale now sid session e st :
  activeSessions_get st sid = Some session ->
  truthy_value (currentEvent session) = Some e ->
  inactiveThreshold < now - sd_lastActivity session ->
  sweep_entry now sid st
  = (mkState (conns st) (keys_delete sid (activeSessions st)) (rooms st)
       (persist sid e (endSession now) (db st)),
     [emit (rooms st) (IoTo e) (user_left sid (userInfo session))]).
Proof.
  intros Hg He Hstale. unfold sweep_entry. rewrite Hg.
  apply Z.ltb_lt in Hstale. rewrite Hstale.
  unfold close_session. now rewrite He.
Qed.

Lemma sweep_closes now sid session e keys : forall st,
  In sid keys ->
  single_active (db st) ->
  activeSessions_get st sid = Some session ->
  truthy_value (currentEvent session) = Some e ->
  inactiveThreshold < now - sd_lastActivity session ->
  countDocuments (by_active_pair sid e) (db (fst (sweep now keys st))) = 0%nat
  /\ ~ In sid (activeSessions (fst (sweep now keys st)))
  /\ In (emit (rooms st) (IoTo e) (user_left sid (userInfo session)))
        (snd (sweep now keys st)).
Proof.
  induction keys as [|k keys IH]; intros st Hin Hs Hg He Hstale; [contradiction|].
  simpl. destruct (String.eqb_spec k sid) as [->|Hne].
  - rewrite (sweep_entry_stale now sid session e st Hg He Hstale).
    cbn [fst snd]. split; [|split].
    + pose proof (sweep_not_more now keys
                    (mkState (conns st) (keys_delete sid (activeSessions st)) (rooms st)
                       (persist sid e (endSession now) (db st))) sid e) as Hle.
      cbn [db] in Hle. rewrite persist_endSession_closes in Hle by assumption. lia.
    + destruct (sweep_keys now keys
                  (mkState (conns st) (keys_delete sid (activeSessions st)) (rooms st)
                     (persist sid e (endSession now) (db st)))) as [h ->].
      cbn [activeSessions]. intros H. apply filter_In in H as [H _].
      apply in_keys_delete in H. tauto.
    + now left.
  - destruct Hin as [Hin|Hin]; [contradiction|].
    destruct (IH (fst (sweep_entry now k st))) as (H1 & H2 & H3); auto.
    + now apply sweep_entry_single_active.
    + now rewrite sweep_entry_other.
    + split; [exact H1|]. split; [exact H2|].
      apply in_or_app. right.
      destruct (sweep_entry_frame now k st) as [_ Hr]. now rewrite Hr in H3.
Qed.

Lemma filtered_flat_map_le {A B} (v : A -> list B) (g : B -> bool) (h : A -> bool) ks :
  (length (filter g (flat_map v (filter h ks)))
   <= length (filter g (flat_map v ks)))%nat.
Proof.
  induction ks as [|a ks IH]; simpl; auto.
  destruct (h a); simpl; rewrite ?filter_app, ?length_app; lia.
Qed.

Lemma filtered_flat_map_drop {A B} (v : A -> list B) (g : B -> bool) (h : A -> bool) ks x :
  In x ks -> h x = false -> filter g (v x) <> [] ->
  (length (filter g (flat_map v (filter h ks)))
   < length (filter g (flat_map v ks)))%nat.
Proof.
  intros Hin Hx Hv. induction ks as [|a ks IH]; [contradiction|].
  simpl. destruct Hin as [->|Hin].
  - rewrite Hx, filter_app, length_app.
    pose proof (filtered_flat_map_le v g h ks).
    destruct (filter g (v x)); [congruence|simpl; lia].
  - specialize (IH Hin).
    destruct (h a); simpl; rewrite ?filter_app, ?length_app; lia.
Qed.

Lemma getActiveSessionsForEvent_drop st st' e sid c :
  conns st' = conns st ->
  (exists h, activeSessions st' = filter h (activeSessions st)) ->
  In sid (activeSessions st) -> ~ In sid (activeSessions st') ->
  lookup sid (conns st) = Some c ->
  currentEvent (sessionData c) = Some e ->
  (length (getActiveSessionsForEvent st' e) < length (getActiveSessionsForEvent st e))%nat.
Proof.
  intros Hconns [h Hkeys] Hin Hnot Hc He.
  unfold getActiveSessionsForEvent, activeSessions_values.
  rewrite !length_map, Hconns, Hkeys.
  apply filtered_flat_map_drop with (x := sid); auto.
  - destruct (h sid) eqn:Hh; auto.
    exfalso. apply Hnot. rewrite Hkeys. apply filter_In. auto.
  - rewrite Hc. simpl. rewrite He. simpl. rewrite String.eqb_refl. discriminate.
Qed.

(** *** Properties of every session log of a run *)

Section LogInvariant.
Variable P : CursorLog -> Prop.
Hypothesis P_new : forall now sid uid eid ua ip loc dev,
  P (new_CursorLog now sid uid eid ua ip loc dev).
Hypothesis P_addCursorMovement : forall now x y page element action d,
  P d -> P (addCursorMovement now x y page element action d).
Hypothesis P_addHoverData : forall now x y dur page d,
  P d -> P (addHoverData now x y dur page d).
Hypothesis P_updateScrollDepth : forall now page depth d,
  P d -> P (updateScrollDepth now page depth d).
Hypothesis P_addPageVisit : forall now page timeSpent d,
  P d -> P (addPageVisit now page timeSpent d).
Hypothesis P_endSession : forall now d, P d -> P (endSession now d).
Hypothesis P_lastActivity : forall now d,
  P d -> P (set_sessionMetrics (set_lastActivity now (sessionMetrics d)) d).

Lemma persist_Forall sid eid method rows :
  (forall d, P d -> P (method d)) -> Forall P rows ->
  Forall P (persist sid eid method rows).
Proof.
  intros Hm Hrows. unfold persist.
  destruct (findOne _ rows) as [[i d]|] eqn:Hf; auto.
  apply Forall_save; auto. apply Hm. apply (Forall_findOne _ _ _ _ _ Hrows Hf).
Qed.

Lemma close_session_Forall now sid session t st :
  Forall P (db st) -> Forall P (db (fst (close_session now sid session t st))).
Proof.
  intros H. destruct (close_session_db now sid session t st) as [->|[e ->]]; auto.
  apply persist_Forall; auto.
Qed.

Lemma sweep_Forall now keys : forall st,
  Forall P (db st) -> Forall P (db (fst (sweep now keys st))).
Proof.
  induction keys as [|k keys IH]; intros st H; simpl; auto.
  apply IH. unfold sweep_entry.
  destruct (activeSessions_get st k) as [session|]; auto.
  destruct (_ <? _); auto. simpl. now apply close_session_Forall.
Qed.

Lemma logging_handler_Forall now sid eventId method st :
  (forall d, P d -> P (method d)) -> Forall P (db st) ->
  Forall P (db (fst (logging_handler now sid eventId method st))).
Proof.
  intros Hm H. unfold logging_handler.
  destruct (lookup sid (conns st)) as [c|]; auto.
  destruct (current_room _ _); auto. simpl. now apply persist_Forall.
Qed.

Lemma step_Forall i st : Forall P (db st) -> Forall P (db (fst (step i st))).
Proof.
  intros H. destruct i; simpl; auto.
  - unfold join_event. destruct (lookup sid (conns st)) as [c|]; auto.
    destruct (truthy_value (jd_eventId data)); auto. simpl.
    destruct (findOne _ (db st)); auto. now apply Forall_create.
  - unfold cursor_move. destruct (lookup sid (conns st)) as [c|]; auto.
    destruct (current_room _ _); auto.
    destruct (Qgt_bool _ _); simpl; auto. apply persist_Forall; auto.
  - unfold cursor_click_handler. destruct (lookup sid (conns st)) as [c|]; auto.
    destruct (current_room _ _); auto. simpl. apply persist_Forall; auto.
  - apply logging_handler_Forall; auto.
  - apply logging_handler_Forall; auto.
  - apply logging_handler_Forall; auto.
  - unfold disconnect. destruct (lookup sid (conns st)); auto. simpl.
    unfold disconnect_handler.
    destruct (activeSessions_get _ sid) as [session|]; simpl; auto.
    now apply close_session_Forall.
  - now apply sweep_Forall.
  - unfold createOrUpdateSession.
    destruct (truthy_value (sb_sessionId b)) as [sid|]; auto.
    destruct (truthy_value (sb_eventId b)) as [eid|]; auto.
    destruct (findOne _ (db st)) as [[i cursorLog]|] eqn:Hf; simpl.
    + apply Forall_save; auto. apply P_lastActivity.
      apply (Forall_findOne _ _ _ _ _ H Hf).
    + now apply Forall_create.
Qed.

Lemma run_Forall inputs : forall st,
  Forall P (db st) -> Forall P (db (fst (run inputs st))).
Proof.
  induction inputs as [|i rest IH]; intros st H; simpl; auto.
  apply IH. now apply step_Forall.
Qed.
End LogInvariant.

(** In every state the server can reach, every session log names each page
    once in its scroll-depth entries. *)
Lemma scroll_depth_pages_unique inputs :
  Forall (fun d => NoDup (map sd_page (scrollDepth (heatmapData d))))
    (db (fst (run inputs initial))).
Proof.
  apply run_Forall; auto; try (simpl; constructor).
  - intros now x y page element action d H. unfold addCursorMovement.
    destruct (Action_eqb action click), (Action_eqb action scroll); exact H.
  - intros now page depth d H. simpl. now apply updateScrollDepth_NoDup.
Qed.

End DashboardFacts.

(** ** The flat server, with session starts that overlap *)

Module BackendPhases.
Import Collection CollectionFacts Runtime RuntimeFacts Backend BackendFacts.

Lemma save_stored_count {A} (q : A -> bool) rows i d d' :
  nth_error rows i = Some d -> q d' = q d ->
  countDocuments q (save i d' rows) = countDocuments q rows.
Proof.
  intros Hn Hq. apply List.nth_error_split in Hn as (before & after & -> & <-).
  rewrite save_split, !countDocuments_app, !countDocuments_cons, Hq. reflexivity.
Qed.

Lemma findOne_stored {A} (p : A -> bool) rows i d :
  findOne p rows = Some (i, d) -> nth_error rows i = Some d.
Proof.
  intros Hf. destruct (findOne_split _ _ _ _ Hf) as (before & after & -> & -> & _).
  apply nth_error_split.
Qed.

(** The route run without interruption is its lookup followed by its write
    on the same collection. *)
Lemma start_session_phases isMongoId isIP events now b rows :
  start_session isMongoId isIP events now b rows
  = start_session_write now b (start_session_lookup isMongoId isIP events b rows) rows.
Proof.
  unfold start_session, start_session_lookup.
  destruct (valid_start_session _ _ b); simpl; auto.
  destruct (Event_findById events (ss_eventId b)) as [event|]; simpl; auto.
  destruct (ev_isPublic event); simpl; auto.
  destruct (findOne _ rows) as [[i existing]|] eqn:Hf; simpl; auto.
  now rewrite (findOne_stored _ _ _ _ Hf).
Qed.

Lemma start_session_write_count now b l rows e s :
  (l = StartAbsent -> (ss_eventId b, ss_sessionId b) <> (e, s)) ->
  countDocuments (by_pair e s) (snd (start_session_write now b l rows))
  = countDocuments (by_pair e s) rows.
Proof.
  intros Hl. destruct l as [r|i existing|]; simpl; auto.
  - destruct (nth_error rows i) as [stored|] eqn:Hn; auto.
    apply save_stored_count with (d := stored); auto.
  - rewrite countDocuments_create.
    destruct (by_pair e s (new_CursorLog now b)) eqn:Hq; [|lia].
    apply by_pair_eq in Hq as [<- <-]. now contradiction Hl.
Qed.

Lemma update_active_count eid sid method rows e s :
  (forall e s d, by_pair e s (method d) = by_pair e s d) ->
  countDocuments (by_pair e s) (update_active eid sid method rows)
  = countDocuments (by_pair e s) rows.
Proof.
  intros Hm. unfold update_active.
  destruct (findOne _ rows) as [[i d]|] eqn:Hf; auto.
  erewrite save_keeps_pairs; eauto.
Qed.

Lemma handle_count isMongoId isIP events r rows e s :
  (forall now b, r = PostStartSession now b -> (ss_eventId b, ss_sessionId b) <> (e, s)) ->
  countDocuments (by_pair e s) (snd (handle isMongoId isIP events r rows))
  = countDocuments (by_pair e s) rows.
Proof.
  intros Hr. destruct r as [now b|now b|now b|now b|now b]; simpl.
  - rewrite start_session_phases. apply start_session_write_count.
    intros _. now apply (Hr now b).
  - unfold movement. destruct (valid_movement _ b); simpl; auto.
    destruct (findOne _ rows) as [[i cursorLog]|] eqn:Hf; simpl; auto.
    erewrite save_keeps_pairs; eauto.
    intros. apply addCursorMovement_pair.
  - unfold interaction. destruct (valid_interaction _ b); simpl; auto.
    destruct (findOne _ rows) as [[i cursorLog]|] eqn:Hf; simpl; auto.
    erewrite save_keeps_pairs; eauto.
  - unfold page_view. destruct (valid_page_view _ b); simpl; auto.
    destruct (findOne _ rows) as [[i cursorLog]|] eqn:Hf; simpl; auto.
    erewrite save_keeps_pairs; eauto.
  - unfold end_session. destruct (valid_end_session _ b); simpl; auto.
    destruct (findOne _ rows) as [[i cursorLog]|] eqn:Hf; simpl; auto.
    erewrite save_keeps_pairs; eauto.
Qed.

Lemma sweep_count now entries e s : forall st,
  countDocuments (by_pair e s) (db (fst (sweep now entries st)))
  = countDocuments (by_pair e s) (db st).
Proof.
  induction entries as [|entry rest IH]; intros st; simpl; auto.
  rewrite IH.
  destruct (sweep_connection_db now entry st) as [->|(eid & s0 & ->)]; auto.
  now apply update_active_count.
Qed.

(** A handler other than a session start of the pair leaves the pair the
    rows it has. *)
Lemma step_count isMongoId isIP events i st e s :
  (forall now b, i = OnRequest (PostStartSession now b) ->
                 (ss_eventId b, ss_sessionId b) <> (e, s)) ->
  countDocuments (by_pair e s) (db (fst (step isMongoId isIP events i st)))
  = countDocuments (by_pair e s) (db st).
Proof.
  intros Hi. destruct i; simpl; auto.
  - apply handle_count. intros now b ->. now apply (Hi now b).
  - unfold join_event. destruct (connected sid st); simpl; auto.
    destruct (truthy_value (jd_eventId data)), (truthy_value (jd_userId data)),
      (truthy_value (jd_sessionId data)); simpl; auto.
    destruct (Event_findById events s0); simpl; auto.
  - unfold cursor_move. destruct (connected sid st); simpl; auto.
    destruct (truthy_value (md_eventId data)), (truthy_value (md_userId data)),
      (truthy_value (md_sessionId data)), (md_x data), (md_y data); simpl; auto.
    destruct (connection_for sid s0 st); simpl; auto.
    destruct (_ <? _); simpl; auto.
    apply update_active_count. intros. apply addCursorMovement_pair.
  - unfold user_interaction_handler. destruct (connected sid st); simpl; auto.
    destruct (truthy_value (id_eventId data)), (truthy_value (id_userId data)),
      (truthy_value (id_sessionId data)), (id_type data),
      (truthy_value (id_target data)); simpl; auto.
    destruct (connection_for sid s0 st); simpl; auto.
    now apply update_active_count.
  - unfold page_view_handler. destruct (connected sid st); simpl; auto.
    destruct (truthy_value (pvd_eventId data)), (truthy_value (pvd_userId data)),
      (truthy_value (pvd_sessionId data)), (truthy_value (pvd_page data)); simpl; auto.
    destruct (connection_for sid s0 st); simpl; auto.
    now apply update_active_count.
  - destruct (disconnect_db now sid st) as [->|(eid & s0 & ->)]; auto.
    now apply update_active_count.
  - apply sweep_count.
Qed.

Lemma same_pair_eq a b : same_pair a b = true <-> a = b.
Proof.
  destruct a as [a1 a2], b as [b1 b2]. unfold same_pair. simpl.
  rewrite andb_true_iff, !String.eqb_eq. split; [intros [-> ->]|intros H; inversion H]; auto.
Qed.

Lemma not_overlapping p s started a :
  overlaps p s = false ->
  starts p = Some started -> In a (awaiting s) -> looked_up a <> started.
Proof.
  unfold overlaps. intros Ho Hs Hin Heq. rewrite Hs in Ho.
  assert (Hex : existsb (fun entry =>
                           same_pair (ss_eventId (fst (snd entry)),
                                      ss_sessionId (fst (snd entry))) started)
                  (awaiting s) = true).
  { apply existsb_exists. exists a. split; auto. now apply same_pair_eq. }
  congruence.
Qed.

Lemma phase_step_Inv isMongoId isIP events p s :
  overlaps p s = false ->
  phase_Inv s -> phase_Inv (fst (phase_step isMongoId isIP events p s)).
Proof.
  intros Ho (Hu & Hd & Ha). destruct p as [i|request b|request now]; simpl.
  - split; [|split]; auto.
    + apply (step_Inv isMongoId isIP events unique_pairs); auto.
      apply db_step_unique.
    + intros a Hin Hab. cbn [server awaiting] in *.
      rewrite step_count; auto.
      intros now b -> Heq.
      apply (not_overlapping _ s _ a Ho eq_refl Hin).
      unfold looked_up. destruct (looked_up a) eqn:E. unfold looked_up in E.
      simpl in *. congruence.
  - assert (Hnew : forall a, In a (awaiting s) ->
                             looked_up a <> (ss_eventId b, ss_sessionId b)).
    { intros a Hin. now apply (not_overlapping _ s _ a Ho eq_refl). }
    split; [exact Hu|]. split; cbn [server awaiting].
    + intros a c Hin1 Hin2 Heq.
      apply assigned_entry in Hin1 as [->|Hin1], Hin2 as [->|Hin2]; auto.
      * exfalso. apply (Hnew c Hin2). now rewrite <- Heq.
      * exfalso. apply (Hnew a Hin1). now rewrite Heq.
    + intros a Hin Hab. apply assigned_entry in Hin as [->|Hin]; auto.
      cbn [looked_up fst snd] in *. unfold looked_up. cbn [fst snd].
      unfold start_session_lookup in Hab.
      destruct (valid_start_session _ _ b); simpl in Hab; [|discriminate].
      destruct (Event_findById events (ss_eventId b)) as [event|]; [|discriminate].
      destruct (ev_isPublic event); simpl in Hab; [|discriminate].
      destruct (findOne _ (db (server s))) as [[i existing]|] eqn:Hf; [discriminate|].
      apply findOne_None in Hf. unfold countDocuments. now rewrite Hf.
  - destruct (lookup request (awaiting s)) as [[b l]|] eqn:Hl; simpl;
      [|split; [|split]; auto].
    apply looked_up_entry in Hl.
    assert (Hother : forall a, In a (remove_key request (awaiting s)) ->
                               In a (awaiting s)
                               /\ looked_up a <> (ss_eventId b, ss_sessionId b)).
    { intros a Hin. apply removed_entry in Hin as [Hin Hne]. split; auto.
      intros Heq. apply Hne. apply (Hd a (request, (b, l)) Hin Hl). exact Heq. }
    split; [|split].
    + intros e s0.
      destruct l as [r|i existing|]; simpl.
      * apply Hu.
      * destruct (nth_error _ i) as [stored|] eqn:Hn; [|apply Hu].
        rewrite (save_stored_count _ _ _ stored); auto.
      * rewrite countDocuments_create.
        destruct (by_pair e s0 (new_CursorLog now b)) eqn:Hq;
          [|specialize (Hu e s0); lia].
        apply by_pair_eq in Hq as [<- <-].
        pose proof (Ha _ Hl eq_refl) as H0. cbn in H0. cbn. rewrite H0. lia.
    + intros a c Hin1 Hin2. apply Hd; now apply Hother.
    + intros a Hin Hab. destruct (Hother a Hin) as [Hin' Hne].
      cbn [server db]. rewrite start_session_write_count; [now apply Ha|].
      intros _ Heq. apply Hne. unfold looked_up. destruct (looked_up a) eqn:E.
      unfold looked_up in E. simpl in *. congruence.
Qed.

Lemma phase_run_Inv isMongoId isIP events schedule : forall s,
  serial isMongoId isIP events schedule s = true ->
  phase_Inv s -> phase_Inv (fst (phase_run isMongoId isIP events schedule s)).
Proof.
  induction schedule as [|p rest IH]; intros s Hs Hi; simpl; auto.
  simpl in Hs. apply andb_prop in Hs as [Ho Hs]. apply negb_true_iff in Ho.
  apply IH; auto. now apply phase_step_Inv.
Qed.

Lemma serial_firstn isMongoId isIP events schedule : forall k s,
  serial isMongoId isIP events schedule s = true ->
  serial isMongoId isIP events (firstn k schedule) s = true.
Proof.
  induction schedule as [|p rest IH]; intros [|k] s Hs; simpl; auto.
  simpl in Hs. apply andb_prop in Hs as [Ho Hs]. rewrite Ho. simpl. auto.
Qed.

Lemma quiet_Inv : phase_Inv quiet.
Proof.
  split; [apply unique_pairs_empty|]. split; [intros a b []|intros a []].
Qed.

(** A schedule without overlap leaves every pair one row at most, at every
    point of the schedule. *)
Lemma serial_unique isMongoId isIP events schedule k :
  serial isMongoId isIP events schedule quiet = true ->
  unique_pairs
    (db (server (fst (phase_run isMongoId isIP events (firstn k schedule) quiet)))).
Proof.
  intros Hs.
  apply (phase_run_Inv isMongoId isIP events (firstn k schedule) quiet).
  - now apply serial_firstn.
  - apply quiet_Inv.
Qed.

(** A run of whole handlers is a schedule without overlap. *)
Lemma whole_run isMongoId isIP events inputs : forall s,
  awaiting s = [] ->
  serial isMongoId isIP events (map Whole inputs) s = true
  /\ server (fst (phase_run isMongoId isIP events (map Whole inputs) s))
     = fst (run isMongoId isIP events inputs (server s)).
Proof.
  induction inputs as [|i rest IH]; intros s Hs; simpl; auto.
  destruct (IH (mkInterleaved (fst (step isMongoId isIP events i (server s)))
                  (awaiting s)) Hs) as [H1 H2].
  split; [|exact H2].
  rewrite H1, andb_true_r. unfold overlaps. rewrite Hs.
  now destruct (starts (Whole i)).
Qed.

End BackendPhases.

(** ** The nested server, with session starts that overlap *)

Module DashboardPhases.
Import Collection CollectionFacts Runtime RuntimeFacts Dashboard DashboardFacts.

(** The handlers run without interruption are their lookup followed by
    their write. *)
Lemma join_event_phases now sid data st :
  join_event now sid data st
  = let r := join_event_lookup now sid data st in
    match snd r with
    | Some pending =>
      let w := join_event_write now pending (fst (fst r)) in
      (fst w, snd (fst r) ++ snd w)
    | None => fst r
    end.
Proof.
  unfold join_event, join_event_lookup.
  destruct (lookup sid (conns st)) as [c|]; [|reflexivity].
  destruct (truthy_value (jd_eventId data)) as [eventId|]; [|reflexivity].
  cbn [fst snd]. unfold join_event_write, session_lookup.
  cbn [pj_socket pj_conn pj_eventId pj_data pj_found set_db conns activeSessions
       rooms db].
  destruct (findOne _ (db st)) as [[i d]|]; reflexivity.
Qed.

Lemma createOrUpdateSession_phases now user ip b rows :
  createOrUpdateSession now user ip b rows
  = createOrUpdateSession_write now user ip b (createOrUpdateSession_lookup b rows) rows.
Proof.
  unfold createOrUpdateSession, createOrUpdateSession_lookup, session_lookup.
  destruct (truthy_value (sb_sessionId b)) as [sid|]; [|reflexivity].
  destruct (truthy_value (sb_eventId b)) as [eid|]; [|reflexivity].
  destruct (findOne _ rows) as [[i d]|] eqn:Hf; [|reflexivity].
  simpl. now rewrite (BackendPhases.findOne_stored _ _ _ _ Hf).
Qed.

Lemma new_CursorLog_pair now sid uid eid ua ip loc dev s e :
  by_active_pair s e (new_CursorLog now sid uid eid ua ip loc dev) = same_pair (sid, eid) (s, e).
Proof. unfold by_active_pair, same_pair. simpl. apply andb_true_r. Qed.

Lemma same_pair_spec a b : same_pair a b = true <-> a = b.
Proof.
  destruct a as [a1 a2], b as [b1 b2]. unfold same_pair. simpl.
  rewrite andb_true_iff, !String.eqb_eq. split; [intros [-> ->]|intros H; inversion H]; auto.
Qed.

Lemma same_pair_other a b : a <> b -> same_pair a b = false.
Proof.
  intros H. destruct (same_pair a b) eqn:E; auto. now apply same_pair_spec in E.
Qed.

Lemma join_event_lookup_db now sid data st :
  db (fst (fst (join_event_lookup now sid data st))) = db st.
Proof.
  unfold join_event_lookup. destruct (lookup sid (conns st)) as [c|]; auto.
  now destruct (truthy_value (jd_eventId data)).
Qed.

Lemma join_event_lookup_pending now sid data st pending :
  snd (join_event_lookup now sid data st) = Some pending ->
  join_pair sid data = Some (pj_socket pending, pj_eventId pending)
  /\ pj_found pending = session_lookup (pj_socket pending) (pj_eventId pending) (db st).
Proof.
  unfold join_event_lookup, join_pair.
  destruct (lookup sid (conns st)) as [c|]; [|discriminate].
  destruct (truthy_value (jd_eventId data)) as [eventId|]; [|discriminate].
  simpl. intros H. inversion H. subst. auto.
Qed.

Lemma session_lookup_absent sid eid rows :
  session_lookup sid eid rows = SessionAbsent ->
  countDocuments (by_active_pair sid eid) rows = 0%nat.
Proof.
  unfold session_lookup.
  destruct (findOne _ rows) as [[i d]|] eqn:Hf; [discriminate|].
  intros _. now apply findOne_none_count.
Qed.

(** What the writes do to the active rows of a pair. *)
Lemma join_event_write_count now pending st s e :
  countDocuments (by_active_pair s e) (db (fst (join_event_write now pending st)))
  = (countDocuments (by_active_pair s e) (db st)
     + match pj_found pending with
       | SessionAbsent =>
         if same_pair (pj_socket pending, pj_eventId pending) (s, e) then 1 else 0
       | SessionFound _ _ => 0
       end)%nat.
Proof.
  unfold join_event_write. cbn [fst set_db db].
  destruct (pj_found pending); [lia|].
  now rewrite countDocuments_create, new_CursorLog_pair.
Qed.

Lemma createOrUpdateSession_write_count now user ip b l rows s e :
  countDocuments (by_active_pair s e)
    (snd (createOrUpdateSession_write now user ip b l rows))
  = (countDocuments (by_active_pair s e) rows
     + match l with
       | PostLooked sid eid SessionAbsent => if same_pair (sid, eid) (s, e) then 1 else 0
       | _ => 0
       end)%nat.
Proof.
  destruct l as [|sid eid [i cursorLog|]]; simpl; try lia.
  - destruct (nth_error rows i) as [stored|] eqn:Hn; [|lia].
    rewrite (BackendPhases.save_stored_count _ _ _ stored); auto.
  - now rewrite countDocuments_create, new_CursorLog_pair.
Qed.

Lemma logging_handler_not_more now sid eventId method st s e :
  no_activation method ->
  (countDocuments (by_active_pair s e) (db (fst (logging_handler now sid eventId method st)))
   <= countDocuments (by_active_pair s e) (db st))%nat.
Proof.
  intros Hm. unfold logging_handler.
  destruct (lookup sid (conns st)) as [c|]; auto.
  destruct (current_room _ _); auto. simpl.
  now apply persist_not_more.
Qed.

(** A handler other than a session start of the pair gives the pair no
    active row. *)
Lemma step_not_more i st s e :
  starts (Whole i) <> Some (s, e) ->
  (countDocuments (by_active_pair s e) (db (fst (step i st)))
   <= countDocuments (by_active_pair s e) (db st))%nat.
Proof.
  intros Hi. destruct i; simpl; auto.
  - rewrite join_event_phases.
    destruct (join_event_lookup now sid data st) as [[st1 out] [pending|]] eqn:Hl;
      cbn [fst snd].
    + pose proof (join_event_lookup_db now sid data st) as Hdb.
      destruct (join_event_lookup_pending now sid data st pending) as [Hp _];
        [now rewrite Hl|].
      rewrite Hl in Hdb. cbn [fst] in Hdb.
      rewrite join_event_write_count, Hdb.
      simpl in Hi. rewrite Hp in Hi.
      rewrite same_pair_other by congruence. destruct (pj_found pending); lia.
    + pose proof (join_event_lookup_db now sid data st) as Hdb.
      rewrite Hl in Hdb. cbn [fst] in Hdb. rewrite Hdb. lia.
  - unfold cursor_move. destruct (lookup sid (conns st)) as [c|]; auto.
    destruct (current_room _ _); auto.
    destruct (Qgt_bool _ _); simpl; auto.
    apply persist_not_more, addCursorMovement_no_activation.
  - unfold cursor_click_handler. destruct (lookup sid (conns st)) as [c|]; auto.
    destruct (current_room _ _); auto. simpl.
    apply persist_not_more, addCursorMovement_no_activation.
  - apply logging_handler_not_more, updateScrollDepth_no_activation.
  - apply logging_handler_not_more, addPageVisit_no_activation.
  - apply logging_handler_not_more, addHoverData_no_activation.
  - unfold disconnect. destruct (lookup sid (conns st)); auto. simpl.
    unfold disconnect_handler.
    destruct (activeSessions_get _ sid) as [session|]; simpl; auto.
    match goal with |- context [close_session ?n ?k ?ss ?t ?st0] =>
      destruct (close_session_db n k ss t st0) as [->|[e0 ->]] end; auto.
    apply persist_not_more, endSession_no_activation.
  - apply sweep_not_more.
  - rewrite createOrUpdateSession_phases, createOrUpdateSession_write_count.
    simpl in Hi. unfold createOrUpdateSession_lookup. unfold post_pair in Hi.
    destruct (truthy_value (sb_sessionId b)) as [sid|]; [|lia].
    destruct (truthy_value (sb_eventId b)) as [eid|]; [|lia].
    destruct (session_lookup sid eid (db st)); [lia|].
    rewrite same_pair_other by congruence. lia.
Qed.

Lemma start_elsewhere p s started a q :
  overlaps p s = false -> starts p = Some started ->
  In a (awaiting s) -> awaited_pair (snd a) = Some q -> q <> started.
Proof.
  unfold overlaps. intros Ho Hs Hin Hq Heq. rewrite Hs in Ho.
  assert (Hex : existsb (fun entry =>
                           match awaited_pair (snd entry) with
                           | Some looked => same_pair looked started
                           | None => false
                           end) (awaiting s) = true).
  { apply existsb_exists. exists a. split; auto. rewrite Hq. now apply same_pair_spec. }
  congruence.
Qed.

(** The invariant after a lookup: a request takes its place among the
    waiting ones. *)
Lemma lookup_Inv s st' request v :
  db st' = db (server s) ->
  (forall a q, In a (awaiting s) -> awaited_pair (snd a) = Some q ->
               awaited_pair v <> Some q) ->
  (forall q, awaited_pair v = Some q -> found_none v = true ->
             countDocuments (by_active_pair (fst q) (snd q)) (db (server s)) = 0%nat) ->
  phase_Inv s ->
  phase_Inv (mkInterleaved st' (assign request v (awaiting s))).
Proof.
  intros Hdb Hnew Hzero (Hs & Hd & Ha). split; [|split]; cbn [server awaiting].
  - now rewrite Hdb.
  - intros a b q Hin1 Hin2 Hq1 Hq2.
    apply assigned_entry in Hin1 as [->|Hin1], Hin2 as [->|Hin2]; auto.
    + exfalso. now apply (Hnew b q Hin2 Hq2).
    + exfalso. now apply (Hnew a q Hin1 Hq1).
    + now apply (Hd a b q).
  - intros a q Hin Hq Hab. rewrite Hdb.
    apply assigned_entry in Hin as [->|Hin]; [now apply Hzero|now apply (Ha a q)].
Qed.

(** The invariant after a write: the request leaves the waiting ones. *)
Lemma write_Inv s st' request v :
  lookup request (awaiting s) = Some v ->
  single_active (db st') ->
  (forall q, awaited_pair v <> Some q ->
     (countDocuments (by_active_pair (fst q) (snd q)) (db st')
      <= countDocuments (by_active_pair (fst q) (snd q)) (db (server s)))%nat) ->
  phase_Inv s ->
  phase_Inv (mkInterleaved st' (remove_key request (awaiting s))).
Proof.
  intros Hl Hs' Hle (Hs & Hd & Ha). apply looked_up_entry in Hl.
  split; [exact Hs'|]. split; cbn [server awaiting].
  - intros a b q Hin1 Hin2. apply removed_entry in Hin1 as [Hin1 _].
    apply removed_entry in Hin2 as [Hin2 _]. now apply Hd.
  - intros a q Hin Hq Hab. apply removed_entry in Hin as [Hin Hne].
    assert (Hv : awaited_pair v <> Some q).
    { intros Hv. apply Hne. apply (Hd a (request, v) q Hin Hl Hq Hv). }
    pose proof (Hle q Hv). pose proof (Ha a q Hin Hq Hab). lia.
Qed.

Lemma phase_keeps p s :
  overlaps p s = false -> phase_Inv s -> phase_Inv (fst (phase_step p s)).
Proof.
  intros Ho Hinv. pose proof Hinv as (Hs & Hd & Ha).
  destruct p as [i|request now sid data|request now|request user ip b|request now];
    cbn [phase_step fst].
  - split; [|split]; cbn [server awaiting]; auto.
    + now apply step_single_active.
    + intros a q Hin Hq Hab.
      assert (Hi : starts (Whole i) <> Some (fst q, snd q)).
      { destruct (starts (Whole i)) as [started|] eqn:E; [|discriminate].
        pose proof (start_elsewhere _ s started a q Ho E Hin Hq).
        destruct q. simpl. congruence. }
      pose proof (step_not_more i (server s) (fst q) (snd q) Hi).
      pose proof (Ha a q Hin Hq Hab). lia.
  - pose proof (join_event_lookup_db now sid data (server s)) as Hdb.
    destruct (snd (join_event_lookup now sid data (server s))) as [pending|] eqn:Hp.
    + destruct (join_event_lookup_pending now sid data (server s) pending Hp)
        as [Hpair Hfound].
      apply lookup_Inv; auto.
      * intros a q Hin Hq. simpl. intros Hv. inversion Hv; subst.
        now apply (start_elsewhere _ s _ a _ Ho Hpair Hin Hq).
      * intros q Hq Hab. simpl in Hq, Hab. inversion Hq; subst. simpl.
        apply session_lookup_absent. rewrite <- Hfound.
        now destruct (pj_found pending).
    + split; [|split]; cbn [server awaiting]; auto; now rewrite Hdb.
  - destruct (lookup request (awaiting s)) as [[pending|user ip b l]|] eqn:Hl;
      cbn [fst]; auto.
    apply write_Inv with (v := AwaitingJoin pending); auto.
    + intros s0 e0. rewrite join_event_write_count.
      destruct (pj_found pending) eqn:Hf; [specialize (Hs s0 e0); lia|].
      destruct (same_pair _ (s0, e0)) eqn:E; [|specialize (Hs s0 e0); lia].
      apply same_pair_spec in E. inversion E; subst.
      apply looked_up_entry in Hl.
      assert (H0 : countDocuments
                     (by_active_pair (pj_socket pending) (pj_eventId pending))
                     (db (server s)) = 0%nat).
      { apply (Ha _ (pj_socket pending, pj_eventId pending) Hl eq_refl).
        simpl. now rewrite Hf. }
      lia.
    + intros q Hq. rewrite join_event_write_count. simpl in Hq.
      destruct (pj_found pending); [lia|].
      rewrite same_pair_other; [lia|]. destruct q. simpl. congruence.
  - apply lookup_Inv; auto.
    + intros a q Hin Hq Hv. simpl in Hv. unfold createOrUpdateSession_lookup in Hv.
      assert (Hpair : starts (PostSessionLookup request user ip b) = Some q).
      { simpl. unfold post_pair.
        destruct (truthy_value (sb_sessionId b)); [|discriminate].
        destruct (truthy_value (sb_eventId b)); [|discriminate]. exact Hv. }
      now apply (start_elsewhere _ s _ a _ Ho Hpair Hin Hq).
    + intros q Hq Hab. simpl in Hq, Hab. unfold createOrUpdateSession_lookup in *.
      destruct (truthy_value (sb_sessionId b)) as [sid|]; [|discriminate].
      destruct (truthy_value (sb_eventId b)) as [eid|]; [|discriminate].
      inversion Hq; subst. simpl. apply session_lookup_absent.
      now destruct (session_lookup sid eid (db (server s))).
  - destruct (lookup request (awaiting s)) as [[pending|user ip b l]|] eqn:Hl;
      cbn [fst]; auto.
    apply write_Inv with (v := AwaitingPost user ip b l); auto.
    + intros s0 e0. cbn [set_db db]. rewrite createOrUpdateSession_write_count.
      destruct l as [|sid eid [i cursorLog|]]; try (specialize (Hs s0 e0); lia).
      destruct (same_pair _ (s0, e0)) eqn:E; [|specialize (Hs s0 e0); lia].
      apply same_pair_spec in E. inversion E; subst.
      apply looked_up_entry in Hl.
      pose proof (Ha _ (s0, e0) Hl eq_refl eq_refl) as H0. cbn [fst snd] in H0. lia.
    + intros q Hq. cbn [set_db db]. rewrite createOrUpdateSession_write_count.
      destruct l as [|sid eid [i cursorLog|]]; try lia.
      simpl in Hq. rewrite same_pair_other; [lia|]. destruct q. simpl. congruence.
Qed.

Lemma schedule_keeps schedule : forall s,
  serial schedule s = true -> phase_Inv s -> phase_Inv (fst (phase_run schedule s)).
Proof.
  induction schedule as [|p rest IH]; intros s Hs Hi; simpl; auto.
  simpl in Hs. apply andb_prop in Hs as [Ho Hs]. apply negb_true_iff in Ho.
  apply IH; auto. now apply phase_keeps.
Qed.

Lemma serial_prefix schedule : forall k s,
  serial schedule s = true -> serial (firstn k schedule) s = true.
Proof.
  induction schedule as [|p rest IH]; intros [|k] s Hs; simpl; auto.
  simpl in Hs. apply andb_prop in Hs as [Ho Hs]. rewrite Ho. simpl. auto.
Qed.

Lemma quiet_phase_Inv : phase_Inv quiet.
Proof.
  split; [apply single_active_empty|]. split; [intros a b q []|intros a q []].
Qed.

(** A schedule without overlap leaves every pair one active row at most, at
    every point of the schedule. *)
Lemma serial_single_active schedule k :
  serial schedule quiet = true ->
  single_active (db (server (fst (phase_run (firstn k schedule) quiet)))).
Proof.
  intros Hs. apply (schedule_keeps (firstn k schedule) quiet).
  - now apply serial_prefix.
  - apply quiet_phase_Inv.
Qed.

(** A run of whole handlers is a schedule without overlap. *)
Lemma whole_handlers inputs : forall s,
  awaiting s = [] ->
  serial (map Whole inputs) s = true
  /\ server (fst (phase_run (map Whole inputs) s)) = fst (run inputs (server s)).
Proof.
  induction inputs as [|i rest IH]; intros s Hs; simpl; auto.
  destruct (IH (mkInterleaved (fst (step i (server s))) (awaiting s)) Hs) as [H1 H2].
  split; [|exact H2].
  rewrite H1, andb_true_r. unfold overlaps. rewrite Hs.
  now destruct (starts (Whole i)).
Qed.

End DashboardPhases.

(** ** Both models *)

Module SessionFacts.
Import Collection CollectionFacts.

(** Where the event lookup happens.  [start-session] and the join handler of
    the flat server look the event up first: for an unknown event the route
    answers 404 "Event not found" (403 for an event that is not public) and
    the handler emits the error "Event not found", and nothing changes.  The
    join handler and [createOrUpdateSession] of the nested model consult no
    event collection: they refuse only a missing (empty) event id, and for
    any other id they create the session log of a pair that has no active
    row. *)
Lemma event_lookup_only_in_flat_server :
  (forall isMongoId isIP events now b rows,
     Backend.valid_start_session isMongoId isIP b = true ->
     Backend.Event_findById events (Backend.ss_eventId b) = None ->
     Backend.start_session isMongoId isIP events now b rows
     = (Backend.NotFound "Event not found", rows))
  /\ (forall isMongoId isIP events now b rows event,
        Backend.valid_start_session isMongoId isIP b = true ->
        Backend.Event_findById events (Backend.ss_eventId b) = Some event ->
        Backend.ev_isPublic event = false ->
        Backend.start_session isMongoId isIP events now b rows
        = (Backend.Forbidden "Event is not public", rows))
  /\ (forall events now sid data st eid uid s,
        Backend.connected sid st = true ->
        Runtime.truthy_value (Backend.jd_eventId data) = Some eid ->
        Runtime.truthy_value (Backend.jd_userId data) = Some uid ->
        Runtime.truthy_value (Backend.jd_sessionId data) = Some s ->
        Backend.Event_findById events eid = None ->
        Backend.join_event events now sid data st
        = (st, [Backend.emit (Backend.adapter st) (Backend.SocketSelf sid)
                  (Backend.socket_error "Event not found")]))
  /\ (forall now sid data st c eid,
        Runtime.lookup sid (Dashboard.conns st) = Some c ->
        Runtime.truthy_value (Dashboard.jd_eventId data) = Some eid ->
        countDocuments (Dashboard.by_active_pair sid eid) (Dashboard.db st) = 0%nat ->
        exists row,
          Dashboard.db (fst (Dashboard.join_event now sid data st))
          = Dashboard.db st ++ [row]
          /\ Dashboard.sessionId row = sid /\ Dashboard.eventId row = eid
          /\ Dashboard.isActive (Dashboard.sessionMetrics row) = true
          /\ Forall (fun e => forall m, Dashboard.em_message e <> Dashboard.error m)
               (snd (Dashboard.join_event now sid data st)))
  /\ (forall now sid data st c,
        Runtime.lookup sid (Dashboard.conns st) = Some c ->
        Runtime.truthy_value (Dashboard.jd_eventId data) = None ->
        Dashboard.join_event now sid data st
        = (st, [Dashboard.emit (Dashboard.rooms st) (Dashboard.SocketSelf sid)
                  (Dashboard.error "Event ID is required")]))
  /\ (forall now user ip b rows sid eid,
        Runtime.truthy_value (Dashboard.sb_sessionId b) = Some sid ->
        Runtime.truthy_value (Dashboard.sb_eventId b) = Some eid ->
        countDocuments (Dashboard.by_active_pair sid eid) rows = 0%nat ->
        exists row,
          Dashboard.createOrUpdateSession now user ip b rows
          = (Dashboard.Success sid eid now, rows ++ [row])
          /\ Dashboard.sessionId row = sid /\ Dashboard.eventId row = eid
          /\ Dashboard.isActive (Dashboard.sessionMetrics row) = true).
Proof.
  split; [|split; [|split; [|split; [|split]]]].
  - intros isMongoId isIP events now b rows Hv He.
    unfold Backend.start_session. now rewrite Hv, He.
  - intros isMongoId isIP events now b rows event Hv He Hp.
    unfold Backend.start_session. now rewrite Hv, He, Hp.
  - intros events now sid data st eid uid s Hc He Hu Hs Hnone.
    unfold Backend.join_event. now rewrite Hc, He, Hu, Hs, Hnone.
  - intros now sid data st c eid Hc He H0.
    destruct (DashboardFacts.join_event_creates now sid data st c eid Hc He H0)
      as [Hdb Hout].
    eexists. split; [exact Hdb|]. repeat split. exact Hout.
  - intros. now apply DashboardFacts.join_event_requires_id with (c := c).
  - intros. now apply DashboardFacts.createOrUpdateSession_creates.
Qed.

(** C3, at the failing input.  A visitor joins an event that no event
    collection knows of.  The join handler of the nested model creates an
    active session log for it and answers that the event was joined, without
    any error; [createOrUpdateSession] creates one as well.  For the same
    event id, [start-session] of the flat model answers 404 "Event not
    found" and its join handler emits the error "Event not found". *)
Theorem join_unknown_event_creates_log :
  let ghost := "ffffffffffffffffffffffff" in
  let st := Dashboard.connection 0 "socket_1" None "10.0.0.1" Dashboard.initial in
  let joined := Dashboard.join_event 1 "socket_1" (Dashboard.join_data ghost) st in
  let posted := Dashboard.createOrUpdateSession 1 None "10.0.0.1"
                  (Dashboard.mkSessionBody (Some "session_9") (Some ghost)
                     None None None None) [] in
  Backend.Event_findById Backend.sample_events ghost = None
  /\ map (fun d => (Dashboard.sessionId d, Dashboard.eventId d,
                    Dashboard.isActive (Dashboard.sessionMetrics d)))
         (Dashboard.db (fst joined))
     = [("socket_1", ghost, true)]
  /\ map Dashboard.em_message (snd joined)
     = [Dashboard.user_joined "socket_1" None 1;
        Dashboard.active_users [];
        Dashboard.joined_event ghost "socket_1" 1]
  /\ fst posted = Dashboard.Success "session_9" ghost 1
  /\ map Dashboard.eventId (snd posted) = [ghost]
  /\ Backend.start_session hex24 Backend.no_ip Backend.sample_events 1
       (Backend.mkStartSessionBody ghost "user_001" "session_001" None None None None) []
     = (Backend.NotFound "Event not found", [])
  /\ map Backend.em_notice
         (snd (Backend.join_event Backend.sample_events 1 "socket_1"
                 (Backend.mkJoinData (Some ghost) (Some "user_001") (Some "session_001"))
                 (fst (Backend.step hex24 Backend.no_ip Backend.sample_events
                         (Backend.OnConnection "socket_1") Backend.initial))))
     = [Backend.socket_error "Event not found"].
Proof. repeat split. Qed.




(** The room property of the specification fails in both servers.  In the
    nested one, joining the room it is already in is not a no-op for the
    peers: the other visitor of the room is told that the socket left and
    that it joined.  In the flat one, a socket that joins a second event
    stays in the room of the first, and no departure is sent. *)
Lemma join_counterexample :
  let st := fst (Dashboard.run Dashboard.two_visitors Dashboard.initial) in
  let r := Dashboard.join_event 3 "socket_1"
             (Dashboard.join_data Dashboard.tech_conference) st in
  let flat := Backend.run hex24 Backend.no_ip Backend.two_events
                Backend.wandering_visitor Backend.initial in
  Runtime.rooms_of "socket_1" (Dashboard.rooms st) = [Dashboard.tech_conference]
  /\ map (fun e => (Dashboard.em_recipients e, Dashboard.em_message e)) (snd r)
     = [(["socket_2"], Dashboard.user_left "socket_1" None);
        (["socket_2"], Dashboard.user_joined "socket_1" None 3);
        (["socket_1"],
         Dashboard.active_users [Dashboard.mkActiveUser "socket_2" None 0]);
        (["socket_1"], Dashboard.joined_event Dashboard.tech_conference "socket_1" 2)]
  /\ Runtime.rooms_of "socket_1" (Backend.adapter (fst flat))
     = [Backend.tech_conference; Backend.music_festival]
  /\ map Backend.em_notice (snd flat)
     = [Backend.user_joined "user_001" "session_001" 1;
        Backend.active_users_update Backend.tech_conference 1 1;
        Backend.user_joined "user_001" "session_002" 2;
        Backend.active_users_update Backend.music_festival 1 2].
Proof. repeat split. Qed.

End SessionFacts.

(** ** More of the flat server *)

Module BackendMore.
Import Collection CollectionFacts Runtime Backend BackendFacts.

Lemma skipn_snoc {A} k (l : list A) a :
  (k <= length l)%nat -> skipn k (l ++ [a]) = skipn k l ++ [a].
Proof.
  revert k. induction l as [|x l IH]; intros [|k] H; simpl in *; auto; try lia.
  apply IH. lia.
Qed.


Lemma round_seconds_bounds ms :
  1000 * round_seconds ms - 500 <= ms < 1000 * round_seconds ms + 500.
Proof.
  unfold round_seconds.
  pose proof (Z.div_mod (ms + 500) 1000 ltac:(lia)).
  pose proof (Z.mod_pos_bound (ms + 500) 1000 ltac:(lia)). lia.
Qed.

(** X2. Ending a session of the flat model stores the time of the call as its
    end, marks it inactive and stores as [totalDuration] the length of the
    session rounded to the nearest second (half a second rounds up); the
    duration is negative only for a session that starts more than half a
    second after it ends; the logged arrays and the start are untouched. *)
Theorem flat_duration_rounds_to_nearest_second now d :
  exists secs,
    totalDuration (endSession now d) = Some secs
    /\ sessionEnd (endSession now d) = Some now
    /\ isActive (endSession now d) = false
    /\ 1000 * secs - 500 <= now - sessionStart d < 1000 * secs + 500
    /\ (0 <= secs <-> sessionStart d - 500 <= now)
    /\ sessionStart (endSession now d) = sessionStart d
    /\ cursorData (endSession now d) = cursorData d
    /\ interactions (endSession now d) = interactions d
    /\ pageViews (endSession now d) = pageViews d.
Proof.
  exists (round_seconds (now - sessionStart d)).
  pose proof (round_seconds_bounds (now - sessionStart d)).
  repeat split; auto; try lia.
Qed.

(** X3. A closed session takes no more data.  After [end-session] has ended
    the one active row of a pair, a movement, an interaction or a page view
    sent for that pair is refused (404, or 400 for a malformed body) and the
    collection stays as [end-session] left it. *)
Theorem closed_session_rejects_tracking isMongoId now0 eb rows msg dur rows1 :
  (countDocuments (by_active_pair (es_eventId eb) (es_sessionId eb)) rows <= 1)%nat ->
  end_session isMongoId now0 eb rows = (OkEnded msg dur, rows1) ->
  (forall now b,
     mv_eventId b = es_eventId eb -> mv_sessionId b = es_sessionId eb ->
     reports_success (fst (movement isMongoId now b rows1)) = false
     /\ snd (movement isMongoId now b rows1) = rows1)
  /\ (forall now b,
        ib_eventId b = es_eventId eb -> ib_sessionId b = es_sessionId eb ->
        reports_success (fst (interaction isMongoId now b rows1)) = false
        /\ snd (interaction isMongoId now b rows1) = rows1)
  /\ (forall now b,
        pb_eventId b = es_eventId eb -> pb_sessionId b = es_sessionId eb ->
        reports_success (fst (page_view isMongoId now b rows1)) = false
        /\ snd (page_view isMongoId now b rows1) = rows1).
Proof.
  intros Hone Hend.
  assert (Hnone : findOne (by_active_pair (es_eventId eb) (es_sessionId eb)) rows1 = None).
  { unfold end_session in Hend.
    destruct (valid_end_session isMongoId eb); simpl in Hend; [|discriminate].
    destruct (findOne _ rows) as [[i c]|] eqn:Hf; [|discriminate].
    inversion Hend; subst; clear Hend.
    destruct (findOne_split _ _ _ _ Hf) as (before & after & -> & -> & Hc & Hb).
    rewrite save_split. apply findOne_none_of_count.
    rewrite countDocuments_app, countDocuments_cons, Hc in Hone.
    rewrite countDocuments_app, countDocuments_cons, (countDocuments_none _ before Hb).
    unfold by_active_pair at 1. rewrite endSession_inactive, andb_false_r. lia. }
  split; [|split]; intros now b He Hs.
  - unfold movement. destruct (valid_movement isMongoId b); simpl; auto.
    rewrite He, Hs, Hnone. auto.
  - unfold interaction. destruct (valid_interaction isMongoId b); simpl; auto.
    rewrite He, Hs, Hnone. auto.
  - unfold page_view. destruct (valid_page_view isMongoId b); simpl; auto.
    rewrite He, Hs, Hnone. auto.
Qed.

Lemma closed_session_rejects_tracking_witness :
  let rows := snd (start_session hex24 no_ip sample_events 1000 sample_start []) in
  let rows1 := snd (end_session hex24 61000 sample_end rows) in
  movement hex24 62000
    (mkMovementBody tech_conference "session_001" 10 20 None None) rows1
  = (NotFound "Active session not found", rows1).
Proof.
  intros rows rows1.
  destruct (closed_session_rejects_tracking hex24 61000 sample_end rows
              "Session ended successfully" (Some 60) rows1) as [H _].
  - vm_compute. lia.
  - reflexivity.
  - destruct (H 62000 (mkMovementBody tech_conference "session_001" 10 20 None None)
                eq_refl eq_refl) as [_ Hrows].
    rewrite (surjective_pairing (movement _ _ _ _)). rewrite Hrows. reflexivity.
Defined.

Lemma map_save_same {B} (f : CursorLog -> B) p rows i d d' :
  findOne p rows = Some (i, d) -> f d' = f d ->
  map f (save i d' rows) = map f rows.
Proof.
  intros Hf Hd. destruct (findOne_split _ _ _ _ Hf) as (b & a & -> & -> & _).
  rewrite save_split, !map_app. simpl. now rewrite Hd.
Qed.

Lemma addCursorMovement_frame now x y action element d :
  select_info (addCursorMovement now x y action element d) = select_info d
  /\ interactions (addCursorMovement now x y action element d) = interactions d
  /\ pageViews (addCursorMovement now x y action element d) = pageViews d.
Proof. unfold addCursorMovement. destruct (_ <? _)%nat; auto. Qed.

(** X4. The logging routes change nothing but the array they log into.
    Whatever the body, [movement] leaves the identity, timing, activity and
    context of every row and all interactions and page views as they were;
    [interaction] leaves them and all cursor samples and page views;
    [page-view] leaves them and all cursor samples and interactions; and none
    of them adds or removes a row. *)
Theorem logging_routes_frame isMongoId now rows :
  (forall b,
     let rows' := snd (movement isMongoId now b rows) in
     map select_info rows' = map select_info rows
     /\ map interactions rows' = map interactions rows
     /\ map pageViews rows' = map pageViews rows)
  /\ (forall b,
        let rows' := snd (interaction isMongoId now b rows) in
        map select_info rows' = map select_info rows
        /\ map cursorData rows' = map cursorData rows
        /\ map pageViews rows' = map pageViews rows)
  /\ (forall b,
        let rows' := snd (page_view isMongoId now b rows) in
        map select_info rows' = map select_info rows
        /\ map cursorData rows' = map cursorData rows
        /\ map interactions rows' = map interactions rows).
Proof.
  split; [|split]; intros b rows'; unfold rows'.
  - unfold movement. destruct (valid_movement isMongoId b); simpl; auto.
    destruct (findOne _ rows) as [[i d]|] eqn:Hf; simpl; auto.
    destruct (addCursorMovement_frame now (mv_x b) (mv_y b)
                (match mv_action b with Some a => a | None => move end)
                (mv_element b) d) as (H1 & H2 & H3).
    repeat split; eapply map_save_same; eauto.
  - unfold interaction. destruct (valid_interaction isMongoId b); simpl; auto.
    destruct (findOne _ rows) as [[i d]|] eqn:Hf; simpl; auto.
    repeat split; eapply map_save_same; eauto.
  - unfold page_view. destruct (valid_page_view isMongoId b); simpl; auto.
    destruct (findOne _ rows) as [[i d]|] eqn:Hf; simpl; auto.
    repeat split; eapply map_save_same; eauto.
Qed.

(** *** The listing of an event's sessions *)

Lemma insert_newest_perm d l : Permutation (insert_newest d l) (d :: l).
Proof.
  induction l as [|a l IH]; simpl; auto.
  destruct (sessionStart a <=? sessionStart d); auto.
  rewrite IH. apply perm_swap.
Qed.

Lemma sort_newest_perm rows : Permutation (sort_newest rows) rows.
Proof.
  induction rows as [|a rows IH]; simpl; auto.
  rewrite insert_newest_perm. now constructor.
Qed.

Lemma sort_newest_sorted rows :
  StronglySorted (fun a b => sessionStart b <= sessionStart a) (sort_newest rows).
Proof.
  induction rows as [|d rows IH]; simpl; [constructor|].
  induction IH as [|a l Hs IHs Hall]; simpl.
  - repeat constructor.
  - destruct (Z.leb_spec (sessionStart a) (sessionStart d)).
    + constructor; [constructor; auto|]. constructor; [lia|].
      eapply Forall_impl; [|exact Hall]. simpl. intros; lia.
    + constructor; auto.
      eapply Permutation_Forall; [symmetry; apply insert_newest_perm|].
      constructor; auto. lia.
Qed.

Lemma pages_concat {A} (n : nat) (l : list A) : forall k,
  flat_map (fun i => firstn n (skipn (i * n) l)) (seq 0 k) = firstn (k * n) l.
Proof.
  induction k as [|k IH]; [reflexivity|].
  rewrite seq_S, flat_map_app, IH. simpl. rewrite app_nil_r.
  rewrite <- (firstn_skipn (k * n) (firstn (n + k * n) l)).
  f_equal.
  - rewrite firstn_firstn. f_equal. lia.
  - rewrite skipn_firstn_comm. f_equal. lia.
Qed.

Lemma ceil_div_covers total n :
  (0 < n)%nat -> (total <= (total + n - 1) / n * n)%nat.
Proof.
  intros Hn. pose proof (Nat.div_mod_eq (total + n - 1) n).
  pose proof (Nat.mod_upper_bound (total + n - 1) n). nia.
Qed.

Lemma ceil_div_tight total n :
  (0 < n)%nat -> (0 < total)%nat -> (((total + n - 1) / n - 1) * n < total)%nat.
Proof.
  intros Hn Ht. pose proof (Nat.div_mod_eq (total + n - 1) n).
  pose proof (Nat.mod_upper_bound (total + n - 1) n). nia.
Qed.

Lemma flat_map_map_S {B} (f : nat -> list B) k :
  flat_map f (seq 1 k) = flat_map (fun j => f (S j)) (seq 0 k).
Proof.
  rewrite <- seq_shift. induction (seq 0 k) as [|a l IH]; simpl; auto.
  now rewrite IH.
Qed.

Lemma flat_map_map_inner {A B C} (g : B -> C) (h : A -> list B) l :
  flat_map (fun a => map g (h a)) l = map g (flat_map h l).
Proof.
  induction l as [|a l IH]; simpl; auto. now rewrite IH, map_app.
Qed.

(** X5. The listing of an event's sessions pages through all of them, newest
    first.  For an event that exists and a page size [limit]: the rows of the
    event are listed by [sessionStart] descending; page [p] holds the rows
    from position [(p - 1) * limit] on, at most [limit] of them, and is empty
    exactly when the event has no more than [(p - 1) * limit] rows;
    [hasNextPage] is true exactly when rows remain after page [p]; and pages
    1 to [totalPages], one after the other, are the whole listing, each row
    once. *)
Theorem event_sessions_pages events eid limit rows event :
  Event_findById events eid = Some event ->
  let n := Pos.to_nat limit in
  let all := sort_newest (filter (of_event eid) rows) in
  let page p := event_sessions events eid (Some p) (Some limit) rows in
  let pages := ((length all + n - 1) / n)%nat in
  Permutation all (filter (of_event eid) rows)
  /\ StronglySorted newest_first all
  /\ (forall p,
        page p
        = ListingOk (map select_info (firstn n (skipn ((Pos.to_nat p - 1) * n) all)))
            (mkPagination p pages (length all)
               (Pos.to_nat p <? pages)%nat (1 <? Pos.to_nat p)%nat)
        /\ (length (listed_sessions (page p)) <= n)%nat
        /\ ((Pos.to_nat p <? pages)%nat = true <-> (Pos.to_nat p * n < length all)%nat)
        /\ (listed_sessions (page p) = [] <-> (length all <= (Pos.to_nat p - 1) * n)%nat))
  /\ flat_map (fun i => listed_sessions (page (Pos.of_nat i))) (seq 1 pages)
     = map select_info all.
Proof.
  intros He n all page pages.
  assert (Hn : (0 < n)%nat) by apply Pos2Nat.is_pos.
  assert (Hlen : countDocuments (of_event eid) rows = length all).
  { unfold countDocuments, all. symmetry. apply Permutation_length, sort_newest_perm. }
  assert (Hpage : forall p,
    page p
    = ListingOk (map select_info (firstn n (skipn ((Pos.to_nat p - 1) * n) all)))
        (mkPagination p pages (length all)
           (Pos.to_nat p <? pages)%nat (1 <? Pos.to_nat p)%nat)).
  { intros p. unfold page, event_sessions. rewrite He, Hlen. reflexivity. }
  split; [apply sort_newest_perm|]. split; [apply sort_newest_sorted|]. split.
  - intros p. split; [apply Hpage|]. rewrite Hpage. simpl.
    rewrite length_map, length_firstn, length_skipn.
    split; [lia|]. split.
    + rewrite Nat.ltb_lt. unfold pages.
      pose proof (Nat.div_mod_eq (length all + n - 1) n).
      pose proof (Nat.mod_upper_bound (length all + n - 1) n).
      split; intros; nia.
    + split.
      * intros H. apply (f_equal (@length _)) in H.
        rewrite length_map, length_firstn, length_skipn in H. simpl in H. lia.
      * intros H. apply length_zero_iff_nil.
        rewrite length_map, length_firstn, length_skipn. lia.
  - rewrite flat_map_map_S.
    erewrite flat_map_ext.
    2:{ intros j. rewrite Hpage. cbn [listed_sessions].
        rewrite Nat2Pos.id by discriminate.
        replace (S j - 1)%nat with j by lia. reflexivity. }
    rewrite flat_map_map_inner, pages_concat. f_equal.
    apply firstn_all2. unfold pages. apply ceil_div_covers. exact Hn.
Qed.

Lemma event_sessions_pages_witness :
  let rows := db (fst (run hex24 no_ip sample_events
                         [OnRequest (PostStartSession 1000 sample_start);
                          OnRequest (PostStartSession 2000
                            (mkStartSessionBody tech_conference "user_002" "session_002"
                               None None None None));
                          OnRequest (PostStartSession 3000
                            (mkStartSessionBody tech_conference "user_003" "session_003"
                               None None None None))]
                         initial)) in
  map si_sessionId
    (listed_sessions (event_sessions sample_events tech_conference (Some 1%positive)
                        (Some 2%positive) rows))
  = ["session_003"; "session_002"]
  /\ map si_sessionId
       (listed_sessions (event_sessions sample_events tech_conference (Some 2%positive)
                           (Some 2%positive) rows))
     = ["session_001"]
  /\ flat_map
       (fun i => listed_sessions
                   (event_sessions sample_events tech_conference (Some (Pos.of_nat i))
                      (Some 2%positive) rows))
       (seq 1 2)
     = map select_info (sort_newest (filter (of_event tech_conference) rows)).
Proof.
  intros rows. split; [reflexivity|]. split; [reflexivity|].
  destruct (event_sessions_pages sample_events tech_conference 2%positive rows
              (mkEvent tech_conference true) eq_refl) as (_ & _ & _ & H).
  exact H.
Defined.

(** *** Event analytics *)

Lemma distinct_strings_length l :
  (length (Mongo.distinct_strings l) <= length l)%nat.
Proof.
  induction l as [|x l IH]; simpl; auto.
  pose proof (filter_length_le (fun y => negb (y =? x)%string) (Mongo.distinct_strings l)).
  lia.
Qed.

Lemma list_sum_capped (rows : list CursorLog) :
  Forall (fun d => (length (cursorData d) <= 1000)%nat) rows ->
  (list_sum (map (fun d => length (cursorData d)) rows) <= 1000 * length rows)%nat.
Proof. induction 1; simpl; lia. Qed.

Lemma Forall_filter {A} (P : A -> Prop) f l : Forall P l -> Forall P (filter f l).
Proof.
  intros H. apply Forall_forall. intros x Hx. apply filter_In in Hx as [Hx _].
  revert x Hx. now apply Forall_forall.
Qed.


(** *** The socket handlers of the flat server *)

Lemma same_connection_refl c : same_connection c c = true.
Proof.
  unfold same_connection. now rewrite !String.eqb_refl, Z.eqb_refl.
Qed.

Lemma connection_for_lookup sid eventId st connection :
  connection_for sid eventId st = Some connection ->
  lookup sid (activeConnections st) = Some connection
  /\ cn_eventId connection = eventId.
Proof.
  unfold connection_for. destruct (lookup sid (activeConnections st)) as [c|];
    [|discriminate].
  destruct (String.eqb_spec (cn_eventId c) eventId); [|discriminate].
  intros H. inversion H. subst. auto.
Qed.

(** A move received once the previous one has settled, and at most 1000 ms
    after it, does not pass the throttle. *)
Lemma settled_move_throttles answered pending st connection now' data' :
  lookup (pm_socket pending) (activeConnections st) = Some connection ->
  same_connection connection (pm_connection pending) = true ->
  now' - pm_now pending <= 1000 ->
  snd (cursor_move_receive now' (pm_socket pending) data'
         (cursor_move_settle answered pending st)) = None.
Proof.
  intros Hl Hsame Hlt. unfold cursor_move_receive.
  destruct (connected _ _); simpl; auto.
  destruct (truthy_value (md_eventId data')) as [eventId|]; simpl; auto.
  destruct (truthy_value (md_userId data')) as [userId|]; simpl; auto.
  destruct (truthy_value (md_sessionId data')) as [sessionId|]; simpl; auto.
  destruct (md_x data') as [x|]; simpl; auto.
  destruct (md_y data') as [y|]; simpl; auto.
  unfold connection_for, cursor_move_settle. cbn [activeConnections].
  rewrite Hl, Hsame, DashboardFacts.lookup_assign_same. cbn [cn_eventId cn_lastCursorLog].
  destruct (cn_eventId connection =? eventId)%string; simpl; auto.
  destruct (Z.ltb_spec 1000 (now' - pm_now pending)); [lia|reflexivity].
Qed.

(** X7. The throttle of [cursor-move], whose test comes before the handler
    waits for the store and whose [lastCursorLog] is set after the store has
    written.  A move that does not pass the test is only broadcast.  A move
    that passes it at [now] - the socket has a connection for the event and
    the last logged move is more than 1000 ms old - is logged when the store
    answers, and [lastCursorLog] becomes [now] on the connection the handler
    read; run without interruption, that is the whole handler.  Once it has
    settled, while the map holds that connection, a move received at most
    1000 ms after [now] does not pass.  Until it settles the state is
    untouched, and every later move of the socket for the event passes as
    well: two moves 100 ms apart that are both received before the first
    settles are both logged, where one is logged when each handler runs to
    its end before the next. *)
Theorem cursor_move_throttle now sid data st :
  let r := cursor_move_receive now sid data st in
  match snd r with
  | None => cursor_move now sid data st = (st, fst r)
  | Some pending =>
    (pm_socket pending = sid /\ pm_now pending = now
     /\ connection_for sid (pm_eventId pending) st = Some (pm_connection pending)
     /\ 1000 < now - match cn_lastCursorLog (pm_connection pending) with
                     | Some t => t
                     | None => 0
                     end)
    /\ cursor_move now sid data st = (cursor_move_settle now pending st, fst r)
    /\ (forall answered st' connection now' data',
          lookup sid (activeConnections st') = Some connection ->
          same_connection connection (pm_connection pending) = true ->
          now' - now <= 1000 ->
          snd (cursor_move_receive now' sid data'
                 (cursor_move_settle answered pending st')) = None)
    /\ (forall now' data',
          now <= now' ->
          truthy_value (md_eventId data') = Some (pm_eventId pending) ->
          truthy_value (md_userId data') <> None ->
          truthy_value (md_sessionId data') <> None ->
          md_x data' <> None -> md_y data' <> None ->
          snd (cursor_move_receive now' sid data' st) <> None)
  end
  /\ (let st0 := fst (run hex24 no_ip sample_events
                        [OnRequest (PostStartSession 1000 sample_start);
                         OnConnection "socket_1";
                         OnJoinEvent 2000 "socket_1"
                           (mkJoinData (Some tech_conference) (Some "user_001")
                              (Some "session_001"))] initial) in
      let move x := mkMoveData (Some tech_conference) (Some "user_001")
                      (Some "session_001") (Some x) (Some 5%Q) None None in
      let logged st := map (fun d => map (fun c => (cs_x c, cs_timestamp c)) (cursorData d))
                         (db st) in
      let settle answered received st :=
        match snd received with
        | Some pending => cursor_move_settle answered pending st
        | None => st
        end in
      let first := cursor_move_receive 3000 "socket_1" (move 10%Q) st0 in
      let second := cursor_move_receive 3100 "socket_1" (move 20%Q) st0 in
      logged (settle 3300 second (settle 3200 first st0))
      = [[(10%Q, 3200); (20%Q, 3300)]]
      /\ logged (fst (run hex24 no_ip sample_events
                        [OnCursorMove 3000 "socket_1" (move 10%Q);
                         OnCursorMove 3100 "socket_1" (move 20%Q)] st0))
         = [[(10%Q, 3000)]]).
Proof.
  intros r. split; [|split; reflexivity].
  unfold r, cursor_move_receive, cursor_move.
  destruct (connected sid st) eqn:Hconn; simpl; auto.
  destruct (truthy_value (md_eventId data)) as [eventId|] eqn:He; simpl; auto.
  destruct (truthy_value (md_userId data)) as [userId|] eqn:Hu; simpl; auto.
  destruct (truthy_value (md_sessionId data)) as [sessionId|] eqn:Hs; simpl; auto.
  destruct (md_x data) as [x|] eqn:Hx; simpl; auto.
  destruct (md_y data) as [y|] eqn:Hy; simpl; auto.
  destruct (connection_for sid eventId st) as [connection|] eqn:Hc; simpl; auto.
  destruct (Z.ltb_spec 1000
              (now - match cn_lastCursorLog connection with Some t => t | None => 0 end))
    as [Hpass|Hpass]; simpl; auto.
  destruct (connection_for_lookup _ _ _ _ Hc) as [Hl Hev].
  split; [auto|]. split; [|split].
  - unfold cursor_move_settle. cbn [pm_socket pm_connection pm_eventId pm_sessionId
      pm_x pm_y pm_action pm_element pm_now].
    now rewrite Hl, same_connection_refl.
  - intros answered st' connection' now' data' Hl' Hsame Hlt.
    apply (settled_move_throttles answered
             (mkPendingMove sid connection eventId sessionId x y
                match md_action data with Some a => a | None => move end
                (md_element data) now) st' connection' now' data'); auto.
  - intros now' data' Hle He' Hu' Hs' Hx' Hy'. unfold cursor_move_receive.
    rewrite ?Hconn. simpl. rewrite He'.
    destruct (truthy_value (md_userId data')); [|congruence].
    destruct (truthy_value (md_sessionId data')); [|congruence].
    destruct (md_x data'); [|congruence]. destruct (md_y data'); [|congruence].
    rewrite Hc.
    destruct (Z.ltb_spec 1000
                (now' - match cn_lastCursorLog connection with
                        | Some t => t
                        | None => 0
                        end)); [discriminate|lia].
Qed.

Lemma map_unmatched {A} (p : A -> bool) (g : A -> A) l :
  forallb (fun x => negb (p x)) l = true ->
  map (fun d => if p d then g d else d) l = l.
Proof.
  induction l as [|x l IH]; simpl; auto.
  destruct (p x); simpl; [discriminate|]. intros H. now rewrite IH.
Qed.

Lemma forallb_of_count {A} (p : A -> bool) l :
  countDocuments p l = 0%nat -> forallb (fun x => negb (p x)) l = true.
Proof.
  induction l as [|x l IH]; simpl; auto.
  rewrite countDocuments_cons. destruct (p x); simpl; [discriminate|auto].
Qed.

Lemma forallb_weaken {A} (p q : A -> bool) l :
  (forall d, p d = true -> q d = true) ->
  forallb (fun x => negb (q x)) l = true -> forallb (fun x => negb (p x)) l = true.
Proof.
  intros H. induction l as [|x l IH]; simpl; auto.
  destruct (q x) eqn:Hq; simpl; [discriminate|].
  destruct (p x) eqn:Hp; [rewrite (H _ Hp) in Hq; discriminate|auto].
Qed.

(** With one row per pair, ending the active row of a pair is ending every
    row that is active for the pair. *)
Lemma update_active_endSession eid s now rows :
  unique_pairs rows ->
  update_active eid s (endSession now) rows
  = map (fun d => if by_active_pair eid s d then endSession now d else d) rows.
Proof.
  intros Hu. unfold update_active.
  destruct (findOne _ rows) as [[i d]|] eqn:Hf.
  - destruct (findOne_split _ _ _ _ Hf) as (b & a & -> & -> & Hd & Hb).
    rewrite save_split, map_app. simpl. rewrite Hd.
    rewrite (map_unmatched _ _ b Hb).
    specialize (Hu eid s). rewrite countDocuments_app, countDocuments_cons in Hu.
    assert (Hp : by_pair eid s d = true)
      by (unfold by_active_pair in Hd; now apply andb_prop in Hd).
    rewrite Hp in Hu.
    rewrite (map_unmatched _ _ a); auto.
    apply (forallb_weaken _ (by_pair eid s)).
    + intros x Hx. unfold by_active_pair in Hx. now apply andb_prop in Hx.
    + apply forallb_of_count. lia.
  - apply findOne_None in Hf. symmetry. apply map_unmatched.
    apply forallb_of_count. unfold countDocuments. now rewrite Hf.
Qed.

Lemma connected_set_delete sid l :
  existsb (fun s => (s =? sid)%string) (set_delete sid l) = false.
Proof.
  unfold set_delete. induction l as [|x l IH]; simpl; auto.
  destruct (String.eqb_spec x sid); simpl; auto.
  destruct (String.eqb_spec x sid); [contradiction|exact IH].
Qed.



End BackendMore.

(** ** More of the nested server *)

Module DashboardMore.
Import Collection CollectionFacts Runtime Dashboard DashboardFacts.

(** *** Properties of the logs the socket handlers write *)

Section TrackedLogs.
(** A property of session logs kept by every write of the server, the
    cursor samples being recorded as [move] or as [click] only. *)
Variable P : CursorLog -> Prop.
Hypothesis P_new : forall now sid uid eid ua ip loc dev,
  P (new_CursorLog now sid uid eid ua ip loc dev).
Hypothesis P_move : forall now x y page element d,
  P d -> P (addCursorMovement now x y page element move d).
Hypothesis P_click : forall now x y page element d,
  P d -> P (addCursorMovement now x y page element click d).
Hypothesis P_addHoverData : forall now x y dur page d,
  P d -> P (addHoverData now x y dur page d).
Hypothesis P_updateScrollDepth : forall now page depth d,
  P d -> P (updateScrollDepth now page depth d).
Hypothesis P_addPageVisit : forall now page timeSpent d,
  P d -> P (addPageVisit now page timeSpent d).
Hypothesis P_endSession : forall now d, P d -> P (endSession now d).
Hypothesis P_lastActivity : forall now d,
  P d -> P (set_sessionMetrics (set_lastActivity now (sessionMetrics d)) d).

Lemma step_tracked i st : Forall P (db st) -> Forall P (db (fst (step i st))).
Proof.
  intros H. destruct i; simpl; auto.
  - unfold join_event. destruct (lookup sid (conns st)) as [c|]; auto.
    destruct (truthy_value (jd_eventId data)); auto. simpl.
    destruct (findOne _ (db st)); auto. now apply Forall_create.
  - unfold cursor_move. destruct (lookup sid (conns st)) as [c|]; auto.
    destruct (current_room _ _); auto.
    destruct (Qgt_bool _ _); simpl; auto. apply persist_Forall; auto.
  - unfold cursor_click_handler. destruct (lookup sid (conns st)) as [c|]; auto.
    destruct (current_room _ _); auto. simpl. apply persist_Forall; auto.
  - apply logging_handler_Forall; auto.
  - apply logging_handler_Forall; auto.
  - apply logging_handler_Forall; auto.
  - unfold disconnect. destruct (lookup sid (conns st)); auto. simpl.
    unfold disconnect_handler.
    destruct (activeSessions_get _ sid) as [session|]; simpl; auto.
    now apply close_session_Forall.
  - now apply sweep_Forall.
  - unfold createOrUpdateSession.
    destruct (truthy_value (sb_sessionId b)) as [sid|]; auto.
    destruct (truthy_value (sb_eventId b)) as [eid|]; auto.
    destruct (findOne _ (db st)) as [[i cursorLog]|] eqn:Hf; simpl.
    + apply Forall_save; auto. apply P_lastActivity.
      apply (Forall_findOne _ _ _ _ _ H Hf).
    + now apply Forall_create.
Qed.

Lemma run_tracked inputs : forall st,
  Forall P (db st) -> Forall P (db (fst (run inputs st))).
Proof.
  induction inputs as [|i rest IH]; intros st H; simpl; auto.
  apply IH. now apply step_tracked.
Qed.
End TrackedLogs.

Lemma click_samples_app l s :
  filter (fun s => Action_eqb (cs_action s) click) (l ++ [s])
  = filter (fun s => Action_eqb (cs_action s) click) l
    ++ (if Action_eqb (cs_action s) click then [s] else []).
Proof. rewrite filter_app. simpl. now destruct (Action_eqb _ _). Qed.

Lemma counters_agree_frame d d' :
  cursorData d' = cursorData d ->
  clicks (heatmapData d') = clicks (heatmapData d) ->
  totalClicks (sessionMetrics d') = totalClicks (sessionMetrics d) ->
  totalScrolls (sessionMetrics d') = totalScrolls (sessionMetrics d) ->
  counters_agree d -> counters_agree d'.
Proof.
  unfold counters_agree, click_samples. intros -> -> -> ->. auto.
Qed.


Lemma timing_ok_frame d d' :
  createdAt d' = createdAt d ->
  startTime (sessionMetrics d') = startTime (sessionMetrics d) ->
  endTime (sessionMetrics d') = endTime (sessionMetrics d) ->
  duration (sessionMetrics d') = duration (sessionMetrics d) ->
  isActive (sessionMetrics d') = isActive (sessionMetrics d) ->
  timing_ok d -> timing_ok d'.
Proof.
  unfold timing_ok. cbv zeta. intros -> -> -> -> ->. auto.
Qed.

Lemma addCursorMovement_timing now x y page element action d :
  timing_ok d -> timing_ok (addCursorMovement now x y page element action d).
Proof.
  apply timing_ok_frame; unfold addCursorMovement;
    destruct (Action_eqb action click), (Action_eqb action scroll); reflexivity.
Qed.

(** X10. In every state the nested server can reach, every session log
    started when it was created; while it is active it has no end time and
    duration 0; once it is closed it has an end time, and its duration is
    the number of whole seconds from its start to its end (rounded down). *)
Theorem session_timing inputs :
  Forall timing_ok (db (fst (run inputs initial))).
Proof.
  apply run_Forall; [| | | | | | |simpl; constructor].
  - intros. unfold timing_ok. simpl. auto.
  - intros. now apply addCursorMovement_timing.
  - intros. eapply timing_ok_frame; eauto.
  - intros. eapply timing_ok_frame; eauto.
  - intros. eapply timing_ok_frame; eauto.
  - intros now d [Hs _]. unfold timing_ok, endSession, set_sessionMetrics, set_closed.
    cbn [sessionMetrics startTime endTime duration isActive createdAt]. split; auto.
    exists now.
    pose proof (Z.mod_pos_bound (now - startTime (sessionMetrics d)) 1000).
    pose proof (Z.div_mod (now - startTime (sessionMetrics d)) 1000).
    repeat split; lia.
  - intros. eapply timing_ok_frame; eauto.
Qed.

(** *** Page visits *)

Lemma update_first_map {A B} (g : A -> B) (p : A -> bool) f l :
  (forall a, g (f a) = g a) -> map g (update_first p f l) = map g l.
Proof.
  intros Hf. induction l as [|a l IH]; simpl; auto.
  destruct (p a); simpl; [now rewrite Hf | now rewrite IH].
Qed.

Lemma NoDup_snoc {A} (x : A) l : NoDup l -> ~ In x l -> NoDup (l ++ [x]).
Proof.
  intros Hnd Hnot. apply NoDup_rev in Hnd. rewrite <- (rev_involutive (_ ++ _)).
  apply NoDup_rev. rewrite rev_app_distr. simpl. constructor; auto.
  now rewrite <- in_rev.
Qed.

Lemma find_app_other {A} (q : A -> bool) l a :
  q a = false -> find q (l ++ [a]) = find q l.
Proof.
  intros Ha. destruct (find q l) as [e|] eqn:Hf.
  - apply (find_app_some _ _ _ _ Hf).
  - rewrite (find_app_none _ _ _ Hf), Ha. reflexivity.
Qed.

Lemma time_update_first page t l e :
  find (visited page) l = Some e ->
  fold_right Z.add 0
    (map pg_timeSpent
       (update_first (visited page)
          (fun existingPage =>
             mkPageVisit (pg_page existingPage) (pg_timeSpent existingPage + t)
               (pg_visitedAt existingPage)) l))
  = fold_right Z.add 0 (map pg_timeSpent l) + t.
Proof.
  induction l as [|a l IH]; simpl; [discriminate|].
  destruct (visited page a); simpl; intros H.
  - lia.
  - rewrite IH by assumption. lia.
Qed.

Lemma pages_visited_trimmed inputs :
  Forall (fun d => Forall (fun p => trim (pg_page p) = pg_page p)
                     (pagesVisited (sessionMetrics d)))
    (db (fst (run inputs initial))).
Proof.
  apply run_Forall; [| | | | | | |simpl; constructor].
  - intros. simpl. constructor.
  - intros now0 x y page0 element action d0 H. unfold addCursorMovement.
    destruct (Action_eqb action click), (Action_eqb action scroll); exact H.
  - intros. assumption.
  - intros. assumption.
  - intros now0 page0 t0 d0 H. unfold addPageVisit.
    cbn [sessionMetrics set_sessionMetrics pagesVisited set_pagesVisited].
    fold (visited page0).
    destruct (find (visited page0) _) eqn:Hf0.
    + clear Hf0. induction H as [|a l Ha Hl IH]; simpl; [constructor|].
      destruct (visited page0 a); constructor; auto.
    + apply Forall_app. split; auto. constructor; [|constructor].
      apply TrimFacts.trim_idempotent.
  - intros. assumption.
  - intros. assumption.
Qed.

Lemma find_visited_padded page l :
  trim page <> page ->
  Forall (fun p => trim (pg_page p) = pg_page p) l ->
  find (visited page) l = None.
Proof.
  intros Hpad. induction 1 as [|a l Ha Hl IH]; simpl; auto.
  unfold visited at 1. destruct (String.eqb_spec (pg_page a) page); [congruence|auto].
Qed.

(** X11. [addPageVisit] looks a page up under the name it is given and
    stores a new entry under the name trimmed.  After it, the total over all
    pages has grown by exactly the time reported (0 when no time is given),
    and the entries of the pages other than the name given and its trimmed
    form are as before.  When the log has an entry with the name given, the
    time of that entry grows by the time reported, its first visit keeps its
    date, and no entry is added; otherwise one entry is added, for the
    trimmed name, with the time reported and the date of the visit - which
    is the entry of the page when the name given is trimmed.  In every state
    the server can reach, every stored page is trimmed; so a name sent with
    white space around it is never found, and every visit under it adds one
    more entry: two visits of [" home"] leave two entries ["home"]. *)
Theorem page_time_accumulates now page timeSpent d :
  let t := match timeSpent with Some t => t | None => 0 end in
  let d' := addPageVisit now page timeSpent d in
  total_time d' = total_time d + t
  /\ (forall page', page' <> page -> page' <> trim page ->
        time_on page' d' = time_on page' d /\ first_visit page' d' = first_visit page' d)
  /\ match time_on page d with
     | Some old =>
       time_on page d' = Some (old + t)
       /\ first_visit page d' = first_visit page d
       /\ map pg_page (pagesVisited (sessionMetrics d'))
          = map pg_page (pagesVisited (sessionMetrics d))
     | None =>
       pagesVisited (sessionMetrics d')
       = pagesVisited (sessionMetrics d) ++ [mkPageVisit (trim page) t now]
       /\ (trim page = page ->
           time_on page d' = Some t /\ first_visit page d' = Some now)
     end
  /\ (forall inputs,
        Forall (fun d => Forall (fun p => trim (pg_page p) = pg_page p)
                           (pagesVisited (sessionMetrics d)))
          (db (fst (run inputs initial))))
  /\ (forall inputs, trim page <> page ->
        Forall (fun d => time_on page d = None
                         /\ pagesVisited (sessionMetrics (addPageVisit now page timeSpent d))
                            = pagesVisited (sessionMetrics d)
                              ++ [mkPageVisit (trim page) t now])
          (db (fst (run inputs initial))))
  /\ map (fun p => (pg_page p, pg_timeSpent p))
         (pagesVisited
            (sessionMetrics
               (addPageVisit 2 " home" (Some 5) (addPageVisit 1 " home" (Some 3) fresh_log))))
     = [("home", 3); ("home", 5)].
Proof.
  intros t d'.
  assert (Hother : forall page' a, page' <> page -> visited page a = true ->
                                   visited page' a = false).
  { intros page' a Hne Ha. unfold visited in *. apply String.eqb_eq in Ha.
    destruct (String.eqb_spec (pg_page a) page'); congruence. }
  assert (Hsum : forall l : list Z,
            fold_right Z.add 0 (l ++ [t]) = fold_right Z.add 0 l + t).
  { intros l. induction l as [|a l IH]; simpl; lia. }
  split; [|split; [|split; [|split; [|split]]]].
  - unfold d', total_time, addPageVisit.
    cbn [sessionMetrics set_sessionMetrics pagesVisited set_pagesVisited].
    fold (visited page). fold t.
    destruct (find (visited page) (pagesVisited (sessionMetrics d))) as [e|] eqn:Hf.
    + now apply time_update_first with (e := e).
    + rewrite map_app. apply Hsum.
  - intros page' Hne Hne'.
    unfold d', time_on, first_visit, addPageVisit.
    cbn [sessionMetrics set_sessionMetrics pagesVisited set_pagesVisited].
    fold (visited page). fold t.
    destruct (find (visited page) (pagesVisited (sessionMetrics d))) as [e|] eqn:Hf.
    + rewrite find_update_first_other; auto.
    + rewrite find_app_other; auto.
      unfold visited. simpl. destruct (String.eqb_spec (trim page) page'); congruence.
  - unfold d', time_on, first_visit, addPageVisit.
    cbn [sessionMetrics set_sessionMetrics pagesVisited set_pagesVisited].
    fold (visited page). fold t.
    destruct (find (visited page) (pagesVisited (sessionMetrics d))) as [e|] eqn:Hf;
      cbn [option_map].
    + rewrite (find_update_first _ _ _ e) by auto.
      cbn [option_map pg_timeSpent pg_visitedAt].
      split; [reflexivity|]. split; [reflexivity|]. now apply update_first_map.
    + split; [reflexivity|]. intros Htrim.
      rewrite (find_app_none _ _ _ Hf). unfold visited at 1 2. cbn [pg_page].
      rewrite Htrim, String.eqb_refl. split; reflexivity.
  - apply pages_visited_trimmed.
  - intros inputs Hpad.
    eapply Forall_impl; [|apply (pages_visited_trimmed inputs)].
    intros d0 H0. cbv beta in H0. pose proof (find_visited_padded page _ Hpad H0) as Hf.
    unfold time_on, addPageVisit.
    cbn [sessionMetrics set_sessionMetrics pagesVisited set_pagesVisited].
    fold (visited page). rewrite Hf. split; reflexivity.
  - reflexivity.
Qed.

(** *** Heatmap totals *)

Lemma list_sum_perm l l' : Permutation l l' -> list_sum l = list_sum l'.
Proof. induction 1; simpl; lia. Qed.

Lemma indicator_sum k ks :
  NoDup ks -> In k ks ->
  list_sum (map (fun k' => if Bucket_eqb k k' then 1%nat else 0%nat) ks) = 1%nat.
Proof.
  induction ks as [|a ks IH]; simpl; [tauto|].
  intros Hnd Hin. inversion Hnd as [|? ? Hnot Hnd']; subst.
  destruct (Bucket_eqb k a) eqn:E.
  - apply Bucket_eqb_eq in E. subst a. f_equal.
    clear -Hnot. induction ks as [|b ks IH]; simpl; auto.
    destruct (Bucket_eqb k b) eqn:E.
    + apply Bucket_eqb_eq in E. subst. simpl in Hnot. tauto.
    + apply IH. simpl in Hnot. tauto.
  - destruct Hin as [->|Hin]; [now rewrite Bucket_eqb_refl in E|]. auto.
Qed.

Lemma partition_sum (cs : list Click) : forall ks,
  NoDup ks -> (forall c, In c cs -> In (bucket_of c) ks) ->
  list_sum (map (fun k => length (filter (fun c => Bucket_eqb (bucket_of c) k) cs)) ks)
  = length cs.
Proof.
  induction cs as [|c cs IH]; intros ks Hnd Hcov.
  - clear. induction ks; simpl; auto.
  - assert (Hsplit :
      list_sum (map (fun k => length (filter (fun c => Bucket_eqb (bucket_of c) k)
                                        (c :: cs))) ks)
      = (list_sum (map (fun k' => if Bucket_eqb (bucket_of c) k' then 1 else 0) ks)
         + list_sum (map (fun k => length (filter (fun c => Bucket_eqb (bucket_of c) k)
                                             cs)) ks))%nat).
    { clear. induction ks as [|k ks IHk]; simpl; auto.
      simpl in IHk. rewrite IHk.
      destruct (Bucket_eqb (bucket_of c) k); simpl; lia. }
    rewrite Hsplit, (indicator_sum (bucket_of c) ks Hnd) by (apply Hcov; now left).
    rewrite (IH ks Hnd) by (intros; apply Hcov; now right). reflexivity.
Qed.

Lemma group_clicks_total cs :
  list_sum (map row_count (group_clicks cs)) = length cs.
Proof.
  unfold group_clicks. rewrite map_map. simpl.
  apply partition_sum.
  - apply distinct_NoDup.
  - intros c Hc. apply distinct_In. now apply in_map.
Qed.

Lemma total_clicks_counted inputs :
  Forall (fun d => totalClicks (sessionMetrics d)
                   = Z.of_nat (length (clicks (heatmapData d))))
    (db (fst (run inputs initial))).
Proof.
  apply run_Forall; [| | | | | | |simpl; constructor]; auto.
  intros now x y page element action d H. unfold addCursorMovement.
  destruct (Action_eqb action click), (Action_eqb action scroll); simpl; auto;
    rewrite H, length_app; simpl; lia.
Qed.

Lemma not_deleted inputs :
  Forall (fun d => isDeleted d = false) (db (fst (run inputs initial))).
Proof.
  apply run_Forall; [| | | | | | |simpl; constructor]; auto.
  intros now x y page element action d H. unfold addCursorMovement.
  destruct (Action_eqb action click), (Action_eqb action scroll); exact H.
Qed.

Lemma unwind_clicks_length rows :
  Z.of_nat (length (unwind_clicks rows))
  = fold_right Z.add 0 (map (fun d => Z.of_nat (length (clicks (heatmapData d)))) rows).
Proof.
  unfold unwind_clicks. induction rows as [|d rows IH]; simpl; auto.
  rewrite length_app. lia.
Qed.

Lemma heatmap_route_empty rows eid page startDate endDate resolution :
  heatmap_route rows eid page startDate endDate resolution = [].
Proof.
  unfold heatmap_route, CursorLog_getHeatmapData.
  assert (H : filter (heatmap_match_value (Mongo.AsString eid) page startDate endDate) rows
              = []).
  { induction rows as [|d rows IH]; simpl; auto. }
  now rewrite H.
Qed.


(** *** Where a heatmap point lies *)

Lemma cell_bounds v : (inject_Z (cell v) * 10 <= v < inject_Z (cell v) * 10 + 10)%Q.
Proof.
  unfold cell.
  pose proof (Qfloor_le (v / 10)) as Hlo.
  pose proof (Qlt_floor (v / 10)) as Hhi.
  rewrite inject_Z_plus in Hhi.
  assert (Hv : (v == (v / 10) * 10)%Q) by (field).
  set (x := (v / 10)%Q) in *. set (f := inject_Z (Qfloor x)) in *.
  change (inject_Z 1) with 1%Q in Hhi.
  split; rewrite Hv; lra.
Qed.

Lemma Qsum_lower a l :
  Forall (fun x => (a <= x)%Q) l ->
  (a * inject_Z (Z.of_nat (length l)) <= Qsum l)%Q.
Proof.
  induction 1 as [|x l Hx Hl IH]; cbn [length Qsum fold_right].
  - change (inject_Z (Z.of_nat 0)) with 0%Q. lra.
  - rewrite Nat2Z.inj_succ, <- Z.add_1_r, inject_Z_plus.
    change (inject_Z 1) with 1%Q. fold (Qsum l). lra.
Qed.

Lemma Qsum_upper b l :
  Forall (fun x => (x < b)%Q) l -> l <> [] ->
  (Qsum l < b * inject_Z (Z.of_nat (length l)))%Q.
Proof.
  induction 1 as [|x l Hx Hl IH]; intros Hne; [congruence|].
  cbn [length Qsum fold_right].
  rewrite Nat2Z.inj_succ, <- Z.add_1_r, inject_Z_plus.
  change (inject_Z 1) with 1%Q. fold (Qsum l).
  destruct l as [|y l].
  - cbn [length Qsum fold_right]. change (inject_Z (Z.of_nat 0)) with 0%Q. lra.
  - assert (Hl' : (Qsum (y :: l) < b * inject_Z (Z.of_nat (length (y :: l))))%Q)
      by (apply IH; discriminate).
    lra.
Qed.

Lemma Qavg_bounds a b l :
  Forall (fun x => (a <= x < b)%Q) l -> l <> [] -> (a <= Qavg l < b)%Q.
Proof.
  intros Hall Hne. unfold Qavg.
  assert (Hn : (0 < inject_Z (Z.of_nat (length l)))%Q).
  { destruct l; [congruence|]. rewrite <- (Zlt_Qlt 0). simpl length. lia. }
  split.
  - apply Qle_shift_div_l; auto. apply Qsum_lower.
    eapply Forall_impl; [|exact Hall]. simpl. tauto.
  - apply Qlt_shift_div_r; auto. apply Qsum_upper; auto.
    eapply Forall_impl; [|exact Hall]. simpl. tauto.
Qed.


(** *** What the sweep does, and what it leaves *)

Lemma persist_endSession_map now k e rows :
  single_active rows ->
  persist k e (endSession now) rows
  = map (fun d => if by_active_pair k e d then endSession now d else d) rows.
Proof.
  intros Hs. unfold persist.
  destruct (findOne _ rows) as [[i d]|] eqn:Hf.
  - destruct (findOne_split _ _ _ _ Hf) as (b & a & -> & -> & Hd & Hb).
    rewrite save_split, map_app. simpl. rewrite Hd.
    rewrite (BackendMore.map_unmatched _ _ b Hb).
    specialize (Hs k e). rewrite countDocuments_app, countDocuments_cons, Hd in Hs.
    rewrite (BackendMore.map_unmatched _ _ a); auto.
    apply BackendMore.forallb_of_count. lia.
  - apply findOne_None in Hf. symmetry. apply BackendMore.map_unmatched.
    apply BackendMore.forallb_of_count. unfold countDocuments. now rewrite Hf.
Qed.

Lemma sweep_entry_state now k st :
  single_active (db st) ->
  fst (sweep_entry now k st)
  = mkState (conns st)
      (if stale now st k then keys_delete k (activeSessions st) else activeSessions st)
      (rooms st)
      (map (fun d => if sweeps now st k d then endSession now d else d) (db st)).
Proof.
  intros Hs. unfold sweep_entry, stale, sweeps.
  destruct (activeSessions_get st k) as [session|].
  - destruct (_ <? _); simpl.
    + unfold close_session.
      destruct (truthy_value (currentEvent session)) as [e|]; simpl.
      * now rewrite persist_endSession_map.
      * rewrite map_id. reflexivity.
    + rewrite map_id. now destruct st.
  - rewrite map_id. now destruct st.
Qed.

Lemma sweeps_ended now now' st k d : sweeps now st k (endSession now' d) = false.
Proof.
  unfold sweeps. destruct (activeSessions_get st k) as [session|]; auto.
  destruct (truthy_value (currentEvent session)).
  - rewrite endSession_closed. apply andb_false_r.
  - apply andb_false_r.
Qed.

Lemma sweeps_after_entry now k k' st d :
  sweeps now st k d = false ->
  sweeps now (fst (sweep_entry now k st)) k' d = sweeps now st k' d.
Proof.
  intros Hk. destruct (String.eqb_spec k k') as [<-|Hne].
  - rewrite Hk. unfold sweeps, activeSessions_get.
    destruct (sweep_entry_frame now k st) as [-> _].
    destruct (sweep_entry_keys now k st) as [->| ->].
    + exact Hk.
    + destruct (existsb _ (keys_delete k (activeSessions st))) eqn:E; auto.
      apply in_keys, in_keys_delete in E. tauto.
  - unfold sweeps. now rewrite sweep_entry_other.
Qed.

Lemma sweep_db now keys : forall st,
  single_active (db st) ->
  db (fst (sweep now keys st))
  = map (fun d => if existsb (fun k => sweeps now st k d) keys
                  then endSession now d else d) (db st).
Proof.
  induction keys as [|k keys IH]; intros st Hs.
  - simpl. now rewrite map_id.
  - cbn [sweep fst]. rewrite IH by now apply sweep_entry_single_active.
    pose proof (f_equal db (sweep_entry_state now k st Hs)) as E. cbn [db] in E.
    rewrite E. clear E.
    rewrite map_map. apply map_ext. intros d. cbn [existsb].
    destruct (sweeps now st k d) eqn:Hk; cbn [orb].
    + replace (existsb _ keys) with false; auto.
      symmetry. clear. induction keys as [|k' keys IH]; simpl; auto.
      now rewrite sweeps_ended.
    + replace (existsb (fun k0 => sweeps now (fst (sweep_entry now k st)) k0 d) keys)
        with (existsb (fun k0 => sweeps now st k0 d) keys); auto.
      clear IH. induction keys as [|k' keys IH]; simpl; auto.
      now rewrite sweeps_after_entry, IH.
Qed.

Lemma stale_after_entry now k k' st :
  k' <> k -> stale now (fst (sweep_entry now k st)) k' = stale now st k'.
Proof. intros Hne. unfold stale. rewrite sweep_entry_other; auto. Qed.

Lemma sweep_entry_fresh now k st :
  stale now st k = false -> sweep_entry now k st = (st, []).
Proof.
  unfold sweep_entry, stale. destruct (activeSessions_get st k); auto.
  now intros ->.
Qed.

Lemma sweep_registry now keys : forall st,
  single_active (db st) ->
  activeSessions (fst (sweep now keys st))
  = filter (fun k => negb (existsb (fun k' => (k' =? k)%string) keys && stale now st k))
      (activeSessions st).
Proof.
  induction keys as [|k keys IH]; intros st Hs.
  - simpl. clear. induction (activeSessions st); simpl; congruence.
  - cbn [sweep fst]. rewrite IH by now apply sweep_entry_single_active.
    pose proof (f_equal activeSessions (sweep_entry_state now k st Hs)) as E.
    cbn [activeSessions] in E. rewrite E. clear E. cbn [existsb].
    destruct (stale now st k) eqn:Hk.
    + unfold keys_delete. rewrite filter_filter. apply filter_ext. intros x.
      destruct (String.eqb_spec x k) as [->|Hne].
      * rewrite String.eqb_refl, Hk. reflexivity.
      * destruct (String.eqb_spec k x); [congruence|].
        rewrite stale_after_entry by auto. reflexivity.
    + rewrite (sweep_entry_fresh now k st Hk). cbn [fst].
      apply filter_ext. intros x.
      destruct (String.eqb_spec k x) as [<-|Hne]; simpl; auto.
      now rewrite Hk, andb_false_r.
Qed.

Lemma sweep_nothing_stale now keys st :
  (forall k, In k keys -> stale now st k = false) -> sweep now keys st = (st, []).
Proof.
  induction keys as [|k keys IH]; intros H; simpl; auto.
  assert (Hk : sweep_entry now k st = (st, []))
    by (apply sweep_entry_fresh, H; now left).
  rewrite Hk. simpl. rewrite IH; auto. intros; apply H; now right.
Qed.


(** *** A connection the sweep has removed *)

Lemma persist_absent sid e method rows :
  countDocuments (by_active_pair sid e) rows = 0%nat ->
  persist sid e method rows = rows.
Proof.
  intros H. unfold persist. now rewrite (findOne_none_of_count _ _ H).
Qed.

Lemma current_room_event s eventId e e' :
  truthy_value (currentEvent s) = Some e ->
  current_room s eventId = Some e' -> e' = e.
Proof.
  unfold current_room. intros ->. destruct (strict_eq _ _); congruence.
Qed.

(** A tracking input of a socket that has no active session log for the
    event it is in stores nothing and does not touch the registry. *)
Lemma tracking_without_log i sid c e st :
  tracking_of sid i = true ->
  lookup sid (conns st) = Some c ->
  truthy_value (currentEvent (sessionData c)) = Some e ->
  countDocuments (by_active_pair sid e) (db st) = 0%nat ->
  db (fst (step i st)) = db st
  /\ activeSessions (fst (step i st)) = activeSessions st
  /\ rooms (fst (step i st)) = rooms st.
Proof.
  intros Hi Hc He H0.
  assert (Hlog : forall now eventId method,
            db (fst (logging_handler now sid eventId method st)) = db st
            /\ activeSessions (fst (logging_handler now sid eventId method st))
               = activeSessions st
            /\ rooms (fst (logging_handler now sid eventId method st)) = rooms st).
  { intros now eventId method. unfold logging_handler. rewrite Hc.
    destruct (current_room _ _) as [e'|] eqn:Hr; auto.
    rewrite (current_room_event _ _ _ _ He Hr). simpl.
    rewrite persist_absent; auto. }
  destruct i; simpl in Hi; try discriminate;
    apply String.eqb_eq in Hi; subst sid0; simpl.
  - unfold cursor_move. rewrite Hc.
    destruct (current_room _ _) as [e'|] eqn:Hr; auto.
    rewrite (current_room_event _ _ _ _ He Hr).
    destruct (Qgt_bool _ _); simpl; auto.
    rewrite persist_absent; auto.
  - unfold cursor_click_handler. rewrite Hc.
    destruct (current_room _ _) as [e'|] eqn:Hr; auto.
    rewrite (current_room_event _ _ _ _ He Hr). simpl.
    rewrite persist_absent; auto.
  - apply Hlog.
  - apply Hlog.
  - apply Hlog.
Qed.



(** *** A session log nobody closes *)

Lemma persist_keeps k e' method rows s e :
  no_deactivation method ->
  countDocuments (by_active_pair s e) (persist k e' method rows)
  = countDocuments (by_active_pair s e) rows.
Proof.
  intros Hm. unfold persist.
  destruct (findOne _ rows) as [[i d]|] eqn:Hf; auto.
  pose proof (countDocuments_save _ (by_active_pair s e) rows i d (method d) Hf) as H.
  rewrite Hm in H. lia.
Qed.

Lemma persist_end_other now k e' rows s e :
  k <> s ->
  countDocuments (by_active_pair s e) (persist k e' (endSession now) rows)
  = countDocuments (by_active_pair s e) rows.
Proof.
  intros Hne. unfold persist.
  destruct (findOne _ rows) as [[i d]|] eqn:Hf; auto.
  pose proof (countDocuments_save _ (by_active_pair s e) rows i d (endSession now d) Hf)
    as H.
  rewrite endSession_closed in H.
  destruct (findOne_split _ _ _ _ Hf) as (_ & _ & _ & _ & Hd & _).
  apply by_active_pair_eq in Hd as (Hk & _).
  destruct (by_active_pair s e d) eqn:Hs; [|lia].
  apply by_active_pair_eq in Hs as (Hs & _). congruence.
Qed.

Lemma addCursorMovement_no_deactivation now x y page element action :
  no_deactivation (addCursorMovement now x y page element action).
Proof.
  intros s e d. unfold addCursorMovement, by_active_pair.
  destruct (Action_eqb action click), (Action_eqb action scroll); reflexivity.
Qed.

Lemma sweep_entry_unregistered now k st s e :
  ~ In s (activeSessions st) ->
  countDocuments (by_active_pair s e) (db (fst (sweep_entry now k st)))
  = countDocuments (by_active_pair s e) (db st)
  /\ ~ In s (activeSessions (fst (sweep_entry now k st))).
Proof.
  intros Hnot. unfold sweep_entry.
  destruct (activeSessions_get st k) as [session|] eqn:Hg; auto.
  destruct (_ <? _); auto.
  assert (Hne : k <> s).
  { intros ->. now apply activeSessions_get_some in Hg as [Hin _]. }
  unfold close_session. destruct (truthy_value (currentEvent session)); simpl.
  - split; [now apply persist_end_other|]. rewrite in_keys_delete. tauto.
  - split; auto. rewrite in_keys_delete. tauto.
Qed.

Lemma sweep_unregistered now keys s e : forall st,
  ~ In s (activeSessions st) ->
  countDocuments (by_active_pair s e) (db (fst (sweep now keys st)))
  = countDocuments (by_active_pair s e) (db st)
  /\ ~ In s (activeSessions (fst (sweep now keys st))).
Proof.
  induction keys as [|k keys IH]; intros st Hnot; simpl; auto.
  destruct (sweep_entry_unregistered now k st s e Hnot) as [H1 H2].
  destruct (IH _ H2) as [H3 H4]. split; [congruence|exact H4].
Qed.

Lemma logging_handler_unregistered now sid eventId method st s e :
  no_deactivation method ->
  countDocuments (by_active_pair s e) (db (fst (logging_handler now sid eventId method st)))
  = countDocuments (by_active_pair s e) (db st)
  /\ activeSessions (fst (logging_handler now sid eventId method st)) = activeSessions st.
Proof.
  intros Hm. unfold logging_handler.
  destruct (lookup sid (conns st)) as [c|]; auto.
  destruct (current_room _ _); auto. simpl. split; auto. now apply persist_keeps.
Qed.

(** No input but a new connection of the socket registers it, and while it
    is not registered nothing ends its session logs. *)
Lemma step_unregistered i st s e :
  connection_of s i = false ->
  ~ In s (activeSessions st) ->
  (countDocuments (by_active_pair s e) (db st)
   <= countDocuments (by_active_pair s e) (db (fst (step i st))))%nat
  /\ ~ In s (activeSessions (fst (step i st))).
Proof.
  intros Hi Hnot. destruct i; simpl in Hi; cbn [step fst].
  - cbn [connection activeSessions db]. split; auto.
    unfold keys_set. destruct (existsb _ _); auto.
    rewrite in_app_iff. simpl. apply String.eqb_neq in Hi. intuition congruence.
  - unfold join_event. destruct (lookup sid (conns st)) as [c|]; auto.
    destruct (truthy_value (jd_eventId data)); auto. simpl. split; auto.
    destruct (findOne _ (db st)); auto. rewrite countDocuments_create. lia.
  - unfold cursor_move. destruct (lookup sid (conns st)) as [c|]; auto.
    destruct (current_room _ _); auto.
    destruct (Qgt_bool _ _); simpl; auto. split; auto.
    rewrite persist_keeps; auto using addCursorMovement_no_deactivation.
  - unfold cursor_click_handler. destruct (lookup sid (conns st)) as [c|]; auto.
    destruct (current_room _ _); auto. simpl. split; auto.
    rewrite persist_keeps; auto using addCursorMovement_no_deactivation.
  - unfold page_scroll.
    destruct (logging_handler_unregistered now sid eventId0
                (updateScrollDepth now page depth) st s e) as [-> ->]; auto.
    intros ? ? ?. reflexivity.
  - unfold page_visit.
    destruct (logging_handler_unregistered now sid eventId0
                (addPageVisit now page timeSpent) st s e) as [-> ->]; auto.
    intros ? ? ?. reflexivity.
  - unfold cursor_hover.
    destruct (logging_handler_unregistered now sid eventId0
                (addHoverData now x y dur page) st s e) as [-> ->]; auto.
    intros ? ? ?. reflexivity.
  - unfold disconnect. destruct (lookup sid (conns st)); auto. simpl.
    unfold disconnect_handler.
    destruct (activeSessions_get _ sid) as [session|] eqn:Hg; simpl.
    + assert (Hne : sid <> s).
      { intros ->. now apply activeSessions_get_some in Hg as [Hin _]. }
      split; [|rewrite in_keys_delete; unfold close_session;
               destruct (truthy_value (currentEvent session)); simpl; tauto].
      unfold close_session. destruct (truthy_value (currentEvent session)); simpl; auto.
      rewrite persist_end_other; auto.
    + split; auto. rewrite in_keys_delete. tauto.
  - unfold cleanup.
    destruct (sweep_unregistered now (activeSessions st) s e st Hnot) as [-> H].
    auto.
  - cbn [set_db db activeSessions]. split; auto. unfold createOrUpdateSession.
    destruct (truthy_value (sb_sessionId b)) as [sid|]; auto.
    destruct (truthy_value (sb_eventId b)) as [eid|]; auto.
    destruct (findOne _ (db st)) as [[i cursorLog]|] eqn:Hf; simpl.
    + pose proof (countDocuments_save _ (by_active_pair s e) (db st) i cursorLog
                    (set_sessionMetrics
                       (set_lastActivity now (sessionMetrics cursorLog)) cursorLog) Hf)
        as H.
      change (by_active_pair s e (set_sessionMetrics _ cursorLog))
        with (by_active_pair s e cursorLog) in H. lia.
    + rewrite countDocuments_create. lia.
Qed.

Lemma run_unregistered later s e : forall st,
  forallb (fun i => negb (connection_of s i)) later = true ->
  ~ In s (activeSessions st) ->
  (countDocuments (by_active_pair s e) (db st)
   <= countDocuments (by_active_pair s e) (db (fst (run later st))))%nat
  /\ ~ In s (activeSessions (fst (run later st))).
Proof.
  induction later as [|i later IH]; intros st Hl Hnot; simpl; auto.
  simpl in Hl. apply andb_prop in Hl as [Hi Hl]. apply negb_true_iff in Hi.
  destruct (step_unregistered i st s e Hi Hnot) as [H1 H2].
  destruct (IH _ Hl H2) as [H3 H4]. split; [lia|exact H4].
Qed.



(** *** The session log of the room a socket has left *)

Lemma persist_end_other_event now k e' rows s e :
  e' <> e ->
  countDocuments (by_active_pair s e) (persist k e' (endSession now) rows)
  = countDocuments (by_active_pair s e) rows.
Proof.
  intros Hne. unfold persist.
  destruct (findOne _ rows) as [[i d]|] eqn:Hf; auto.
  pose proof (countDocuments_save _ (by_active_pair s e) rows i d (endSession now d) Hf)
    as H.
  rewrite endSession_closed in H.
  destruct (findOne_split _ _ _ _ Hf) as (_ & _ & _ & _ & Hd & _).
  apply by_active_pair_eq in Hd as (_ & Hk & _).
  destruct (by_active_pair s e d) eqn:Hs; [|lia].
  apply by_active_pair_eq in Hs as (_ & Hs & _). congruence.
Qed.

(** Ending the session of the entry [k] leaves the logs of the pair
    [(s, e)] alone when [s] is not in the room of [e]. *)
Lemma close_session_elsewhere now k session t st s e :
  elsewhere s e st ->
  activeSessions_get st k = Some session ->
  countDocuments (by_active_pair s e) (db (fst (close_session now k session t st)))
  = countDocuments (by_active_pair s e) (db st).
Proof.
  intros Hels Hg. unfold close_session.
  destruct (truthy_value (currentEvent session)) as [e'|] eqn:He; auto.
  cbn [fst set_db db].
  destruct (String.eqb_spec k s) as [->|Hne].
  - apply persist_end_other_event. intros ->.
    apply activeSessions_get_some in Hg as (_ & c & Hc & <-).
    exact (Hels c Hc He).
  - now apply persist_end_other.
Qed.

Lemma sweep_elsewhere now keys s e : forall st,
  elsewhere s e st ->
  countDocuments (by_active_pair s e) (db (fst (sweep now keys st)))
  = countDocuments (by_active_pair s e) (db st).
Proof.
  induction keys as [|k keys IH]; intros st Hels; simpl; auto.
  rewrite IH.
  - unfold sweep_entry. destruct (activeSessions_get st k) as [session|] eqn:Hg; auto.
    destruct (_ <? _); auto. cbn [fst delete_session db].
    now apply close_session_elsewhere.
  - intros c Hc. destruct (sweep_entry_frame now k st) as [Hconns _].
    rewrite Hconns in Hc. now apply Hels.
Qed.

Lemma logging_handler_elsewhere now sid eventId method st s e :
  elsewhere s e st -> elsewhere s e (fst (logging_handler now sid eventId method st)).
Proof.
  intros Hels. unfold logging_handler.
  destruct (lookup sid (conns st)) as [c|] eqn:Hc; auto.
  destruct (current_room _ _); auto. intros c'. cbn [fst set_db set_conn conns].
  destruct (String.eqb_spec sid s) as [->|Hne].
  - rewrite lookup_assign_same. intros H; inversion H; subst. cbn [sessionData touch currentEvent].
    now apply Hels.
  - rewrite lookup_assign_other by auto. apply Hels.
Qed.

(** While a socket is not in the room of an event and does not join it, it
    stays out of it, and nothing ends its session log for the event. *)
Lemma step_elsewhere i st s e :
  joins s e i = false ->
  elsewhere s e st ->
  (countDocuments (by_active_pair s e) (db st)
   <= countDocuments (by_active_pair s e) (db (fst (step i st))))%nat
  /\ elsewhere s e (fst (step i st)).
Proof.
  intros Hi Hels. destruct i; simpl in Hi; cbn [step fst].
  - split; auto. intros c. cbn [connection conns].
    destruct (String.eqb_spec sid s) as [->|Hne].
    + rewrite lookup_assign_same. intros H; inversion H; subst. simpl. discriminate.
    + rewrite lookup_assign_other by auto. apply Hels.
  - unfold join_event. destruct (lookup sid (conns st)) as [c|] eqn:Hc; auto.
    destruct (truthy_value (jd_eventId data)) as [eventId|] eqn:He; auto.
    cbn [fst db conns]. split.
    + destruct (findOne _ (db st)); auto. rewrite countDocuments_create. lia.
    + intros c'. cbn [conns].
      destruct (String.eqb_spec sid s) as [->|Hne].
      * rewrite lookup_assign_same. intros H; inversion H; subst.
        cbn [sessionData set_room currentEvent]. simpl in Hi.
        destruct (truthy_value_some _ _ He) as [_ ->].
        intros E. inversion E; subst. now rewrite String.eqb_refl in Hi.
      * rewrite lookup_assign_other by auto. apply Hels.
  - unfold cursor_move. destruct (lookup sid (conns st)) as [c|] eqn:Hc; auto.
    destruct (current_room _ _); auto.
    assert (Hels' : elsewhere s e (set_conn sid c (touch now (sessionData c)) st)).
    { intros c'. cbn [set_conn conns].
      destruct (String.eqb_spec sid s) as [->|Hne].
      - rewrite lookup_assign_same. intros H; inversion H; subst.
        cbn [sessionData touch currentEvent]. now apply Hels.
      - rewrite lookup_assign_other by auto. apply Hels. }
    destruct (Qgt_bool _ _); cbn [fst]; split; auto.
    cbn [set_db db set_conn].
    rewrite persist_keeps; auto using addCursorMovement_no_deactivation.
  - unfold cursor_click_handler. destruct (lookup sid (conns st)) as [c|] eqn:Hc; auto.
    destruct (current_room _ _); auto. cbn [fst]. split.
    + cbn [set_db db set_conn].
      rewrite persist_keeps; auto using addCursorMovement_no_deactivation.
    + intros c'. cbn [set_db set_conn conns].
      destruct (String.eqb_spec sid s) as [->|Hne].
      * rewrite lookup_assign_same. intros H; inversion H; subst.
        cbn [sessionData touch currentEvent]. now apply Hels.
      * rewrite lookup_assign_other by auto. apply Hels.
  - unfold page_scroll. split; [|now apply logging_handler_elsewhere].
    destruct (logging_handler_unregistered now sid eventId0
                (updateScrollDepth now page depth) st s e) as [-> _]; auto.
    intros ? ? ?. reflexivity.
  - unfold page_visit. split; [|now apply logging_handler_elsewhere].
    destruct (logging_handler_unregistered now sid eventId0
                (addPageVisit now page timeSpent) st s e) as [-> _]; auto.
    intros ? ? ?. reflexivity.
  - unfold cursor_hover. split; [|now apply logging_handler_elsewhere].
    destruct (logging_handler_unregistered now sid eventId0
                (addHoverData now x y dur page) st s e) as [-> _]; auto.
    intros ? ? ?. reflexivity.
  - unfold disconnect. destruct (lookup sid (conns st)) as [c|] eqn:Hc; auto.
    cbn [fst db conns]. unfold disconnect_handler. cbn [fst snd].
    set (st0 := set_rooms (leave_all sid (rooms st)) st).
    assert (Hels0 : elsewhere s e st0) by exact Hels.
    split.
    + destruct (activeSessions_get st0 sid) as [session|] eqn:Hg; cbn [fst delete_session db]; auto.
      rewrite (close_session_elsewhere now sid session (SocketTo sid) st0 s e Hels0 Hg).
      reflexivity.
    + intros c'.
      assert (Hconns : conns (delete_session sid
                                (fst match activeSessions_get st0 sid with
                                     | Some session =>
                                       close_session now sid session (SocketTo sid) st0
                                     | None => (st0, [])
                                     end)) = conns st).
      { destruct (activeSessions_get st0 sid) as [session|]; auto.
        unfold close_session. destruct (truthy_value (currentEvent session)); auto. }
      rewrite Hconns.
      destruct (String.eqb_spec sid s) as [->|Hne]; cbn [conns].
      * now rewrite lookup_remove_same.
      * rewrite lookup_remove_other by auto. apply Hels.
  - unfold cleanup. split.
    + now rewrite sweep_elsewhere.
    + intros c Hc. destruct (sweep_frame now (activeSessions st) st) as [Hconns _].
      rewrite Hconns in Hc. now apply Hels.
  - cbn [set_db db conns]. split; [|exact Hels].
    unfold createOrUpdateSession.
    destruct (truthy_value (sb_sessionId b)) as [sid|]; auto.
    destruct (truthy_value (sb_eventId b)) as [eid|]; auto.
    destruct (findOne _ (db st)) as [[i cursorLog]|] eqn:Hf; simpl.
    + pose proof (countDocuments_save _ (by_active_pair s e) (db st) i cursorLog
                    (set_sessionMetrics
                       (set_lastActivity now (sessionMetrics cursorLog)) cursorLog) Hf)
        as H.
      change (by_active_pair s e (set_sessionMetrics _ cursorLog))
        with (by_active_pair s e cursorLog) in H. lia.
    + rewrite countDocuments_create. lia.
Qed.

Lemma run_elsewhere later s e : forall st,
  forallb (fun i => negb (joins s e i)) later = true ->
  elsewhere s e st ->
  (countDocuments (by_active_pair s e) (db st)
   <= countDocuments (by_active_pair s e) (db (fst (run later st))))%nat.
Proof.
  induction later as [|i later IH]; intros st Hl Hels; simpl; auto.
  simpl in Hl. apply andb_prop in Hl as [Hi Hl]. apply negb_true_iff in Hi.
  destruct (step_elsewhere i st s e Hi Hels) as [H1 H2].
  specialize (IH _ Hl H2). lia.
Qed.

(** X21. Changing rooms leaves a session log open for good.  In any state
    the server can reach, a socket that is in the room of an event [a] with
    an active session log and joins another event [b] keeps its log for [a]
    active: the join does not end it.  And whatever happens later - the
    disconnect of the socket and the cleanups included -, as long as the
    socket does not join [a] again, that log stays active: the disconnect
    handler and the sweep end only the log of the event the socket is in. *)
Theorem room_switch_leaves_log_open inputs now sid c a data b later :
  let st := fst (run inputs initial) in
  lookup sid (conns st) = Some c ->
  truthy_value (currentEvent (sessionData c)) = Some a ->
  countDocuments (by_active_pair sid a) (db st) = 1%nat ->
  truthy_value (jd_eventId data) = Some b ->
  b <> a ->
  forallb (fun i => negb (joins sid a i)) later = true ->
  let st1 := fst (join_event now sid data st) in
  let st2 := fst (run later st1) in
  countDocuments (by_active_pair sid a) (db st1) = 1%nat
  /\ countDocuments (by_active_pair sid b) (db st1) = 1%nat
  /\ countDocuments (by_active_pair sid a) (db st2) = 1%nat.
Proof.
  intros st Hc Ha H1 Hb Hne Hl st1 st2.
  assert (Hs : single_active (db st))
    by apply run_single_active, single_active_empty.
  assert (Hs1 : single_active (db st1))
    by apply (step_single_active (OnJoinEvent now sid data) st Hs).
  assert (Hs2 : single_active (db st2)) by now apply run_single_active.
  assert (Hdb1 : db st1 = db st
                 \/ exists d, db st1 = create d (db st)
                              /\ by_active_pair sid b d = true).
  { unfold st1, join_event. rewrite Hc, Hb. cbn [fst db].
    destruct (findOne _ (db st)); auto. right. eexists. split; [reflexivity|].
    unfold by_active_pair. simpl. now rewrite !String.eqb_refl. }
  assert (Ha1 : countDocuments (by_active_pair sid a) (db st1) = 1%nat).
  { destruct Hdb1 as [->|(d & -> & Hd)]; auto.
    rewrite countDocuments_create.
    destruct (by_active_pair sid a d) eqn:E; [|lia].
    apply by_active_pair_eq in Hd as (_ & Hd & _).
    apply by_active_pair_eq in E as (_ & E & _). congruence. }
  assert (Hb1 : countDocuments (by_active_pair sid b) (db st1) = 1%nat).
  { pose proof (Hs1 sid b) as Hle.
    assert (countDocuments (by_active_pair sid b) (db st1) <> 0%nat); [|lia].
    unfold st1, join_event. rewrite Hc, Hb. cbn [fst db].
    destruct (findOne _ (db st)) as [[i d]|] eqn:Hf.
    - intros H0. apply findOne_none_of_count in H0. congruence.
    - rewrite countDocuments_create. unfold by_active_pair at 2. simpl.
      rewrite !String.eqb_refl. simpl. lia. }
  assert (Hels : elsewhere sid a st1).
  { intros c'. unfold st1, join_event. rewrite Hc, Hb. cbn [fst conns].
    rewrite lookup_assign_same. intros H; inversion H; subst.
    cbn [sessionData set_room currentEvent].
    destruct (truthy_value_some _ _ Hb) as [_ ->]. congruence. }
  pose proof (run_elsewhere later sid a st1 Hl Hels) as Hge. fold st2 in Hge.
  specialize (Hs2 sid a). repeat split; auto. lia.
Qed.

Lemma room_switch_leaves_log_open_witness :
  let st := fst (run [OnConnection 0 "socket_1" None "10.0.0.1";
                      OnJoinEvent 1 "socket_1" (join_data tech_conference)] initial) in
  let st1 := fst (join_event 2 "socket_1" (join_data music_festival) st) in
  let st2 := fst (run [OnDisconnect 3 "socket_1"; OnCleanup 900000] st1) in
  countDocuments (by_active_pair "socket_1" tech_conference) (db st2) = 1%nat
  /\ countDocuments (by_active_pair "socket_1" music_festival) (db st2) = 0%nat
  /\ activeSessions st2 = [].
Proof.
  intros st st1 st2. split; [|split; reflexivity].
  apply (room_switch_leaves_log_open
           [OnConnection 0 "socket_1" None "10.0.0.1";
            OnJoinEvent 1 "socket_1" (join_data tech_conference)]
           2 "socket_1"
           (mkConn "10.0.0.1"
              (mkSessionData "socket_1" None None 0 (Some tech_conference) 1))
           tech_conference (join_data music_festival) music_festival
           [OnDisconnect 3 "socket_1"; OnCleanup 900000]);
    try reflexivity.
  discriminate.
Defined.



(** *** Who receives a broadcast *)

Lemma in_room_members r e rs : In r (room_members e rs) <-> In (r, e) rs.
Proof.
  unfold room_members. rewrite in_map_iff. split.
  - intros ([r0 e0] & <- & H). apply filter_In in H as [H He]. simpl in *.
    apply String.eqb_eq in He. now subst.
  - intros H. exists (r, e). split; auto. apply filter_In. split; auto.
    simpl. apply String.eqb_refl.
Qed.

Lemma member_in_event st r e :
  rooms_consistent st -> In (r, e) (rooms st) -> in_event st r e.
Proof.
  intros Hcons Hin.
  assert (He : In e (rooms_of r (rooms st))).
  { unfold rooms_of. apply in_map_iff. exists (r, e). split; auto.
    apply filter_In. split; auto. simpl. apply String.eqb_refl. }
  rewrite (Hcons r) in He. unfold room_of_conn in He.
  destruct (lookup r (conns st)) as [c|] eqn:Hc; [|destruct He].
  destruct (truthy_value (currentEvent (sessionData c))) as [e'|] eqn:He';
    [|destruct He].
  destruct He as [->|[]]. exists c. auto.
Qed.

Lemma emit_delivered st rs t m :
  rooms_consistent st ->
  (forall x, In x rs ->
     In x (rooms st) \/ exists s e, t = SocketTo s e /\ x = (s, e)) ->
  delivered_in_room st (emit rs t m).
Proof.
  intros Hcons Hrs. unfold delivered_in_room, emit. cbn [em_target em_recipients].
  destruct t as [sender room|room|sid]; auto.
  - intros r Hr. apply filter_In in Hr as [Hr Hne].
    apply negb_true_iff, String.eqb_neq in Hne. split; auto.
    apply in_room_members in Hr.
    destruct (Hrs _ Hr) as [Hin|(s & e & Ht & Hx)].
    + now apply member_in_event.
    + inversion Ht; inversion Hx; subst. congruence.
  - intros r Hr. apply in_room_members in Hr.
    destruct (Hrs _ Hr) as [Hin|(s & e & Ht & _)]; [|discriminate].
    now apply member_in_event.
Qed.

Lemma delivered_frame st st' em :
  conns st' = conns st -> delivered_in_room st em -> delivered_in_room st' em.
Proof.
  intros Hc. unfold delivered_in_room, in_event. rewrite Hc. auto.
Qed.

Lemma close_session_delivered st0 now sid session t st :
  rooms_consistent st0 ->
  conns st = conns st0 ->
  (forall x, In x (rooms st) -> In x (rooms st0)) ->
  (forall e, t e = IoTo e \/ t e = SocketTo sid e) ->
  Forall (delivered_in_room st0) (snd (close_session now sid session t st)).
Proof.
  intros Hcons Hc Hr Ht. unfold close_session.
  destruct (truthy_value (currentEvent session)) as [e|]; cbn [snd]; [|constructor].
  constructor; [|constructor].
  apply emit_delivered; auto.
Qed.

Lemma sweep_delivered st0 now keys : forall st,
  rooms_consistent st0 ->
  conns st = conns st0 -> rooms st = rooms st0 ->
  Forall (delivered_in_room st0) (snd (sweep now keys st)).
Proof.
  induction keys as [|k keys IH]; intros st Hcons Hc Hr; cbn [sweep snd];
    [constructor|].
  apply Forall_app. split.
  - unfold sweep_entry. destruct (activeSessions_get st k) as [session|];
      [|constructor].
    destruct (_ <? _); [|constructor]. cbn [snd].
    apply close_session_delivered; auto.
    intros x. now rewrite Hr.
  - destruct (sweep_entry_frame now k st) as [Hc' Hr'].
    apply IH; auto; congruence.
Qed.

(** X23. Broadcasts stay in the event.  In any state the server can reach,
    whatever the join, cursor, logging and disconnect handlers and the
    cleanup emit to the room of an event is delivered only to connected
    sockets whose [sessionData] names that event; a message sent with
    [socket.to] never comes back to its sender; and a message sent with
    [socket.emit] goes to the socket alone.  So no cursor position, click,
    arrival or departure is shown to a visitor of another event.  (The
    [send-notification] handler, which addresses sockets by id, is not among
    these handlers.) *)
Theorem broadcasts_stay_in_event inputs i :
  let st := fst (run inputs initial) in
  Forall (delivered_in_room st) (snd (step i st)).
Proof.
  intros st.
  assert (Hcons : rooms_consistent st) by apply run_consistent, initial_consistent.
  destruct i; cbn [step snd]; try constructor.
  - unfold join_event. destruct (lookup sid (conns st)) as [c|]; [|constructor].
    destruct (truthy_value (jd_eventId data)) as [eventId|]; cbn [snd].
    + apply Forall_app. split.
      * destruct (truthy_value (currentEvent (sessionData c))) as [previous|];
          cbn [snd fst]; [|constructor].
        constructor; [|constructor]. apply emit_delivered; auto.
        intros x Hx. apply in_socket_leave in Hx as [Hx _]. auto.
      * assert (Hleft : forall x,
                  In x (fst match truthy_value (currentEvent (sessionData c)) with
                            | Some previous =>
                              (socket_leave sid previous (rooms st),
                               [emit (socket_leave sid previous (rooms st))
                                  (SocketTo sid previous)
                                  (user_left sid (userInfo (sessionData c)))])
                            | None => (rooms st, [])
                            end) -> In x (rooms st)).
        { intros x. destruct (truthy_value (currentEvent (sessionData c)));
            cbn [fst]; auto.
          intros Hx. now apply in_socket_leave in Hx as [Hx _]. }
        constructor; [|constructor; [|constructor; [|constructor]]].
        -- apply emit_delivered; auto. intros x Hx.
           apply in_socket_join in Hx as [Hx| ->]; eauto.
        -- reflexivity.
        -- reflexivity.
    + constructor; [|constructor]. reflexivity.
  - unfold cursor_move. destruct (lookup sid (conns st)) as [c|]; [|constructor].
    destruct (current_room _ _); [|constructor].
    destruct (Qgt_bool _ _); cbn [snd]; (constructor; [|constructor]);
      apply emit_delivered; auto.
  - unfold cursor_click_handler. destruct (lookup sid (conns st)) as [c|]; [|constructor].
    destruct (current_room _ _); [|constructor]. cbn [snd].
    constructor; [|constructor]. apply emit_delivered; auto.
  - unfold page_scroll, logging_handler.
    destruct (lookup sid (conns st)) as [c|]; [|constructor].
    destruct (current_room _ _); constructor.
  - unfold page_visit, logging_handler.
    destruct (lookup sid (conns st)) as [c|]; [|constructor].
    destruct (current_room _ _); constructor.
  - unfold cursor_hover, logging_handler.
    destruct (lookup sid (conns st)) as [c|]; [|constructor].
    destruct (current_room _ _); constructor.
  - unfold disconnect. destruct (lookup sid (conns st)) as [c|]; [|constructor].
    cbn [snd]. unfold disconnect_handler. cbn [snd].
    destruct (activeSessions_get _ sid) as [session|]; [|constructor].
    apply close_session_delivered; auto.
    intros x Hx. cbn [set_rooms rooms] in Hx. unfold leave_all in Hx.
    now apply filter_In in Hx as [Hx _].
  - unfold cleanup. now apply sweep_delivered.
Qed.

(** *** Grouping and sorting *)

Section GroupFacts.
Context {A K : Type}.
Variable eqb : K -> K -> bool.
Hypothesis eqb_eq : forall a b, eqb a b = true <-> a = b.

Lemma distinct_keys_In k ks : In k (Mongo.distinct eqb ks) <-> In k ks.
Proof.
  induction ks as [|a ks IH]; simpl; [tauto|].
  rewrite filter_In, IH. split.
  - intros [H|[H _]]; auto.
  - intros [H|H]; auto.
    destruct (eqb k a) eqn:E.
    + left. symmetry. now apply eqb_eq.
    + right. auto.
Qed.

Lemma distinct_keys_NoDup ks : NoDup (Mongo.distinct eqb ks).
Proof.
  induction ks as [|a ks IH]; simpl; constructor.
  - rewrite filter_In. intros [_ H].
    assert (E : eqb a a = true) by now apply eqb_eq.
    now rewrite E in H.
  - now apply NoDup_filter.
Qed.

Lemma distinct_keys_length ks :
  (length (Mongo.distinct eqb ks) <= length ks)%nat.
Proof.
  induction ks as [|a ks IH]; simpl; auto.
  pose proof (filter_length_le (fun k' => negb (eqb k' a)) (Mongo.distinct eqb ks)).
  lia.
Qed.

Lemma key_indicator k ks :
  NoDup ks -> In k ks ->
  list_sum (map (fun k' => if eqb k k' then 1%nat else 0%nat) ks) = 1%nat.
Proof.
  induction ks as [|a ks IH]; simpl; [tauto|].
  intros Hnd Hin. inversion Hnd as [|? ? Hnot Hnd']; subst.
  destruct (eqb k a) eqn:E.
  - apply eqb_eq in E. subst a. f_equal.
    clear -Hnot eqb_eq. induction ks as [|b ks IH]; simpl; auto.
    destruct (eqb k b) eqn:E.
    + apply eqb_eq in E. subst. simpl in Hnot. tauto.
    + apply IH. simpl in Hnot. tauto.
  - destruct Hin as [->|Hin]; auto.
    assert (E' : eqb k k = true) by now apply eqb_eq. congruence.
Qed.

Lemma groups_partition (key : A -> K) (docs : list A) : forall ks,
  NoDup ks -> (forall a, In a docs -> In (key a) ks) ->
  list_sum (map (fun k => length (filter (fun a => eqb (key a) k) docs)) ks)
  = length docs.
Proof.
  induction docs as [|c cs IH]; intros ks Hnd Hcov.
  - clear. induction ks; simpl; auto.
  - assert (Hsplit :
      list_sum (map (fun k => length (filter (fun a => eqb (key a) k) (c :: cs))) ks)
      = (list_sum (map (fun k' => if eqb (key c) k' then 1 else 0) ks)
         + list_sum (map (fun k => length (filter (fun a => eqb (key a) k) cs)) ks))%nat).
    { clear. induction ks as [|k ks IHk]; simpl; auto.
      simpl in IHk. rewrite IHk.
      destruct (eqb (key c) k); simpl; lia. }
    rewrite Hsplit, (key_indicator (key c) ks Hnd) by (apply Hcov; now left).
    rewrite (IH ks Hnd) by (intros; apply Hcov; now right). reflexivity.
Qed.

Lemma group_total (key : A -> K) docs :
  list_sum (map (fun g => length (snd g)) (Mongo.group eqb key docs)) = length docs.
Proof.
  unfold Mongo.group. rewrite map_map. cbn [snd].
  apply groups_partition.
  - apply distinct_keys_NoDup.
  - intros a Ha. apply distinct_keys_In. now apply in_map.
Qed.

Lemma group_keys (key : A -> K) docs :
  map fst (Mongo.group eqb key docs) = Mongo.distinct eqb (map key docs).
Proof. unfold Mongo.group. rewrite map_map. cbn [fst]. apply map_id. Qed.

Lemma group_members (key : A -> K) docs g :
  In g (Mongo.group eqb key docs) ->
  snd g <> [] /\ Forall (fun a => key a = fst g) (snd g)
  /\ snd g = filter (fun a => eqb (key a) (fst g)) docs.
Proof.
  unfold Mongo.group. rewrite in_map_iff. intros (k & <- & Hk). cbn [fst snd].
  split; [|split; auto].
  - apply distinct_keys_In, in_map_iff in Hk as (c & <- & Hc).
    intros Hnil.
    assert (Hin : In c (filter (fun a => eqb (key a) (key c)) docs)).
    { apply filter_In. split; auto. now apply eqb_eq. }
    rewrite Hnil in Hin. exact Hin.
  - apply Forall_forall. intros a Ha. apply filter_In in Ha as [_ Ha].
    now apply eqb_eq.
Qed.
End GroupFacts.

Section SortFacts.
Context {A : Type}.
Variable before : A -> A -> bool.
Hypothesis before_total : forall a b, before a b = false -> before b a = true.
Hypothesis before_trans : forall a b c,
  before a b = true -> before b c = true -> before a c = true.

Lemma insert_permutation a l : Permutation (Mongo.insert before a l) (a :: l).
Proof.
  induction l as [|b l IH]; simpl; auto.
  destruct (before a b); auto.
  rewrite IH. apply perm_swap.
Qed.

Lemma sort_permutation l : Permutation (Mongo.sort before l) l.
Proof.
  induction l as [|a l IH]; simpl; auto.
  rewrite insert_permutation. now constructor.
Qed.

Lemma insert_sorted a l :
  StronglySorted (fun x y => before x y = true) l ->
  StronglySorted (fun x y => before x y = true) (Mongo.insert before a l).
Proof.
  induction l as [|b l IH]; simpl; intros Hs.
  - constructor; auto.
  - inversion Hs as [|? ? Hs' Hall]; subst.
    destruct (before a b) eqn:E.
    + constructor; auto. constructor; auto.
      eapply Forall_impl; [|exact Hall]. intros c Hc. eapply before_trans; eauto.
    + constructor; auto.
      eapply Permutation_Forall; [symmetry; apply insert_permutation|].
      constructor; auto.
Qed.

Lemma sort_sorted l : StronglySorted (fun x y => before x y = true) (Mongo.sort before l).
Proof.
  induction l as [|a l IH]; simpl; [constructor|].
  now apply insert_sorted.
Qed.
End SortFacts.

Lemma StronglySorted_impl {A} (R R' : A -> A -> Prop) l :
  (forall a b, R a b -> R' a b) -> StronglySorted R l -> StronglySorted R' l.
Proof.
  intros H. induction 1 as [|a l Hs IH Hall]; constructor; auto.
  eapply Forall_impl; [|exact Hall]. auto.
Qed.

Lemma sorted_strict {A} (f : A -> Z) l :
  NoDup (map f l) -> StronglySorted (fun a b => f a <= f b) l ->
  StronglySorted (fun a b => f a < f b) l.
Proof.
  intros Hnd Hs. induction Hs as [|a l Hs IH Hall]; constructor.
  - apply IH. now inversion Hnd.
  - inversion Hnd as [|? ? Hnot _]; subst.
    apply Forall_forall. intros b Hb. rewrite Forall_forall in Hall.
    specialize (Hall b Hb).
    assert (f a <> f b); [|lia].
    intros E. apply Hnot. rewrite E. now apply in_map.
Qed.

(** *** Session analytics *)

Lemma DeviceType_eqb_eq a b : DeviceType_eqb a b = true <-> a = b.
Proof. destruct a, b; simpl; split; congruence. Qed.

Lemma strict_eq_eq a b : strict_eq a b = true <-> a = b.
Proof.
  destruct a as [x|], b as [y|]; simpl; try (split; congruence).
  rewrite String.eqb_eq. split; congruence.
Qed.

Lemma hour_of_range t : 0 <= hour_of t < 24.
Proof. unfold hour_of. apply Z.mod_pos_bound. lia. Qed.

Lemma deviceStats_perm matched :
  Permutation (deviceStats matched)
    (map (fun g => mkDeviceRow (fst g) (length (snd g)) (Qavg (durations (snd g))))
       (Mongo.group DeviceType_eqb (fun d => dv_type (device d)) matched)).
Proof. apply sort_permutation. Qed.

Lemma hourlyStats_perm matched :
  Permutation (hourlyStats matched)
    (map (fun g => mkHourRow (fst g) (length (snd g)) (Qavg (durations (snd g))))
       (Mongo.group Z.eqb (fun d => hour_of (startTime (sessionMetrics d))) matched)).
Proof. apply sort_permutation. Qed.

Lemma analytics_match_string rows eid startDate endDate :
  filter (analytics_match (Mongo.AsString eid) startDate endDate) rows = [].
Proof. induction rows as [|d rows IH]; simpl; auto. Qed.

(** X18. The stages of the session analytics partition the session logs
    their [$match] stage selects.  For any list of selected logs, [n] of
    them: the overview stage yields no row when [n] is 0, and otherwise one
    that counts [n] sessions and between 1 and [n] unique users; the device
    distribution has one row per device type that occurs, by count
    descending, and its counts add up to [n]; the hourly distribution has
    one row per hour of the day at which a session started, in ascending
    order of the hour (between 0 and 23), and its counts add up to [n]; no
    row counts 0.  The [$match] stage of an [ObjectId] selects the logs of
    that event that are not deleted and match the dates.  The route puts the
    string of the URL in its [$match] stages: they select nothing, and the
    route answers the all-zero overview with empty distributions and no page
    analytics, whatever the collection holds. *)
Theorem analytics_distributions_partition (matched : list CursorLog) :
  let n := length matched in
  match sessionStats matched with
  | Some o => ov_totalSessions o = n /\ (1 <= ov_uniqueUsers o <= n)%nat
  | None => n = 0%nat
  end
  /\ list_sum (map dr_count (deviceStats matched)) = n
  /\ list_sum (map hr_sessions (hourlyStats matched)) = n
  /\ NoDup (map dr_type (deviceStats matched))
  /\ StronglySorted device_count_desc (deviceStats matched)
  /\ StronglySorted hours_ascending (hourlyStats matched)
  /\ Forall (fun r => (1 <= dr_count r)%nat) (deviceStats matched)
  /\ Forall (fun r => 0 <= hr_hour r < 24 /\ (1 <= hr_sessions r)%nat)
       (hourlyStats matched)
  /\ (forall rows id startDate endDate d,
        In d (filter (analytics_match (Mongo.AsObjectId id) startDate endDate) rows)
        <-> In d rows /\ eventId d = id /\ isDeleted d = false
            /\ match startDate with Some s => s <= createdAt d | None => True end
            /\ match endDate with Some e => createdAt d <= e | None => True end)
  /\ (forall rows eid startDate endDate page,
        getSessionAnalytics rows eid startDate endDate page
        = mkSessionAnalytics (mkOverview 0 0 0 0 0 0 0 0) None [] []).
Proof.
  intros n. unfold n.
  assert (Hdev : NoDup (map dr_type (deviceStats matched))).
  { eapply Permutation_NoDup;
      [symmetry; apply Permutation_map, deviceStats_perm|].
    rewrite map_map. cbn [dr_type].
    rewrite (group_keys DeviceType_eqb). apply distinct_keys_NoDup.
    apply DeviceType_eqb_eq. }
  assert (Hhours : NoDup (map hr_hour (hourlyStats matched))).
  { eapply Permutation_NoDup;
      [symmetry; apply Permutation_map, hourlyStats_perm|].
    rewrite map_map. cbn [hr_hour].
    rewrite (group_keys Z.eqb). apply distinct_keys_NoDup. apply Z.eqb_eq. }
  split; [|split; [|split; [|split; [|split; [|split; [|split; [|split;
    [|split]]]]]]]].
  - destruct matched as [|d matched']; [reflexivity|].
    cbn [sessionStats ov_totalSessions ov_uniqueUsers]. split; [reflexivity|].
    pose proof (distinct_keys_length strict_eq (map userId (d :: matched'))) as H.
    rewrite length_map in H. split; [|exact H].
    cbn [map Mongo.distinct length]. lia.
  - rewrite (list_sum_perm _ _ (Permutation_map dr_count (deviceStats_perm matched))).
    rewrite map_map. cbn [dr_count].
    apply (group_total DeviceType_eqb DeviceType_eqb_eq).
  - rewrite (list_sum_perm _ _ (Permutation_map hr_sessions (hourlyStats_perm matched))).
    rewrite map_map. cbn [hr_sessions].
    apply (group_total Z.eqb Z.eqb_eq).
  - exact Hdev.
  - unfold deviceStats.
    eapply StronglySorted_impl;
      [|apply (sort_sorted (fun a b : DeviceRow => (dr_count b <=? dr_count a)%nat))].
    + intros x y H. unfold device_count_desc. now apply Nat.leb_le.
    + intros x y H. apply Nat.leb_gt in H. apply Nat.leb_le. lia.
    + intros x y z H1 H2. apply Nat.leb_le in H1, H2. apply Nat.leb_le. lia.
  - apply (sorted_strict hr_hour); auto.
    unfold hourlyStats.
    eapply StronglySorted_impl;
      [|apply (sort_sorted (fun a b : HourRow => hr_hour a <=? hr_hour b))].
    + intros x y H. now apply Z.leb_le.
    + intros x y H. apply Z.leb_gt in H. apply Z.leb_le. lia.
    + intros x y z H1 H2. apply Z.leb_le in H1, H2. apply Z.leb_le. lia.
  - eapply Permutation_Forall; [symmetry; apply deviceStats_perm|].
    apply Forall_forall. intros r Hr. apply in_map_iff in Hr as (g & <- & Hg).
    cbn [dr_count].
    destruct (group_members DeviceType_eqb DeviceType_eqb_eq _ _ _ Hg) as (Hne & _).
    destruct (snd g); [congruence|simpl; lia].
  - eapply Permutation_Forall; [symmetry; apply hourlyStats_perm|].
    apply Forall_forall. intros r Hr. apply in_map_iff in Hr as (g & <- & Hg).
    cbn [hr_hour hr_sessions].
    destruct (group_members Z.eqb Z.eqb_eq _ _ _ Hg) as (Hne & Hall & _).
    split.
    + destruct (snd g) as [|d0 l]; [congruence|].
      inversion Hall as [|? ? Hd0 _]; subst. rewrite <- Hd0. apply hour_of_range.
    + destruct (snd g); [congruence|simpl; lia].
  - intros rows id startDate endDate d. rewrite filter_In.
    unfold analytics_match, Mongo.matches_id.
    rewrite !andb_true_iff, String.eqb_eq, negb_true_iff.
    destruct startDate, endDate; rewrite ?Z.leb_le; intuition.
  - intros rows eid startDate endDate page.
    unfold getSessionAnalytics. rewrite analytics_match_string.
    unfold deviceStats, hourlyStats, pageStats, page_visits. simpl.
    now destruct (truthy_value page).
Qed.

(** *** The sweep against an explicit disconnect *)

Lemma event_member st r e :
  rooms_consistent st -> in_event st r e -> In (r, e) (rooms st).
Proof.
  intros Hcons (c & Hc & He).
  assert (Hin : In e (rooms_of r (rooms st))).
  { rewrite (Hcons r), Hc. simpl. rewrite He. now left. }
  unfold rooms_of in Hin. apply in_map_iff in Hin as ([r0 e0] & <- & Hin).
  apply filter_In in Hin as [Hin Hr]. simpl in Hr. apply String.eqb_eq in Hr.
  now subst.
Qed.

Lemma peers_leave_all sid e rs :
  filter (fun s => negb (s =? sid)%string) (room_members e (leave_all sid rs))
  = peers sid e rs.
Proof.
  unfold peers, room_members, leave_all.
  induction rs as [|[s0 e0] rs IH]; simpl; auto.
  destruct (String.eqb_spec s0 sid) as [->|Hne]; simpl.
  - destruct (e0 =? e)%string; simpl; auto. now rewrite String.eqb_refl.
  - destruct (e0 =? e)%string; simpl; auto.
    destruct (String.eqb_spec s0 sid); [contradiction|]. simpl. now rewrite IH.
Qed.

Lemma disconnect_registered now sid session e st :
  activeSessions_get st sid = Some session ->
  truthy_value (currentEvent session) = Some e ->
  disconnect now sid st
  = (mkState (remove_key sid (conns st)) (keys_delete sid (activeSessions st))
       (leave_all sid (rooms st)) (persist sid e (endSession now) (db st)),
     [mkEmission (SocketTo sid e) (peers sid e (rooms st))
        (user_left sid (userInfo session))]).
Proof.
  intros Hg He.
  destruct (activeSessions_get_some st sid session Hg) as (_ & c & Hc & _).
  unfold disconnect. rewrite Hc. unfold disconnect_handler.
  replace (activeSessions_get (set_rooms (leave_all sid (rooms st)) st) sid)
    with (Some session) by (rewrite <- Hg; reflexivity).
  unfold close_session. rewrite He. cbn [fst snd set_db set_rooms delete_session
    conns activeSessions rooms db]. unfold emit. now rewrite peers_leave_all.
Qed.




End DashboardMore.

(** ** The connections of the flat server *)

Module BackendSockets.
Import Collection CollectionFacts Runtime Backend BackendFacts BackendMore.
Import DashboardFacts DashboardMore.

(** *** The cleanup of the flat server *)

Lemma keys_assign {A} k (v : A) l :
  map fst (assign k v l)
  = if existsb (fun k' => (k' =? k)%string) (map fst l) then map fst l
    else map fst l ++ [k].
Proof.
  induction l as [|[k' v'] l IH]; simpl; auto.
  destruct (String.eqb_spec k' k); simpl.
  - now subst.
  - rewrite IH. now destruct (existsb _ (map fst l)).
Qed.

Lemma keys_remove {A} k (l : list (string * A)) :
  map fst (remove_key k l) = filter (fun k' => negb (k' =? k)%string) (map fst l).
Proof.
  unfold remove_key. induction l as [|[k' v'] l IH]; simpl; auto.
  destruct (k' =? k)%string; simpl; now rewrite IH.
Qed.

Lemma lookup_in_keys {A} k (l : list (string * A)) :
  In k (map fst l) <-> exists v, lookup k l = Some v.
Proof.
  induction l as [|[k' v'] l IH]; simpl.
  - split; [tauto|intros [v H]; discriminate].
  - destruct (String.eqb_spec k' k) as [->|Hne].
    + split; eauto.
    + rewrite <- IH. intuition congruence.
Qed.

Lemma NoDup_keys_assign {A} k (v : A) l :
  NoDup (map fst l) -> NoDup (map fst (assign k v l)).
Proof.
  intros H. rewrite keys_assign.
  destruct (existsb _ (map fst l)) eqn:E; auto.
  apply NoDup_snoc; auto.
  intros Hin. apply in_keys in Hin. congruence.
Qed.

Lemma connected_set_delete_other k sid l :
  k <> sid ->
  existsb (fun s => (s =? k)%string) (set_delete sid l)
  = existsb (fun s => (s =? k)%string) l.
Proof.
  intros Hne. unfold set_delete. induction l as [|x l IH]; simpl; auto.
  destruct (String.eqb_spec x sid); simpl.
  - subst. destruct (String.eqb_spec sid k); [congruence|exact IH].
  - now rewrite IH.
Qed.

Lemma connected_set_add k x l :
  existsb (fun s => (s =? k)%string) l = true ->
  existsb (fun s => (s =? k)%string) (set_add x l) = true.
Proof.
  intros H. unfold set_add.
  destruct (existsb (fun y => (y =? x)%string) l); auto.
  rewrite existsb_app, H. reflexivity.
Qed.

Lemma connected_set_add_same x l :
  existsb (fun s => (s =? x)%string) (set_add x l) = true.
Proof.
  unfold set_add. destruct (existsb (fun y => (y =? x)%string) l) eqn:E; auto.
  rewrite existsb_app. simpl. rewrite String.eqb_refl. apply orb_true_r.
Qed.

Lemma update_active_end_closes eid s now rows :
  unique_pairs rows ->
  countDocuments (by_active_pair eid s) (update_active eid s (endSession now) rows)
  = 0%nat.
Proof.
  intros Hu. rewrite update_active_endSession by assumption.
  apply countDocuments_none. rewrite forallb_forall. intros d Hd.
  apply in_map_iff in Hd as (d0 & <- & _).
  destruct (by_active_pair eid s d0) eqn:Hd0.
  - unfold by_active_pair. rewrite endSession_inactive. now rewrite andb_false_r.
  - now rewrite Hd0.
Qed.

Lemma update_active_end_not_more eid s now rows e' s' :
  (countDocuments (by_active_pair e' s') (update_active eid s (endSession now) rows)
   <= countDocuments (by_active_pair e' s') rows)%nat.
Proof.
  unfold update_active. destruct (findOne _ rows) as [[i d]|] eqn:Hf; auto.
  pose proof (countDocuments_save _ (by_active_pair e' s') rows i d (endSession now d) Hf)
    as H.
  replace (by_active_pair e' s' (endSession now d)) with false in H; [lia|].
  unfold by_active_pair. rewrite endSession_inactive. now rewrite andb_false_r.
Qed.

Lemma disconnect_registry_ok now sid st :
  registry_ok st -> registry_ok (fst (disconnect now sid st)).
Proof.
  intros (Hnd & Hc & Hu). unfold disconnect.
  destruct (connected sid st) eqn:Hsid; cbn [negb]; [|split; auto].
  unfold disconnect_handler. cbn [activeConnections eventRooms adapter db sockets].
  destruct (lookup sid (activeConnections st)) as [c|] eqn:Hl; cbn [fst].
  - split; [|split]; cbn [activeConnections db].
    + rewrite keys_remove. now apply NoDup_filter.
    + intros k Hk. rewrite keys_remove in Hk. apply filter_In in Hk as [Hk Hne].
      apply negb_true_iff, String.eqb_neq in Hne.
      unfold connected. cbn [sockets]. rewrite connected_set_delete_other by auto.
      now apply Hc.
    + apply update_active_unique; auto.
  - split; [|split]; cbn [activeConnections db]; auto.
    intros k Hk. unfold connected. cbn [sockets].
    rewrite connected_set_delete_other; [now apply Hc|].
    intros ->. apply lookup_in_keys in Hk as [v Hv]. congruence.
Qed.

Lemma sweep_connection_registry_ok now entry st :
  registry_ok st -> registry_ok (fst (sweep_connection now entry st)).
Proof.
  intros H. unfold sweep_connection. destruct (_ <? _); auto. cbn [fst].
  destruct (disconnect_registry_ok now (fst entry) st H) as (Hnd & Hc & Hu).
  split; [|split]; cbn [activeConnections db]; auto.
  - rewrite keys_remove. now apply NoDup_filter.
  - intros k Hk. rewrite keys_remove in Hk. apply filter_In in Hk as [Hk _].
    apply Hc in Hk. exact Hk.
Qed.

Lemma sweep_registry_ok now entries : forall st,
  registry_ok st -> registry_ok (fst (sweep now entries st)).
Proof.
  induction entries as [|entry entries IH]; intros st H; simpl; auto.
  apply IH. now apply sweep_connection_registry_ok.
Qed.

Lemma step_registry_ok isMongoId isIP events i st :
  registry_ok st -> registry_ok (fst (step isMongoId isIP events i st)).
Proof.
  intros (Hnd & Hc & Hu). destruct i; cbn [step fst].
  - split; [|split]; auto. now apply handle_unique.
  - split; [|split]; auto. intros k Hk. apply connected_set_add. now apply Hc.
  - unfold join_event. destruct (connected sid st) eqn:Hsid; cbn [negb]; [|split; auto].
    destruct (truthy_value (jd_eventId data)) as [eventId|]; [|split; auto].
    destruct (truthy_value (jd_userId data)) as [userId|]; [|split; auto].
    destruct (truthy_value (jd_sessionId data)) as [sessionId|]; [|split; auto].
    destruct (Event_findById events eventId); [|split; auto].
    split; [|split]; cbn [fst activeConnections db]; auto.
    + now apply NoDup_keys_assign.
    + intros k Hk. rewrite keys_assign in Hk. unfold connected. cbn [sockets].
      destruct (existsb _ (map fst (activeConnections st))); [now apply Hc|].
      apply in_app_or in Hk as [Hk|[<-|[]]]; [now apply Hc|exact Hsid].
  - unfold cursor_move. destruct (connected sid st) eqn:Hsid; cbn [negb]; [|split; auto].
    destruct (truthy_value (md_eventId data)) as [eventId|]; [|split; auto].
    destruct (truthy_value (md_userId data)) as [userId|]; [|split; auto].
    destruct (truthy_value (md_sessionId data)) as [sessionId|]; [|split; auto].
    destruct (md_x data) as [x|]; [|split; auto].
    destruct (md_y data) as [y|]; [|split; auto].
    destruct (connection_for sid eventId st) as [connection|]; [|split; auto].
    destruct (1000 <? _); [|split; auto].
    split; [|split]; cbn [fst activeConnections db].
    + now apply NoDup_keys_assign.
    + intros k Hk. rewrite keys_assign in Hk. unfold connected. cbn [sockets].
      destruct (existsb _ (map fst (activeConnections st))); [now apply Hc|].
      apply in_app_or in Hk as [Hk|[<-|[]]]; [now apply Hc|exact Hsid].
    + apply update_active_unique; auto. intros. apply addCursorMovement_pair.
  - unfold user_interaction_handler.
    destruct (connected sid st); cbn [negb]; [|split; auto].
    destruct (truthy_value (id_eventId data)) as [eventId|]; [|split; auto].
    destruct (truthy_value (id_userId data)) as [userId|]; [|split; auto].
    destruct (truthy_value (id_sessionId data)) as [sessionId|]; [|split; auto].
    destruct (id_type data) as [type|]; [|split; auto].
    destruct (truthy_value (id_target data)) as [target|]; [|split; auto].
    destruct (connection_for sid eventId st); [|split; auto].
    split; [|split]; cbn [fst activeConnections db]; auto.
    apply update_active_unique; auto.
  - unfold page_view_handler.
    destruct (connected sid st); cbn [negb]; [|split; auto].
    destruct (truthy_value (pvd_eventId data)) as [eventId|]; [|split; auto].
    destruct (truthy_value (pvd_userId data)) as [userId|]; [|split; auto].
    destruct (truthy_value (pvd_sessionId data)) as [sessionId|]; [|split; auto].
    destruct (truthy_value (pvd_page data)) as [page|]; [|split; auto].
    destruct (connection_for sid eventId st); [|split; auto].
    split; [|split]; cbn [fst activeConnections db]; auto.
    apply update_active_unique; auto.
  - now apply disconnect_registry_ok.
  - now apply sweep_registry_ok.
Qed.

Lemma run_registry_ok isMongoId isIP events inputs : forall st,
  registry_ok st -> registry_ok (fst (run isMongoId isIP events inputs st)).
Proof.
  induction inputs as [|i inputs IH]; intros st H; simpl; auto.
  apply IH. now apply step_registry_ok.
Qed.

Lemma initial_registry_ok : registry_ok initial.
Proof.
  split; [constructor|]. split; [intros sid []|apply unique_pairs_empty].
Qed.

Lemma sweep_app now l1 : forall l2 st,
  fst (sweep now (l1 ++ l2) st) = fst (sweep now l2 (fst (sweep now l1 st))).
Proof.
  induction l1 as [|entry l1 IH]; intros l2 st; simpl; auto.
Qed.

Lemma sweep_connection_other now entry st sid :
  fst entry <> sid ->
  lookup sid (activeConnections (fst (sweep_connection now entry st)))
  = lookup sid (activeConnections st)
  /\ connected sid (fst (sweep_connection now entry st)) = connected sid st.
Proof.
  intros Hne. unfold sweep_connection. destruct (_ <? _); auto. cbn [fst].
  cbn [activeConnections]. rewrite lookup_remove_other by auto.
  unfold connected. cbn [sockets].
  unfold disconnect. destruct (Backend.connected (fst entry) st); cbn [negb fst]; auto.
  unfold disconnect_handler. cbn [activeConnections sockets].
  destruct (lookup (fst entry) (activeConnections st)); cbn [fst activeConnections sockets].
  - rewrite lookup_remove_other by auto.
    rewrite connected_set_delete_other by auto. auto.
  - rewrite connected_set_delete_other by auto. auto.
Qed.

Lemma sweep_others now entries sid : forall st,
  ~ In sid (map fst entries) ->
  lookup sid (activeConnections (fst (sweep now entries st)))
  = lookup sid (activeConnections st)
  /\ connected sid (fst (sweep now entries st)) = connected sid st.
Proof.
  induction entries as [|entry entries IH]; intros st Hnot; simpl; auto.
  simpl in Hnot.
  destruct (IH (fst (sweep_connection now entry st))) as [-> ->]; [tauto|].
  apply sweep_connection_other. tauto.
Qed.

Lemma sweep_end_not_more now entries e s : forall st,
  (countDocuments (by_active_pair e s) (db (fst (sweep now entries st)))
   <= countDocuments (by_active_pair e s) (db st))%nat.
Proof.
  induction entries as [|entry entries IH]; intros st; simpl; auto.
  etransitivity; [apply IH|].
  destruct (sweep_connection_db now entry st) as [->|(eid & s0 & ->)]; auto.
  apply update_active_end_not_more.
Qed.

Lemma lookup_split {A} k (v : A) l :
  lookup k l = Some v ->
  exists before after, l = before ++ (k, v) :: after /\ ~ In k (map fst before).
Proof.
  induction l as [|[k' v'] l IH]; simpl; [discriminate|].
  destruct (String.eqb_spec k' k) as [->|Hne].
  - intros H; inversion H; subst. exists [], l. simpl. auto.
  - intros H. destruct (IH H) as (b & a & -> & Hb).
    exists ((k', v') :: b), a. simpl. split; auto. intuition.
Qed.

Lemma tracking_keeps_connectedAt isMongoId isIP events i sid st :
  tracking_of sid i = true ->
  connected_since sid (fst (step isMongoId isIP events i st)) = connected_since sid st.
Proof.
  intros Hi. unfold connected_since.
  destruct i; simpl in Hi; try discriminate;
    apply String.eqb_eq in Hi; subst sid0; cbn [step].
  - unfold cursor_move. destruct (connected sid st); cbn [negb]; auto.
    destruct (truthy_value (md_eventId data)) as [eventId|]; auto.
    destruct (truthy_value (md_userId data)) as [userId|]; auto.
    destruct (truthy_value (md_sessionId data)) as [sessionId|]; auto.
    destruct (md_x data) as [x|]; auto.
    destruct (md_y data) as [y|]; auto.
    unfold connection_for.
    destruct (lookup sid (activeConnections st)) as [connection|] eqn:Hl;
      cbn [fst]; rewrite ?Hl; auto.
    destruct (cn_eventId connection =? eventId)%string; cbn [fst]; rewrite ?Hl; auto.
    destruct (1000 <? _); cbn [fst activeConnections]; rewrite ?Hl; auto.
    rewrite lookup_assign_same. reflexivity.
  - unfold user_interaction_handler. destruct (connected sid st); cbn [negb]; auto.
    destruct (truthy_value (id_eventId data)) as [eventId|]; auto.
    destruct (truthy_value (id_userId data)) as [userId|]; auto.
    destruct (truthy_value (id_sessionId data)) as [sessionId|]; auto.
    destruct (id_type data) as [type|]; auto.
    destruct (truthy_value (id_target data)) as [target|]; auto.
    destruct (connection_for sid eventId st); auto.
  - unfold page_view_handler. destruct (connected sid st); cbn [negb]; auto.
    destruct (truthy_value (pvd_eventId data)) as [eventId|]; auto.
    destruct (truthy_value (pvd_userId data)) as [userId|]; auto.
    destruct (truthy_value (pvd_sessionId data)) as [sessionId|]; auto.
    destruct (truthy_value (pvd_page data)) as [page|]; auto.
    destruct (connection_for sid eventId st); auto.
Qed.



(** *** The user counts of the flat server *)

Lemma in_set_add k x l :
  existsb (fun s => (s =? k)%string) l = true ->
  existsb (fun s => (s =? k)%string) (set_add x l) = true.
Proof. apply connected_set_add. Qed.

Lemma disconnect_handler_counted now s st sid a :
  counted_in sid a st = true ->
  connected_elsewhere sid a st ->
  counted_in sid a (fst (disconnect_handler now s st)) = true
  /\ connected_elsewhere sid a (fst (disconnect_handler now s st)).
Proof.
  intros Hin Hels. unfold disconnect_handler.
  destruct (lookup s (activeConnections st)) as [c|] eqn:Hc; auto.
  cbn [fst]. split.
  - unfold counted_in in *. cbn [eventRooms].
    destruct (lookup (cn_eventId c) (eventRooms st)) as [members|] eqn:Hm;
      cbn [fst]; auto.
    destruct (String.eqb_spec (cn_eventId c) a) as [Ea|Ea].
    + rewrite Ea in Hm. rewrite Hm in Hin.
      assert (Hne : s <> sid).
      { intros ->. exact (Hels c Hc Ea). }
      assert (Hkeep : existsb (fun x => (x =? sid)%string) (set_delete s members) = true).
      { rewrite connected_set_delete_other; auto. }
      destruct (set_delete s members) as [|m ms] eqn:Hd; [discriminate|].
      cbn [fst]. rewrite Ea, lookup_assign_same. exact Hkeep.
    + destruct (set_delete s members); cbn [fst].
      * rewrite lookup_remove_other; auto.
      * rewrite lookup_assign_other; auto.
  - intros c'. cbn [activeConnections].
    destruct (String.eqb_spec s sid) as [->|Hne].
    + now rewrite lookup_remove_same.
    + rewrite lookup_remove_other by auto. apply Hels.
Qed.

Lemma disconnect_counted now s st sid a :
  counted_in sid a st = true ->
  connected_elsewhere sid a st ->
  counted_in sid a (fst (disconnect now s st)) = true
  /\ connected_elsewhere sid a (fst (disconnect now s st)).
Proof.
  intros Hin Hels. unfold disconnect.
  destruct (connected s st); cbn [negb]; auto.
  now apply disconnect_handler_counted.
Qed.

Lemma sweep_counted now entries sid a : forall st,
  counted_in sid a st = true ->
  connected_elsewhere sid a st ->
  counted_in sid a (fst (sweep now entries st)) = true
  /\ connected_elsewhere sid a (fst (sweep now entries st)).
Proof.
  induction entries as [|entry entries IH]; intros st Hin Hels; simpl; auto.
  apply IH.
  - unfold sweep_connection. destruct (_ <? _); auto. cbn [fst].
    unfold counted_in. cbn [eventRooms].
    now apply disconnect_counted.
  - unfold sweep_connection. destruct (_ <? _); auto. cbn [fst].
    intros c. cbn [activeConnections].
    destruct (String.eqb_spec (fst entry) sid) as [->|Hne].
    + now rewrite lookup_remove_same.
    + rewrite lookup_remove_other by auto.
      now apply disconnect_counted.
Qed.

Lemma step_counted isMongoId isIP events i st sid a :
  joins sid a i = false ->
  counted_in sid a st = true ->
  connected_elsewhere sid a st ->
  counted_in sid a (fst (step isMongoId isIP events i st)) = true
  /\ connected_elsewhere sid a (fst (step isMongoId isIP events i st)).
Proof.
  intros Hi Hin Hels. destruct i; simpl in Hi; cbn [step fst]; auto.
  - unfold join_event. destruct (connected sid0 st); cbn [negb]; auto.
    destruct (truthy_value (jd_eventId data)) as [eventId|] eqn:He; auto.
    destruct (truthy_value (jd_userId data)) as [userId|]; auto.
    destruct (truthy_value (jd_sessionId data)) as [sessionId|]; auto.
    destruct (Event_findById events eventId); auto.
    cbn [fst]. split.
    + unfold counted_in in *. cbn [eventRooms].
      destruct (String.eqb_spec eventId a) as [->|Ea].
      * rewrite lookup_assign_same.
        destruct (lookup a (eventRooms st)) as [m|]; [|discriminate].
        now apply in_set_add.
      * rewrite lookup_assign_other; auto.
    + intros c. cbn [activeConnections].
      destruct (String.eqb_spec sid0 sid) as [->|Hne].
      * rewrite lookup_assign_same. intros H; inversion H; subst. cbn [cn_eventId].
        simpl in Hi. intros ->. now rewrite String.eqb_refl in Hi.
      * rewrite lookup_assign_other by auto. apply Hels.
  - unfold cursor_move. destruct (connected sid0 st); cbn [negb]; auto.
    destruct (truthy_value (md_eventId data)) as [eventId|]; auto.
    destruct (truthy_value (md_userId data)) as [userId|]; auto.
    destruct (truthy_value (md_sessionId data)) as [sessionId|]; auto.
    destruct (md_x data) as [x|]; auto.
    destruct (md_y data) as [y|]; auto.
    unfold connection_for.
    destruct (lookup sid0 (activeConnections st)) as [connection|] eqn:Hl; auto.
    destruct (cn_eventId connection =? eventId)%string; auto.
    destruct (1000 <? _); auto. cbn [fst]. split; auto.
    intros c. cbn [activeConnections].
    destruct (String.eqb_spec sid0 sid) as [->|Hne].
    + rewrite lookup_assign_same. intros H; inversion H; subst. cbn [cn_eventId].
      now apply Hels.
    + rewrite lookup_assign_other by auto. apply Hels.
  - unfold user_interaction_handler. destruct (connected sid0 st); cbn [negb]; auto.
    destruct (truthy_value (id_eventId data)) as [eventId|]; auto.
    destruct (truthy_value (id_userId data)) as [userId|]; auto.
    destruct (truthy_value (id_sessionId data)) as [sessionId|]; auto.
    destruct (id_type data) as [type|]; auto.
    destruct (truthy_value (id_target data)) as [target|]; auto.
    destruct (connection_for sid0 eventId st); auto.
  - unfold page_view_handler. destruct (connected sid0 st); cbn [negb]; auto.
    destruct (truthy_value (pvd_eventId data)) as [eventId|]; auto.
    destruct (truthy_value (pvd_userId data)) as [userId|]; auto.
    destruct (truthy_value (pvd_sessionId data)) as [sessionId|]; auto.
    destruct (truthy_value (pvd_page data)) as [page|]; auto.
    destruct (connection_for sid0 eventId st); auto.
  - now apply disconnect_counted.
  - unfold cleanup. now apply sweep_counted.
Qed.

Lemma run_counted isMongoId isIP events later sid a : forall st,
  forallb (fun i => negb (joins sid a i)) later = true ->
  counted_in sid a st = true ->
  connected_elsewhere sid a st ->
  counted_in sid a (fst (run isMongoId isIP events later st)) = true.
Proof.
  induction later as [|i later IH]; intros st Hl Hin Hels; simpl; auto.
  simpl in Hl. apply andb_prop in Hl as [Hi Hl]. apply negb_true_iff in Hi.
  destruct (step_counted isMongoId isIP events i st sid a Hi Hin Hels) as [H1 H2].
  now apply IH.
Qed.

(** X24. The user count of a room keeps the visitors that moved on.  The
    flat server takes a socket out of the member set of a room only when the
    socket disconnects while its connection is for that room.  So a socket
    that is counted in the room of an event [a] while its connection is for
    another event stays counted in [a] whatever happens later - its own
    disconnect and the cleanups included - as long as it does not join [a]
    again; and every [active-users-update] for [a] sent after that counts
    it. *)
Theorem flat_room_count_keeps_ghosts isMongoId isIP events st sid a later :
  counted_in sid a st = true ->
  connected_elsewhere sid a st ->
  forallb (fun i => negb (joins sid a i)) later = true ->
  let st' := fst (run isMongoId isIP events later st) in
  counted_in sid a st' = true
  /\ forall now s data,
       connected s st' = true ->
       truthy_value (jd_eventId data) = Some a ->
       s <> sid ->
       Forall (fun count => (2 <= count)%nat)
         (counts_for a (snd (join_event events now s data st'))).
Proof.
  intros Hin Hels Hl st'.
  assert (Hin' : counted_in sid a st' = true) by now apply run_counted.
  split; [exact Hin'|].
  intros now s data Hs He Hne. unfold join_event. rewrite Hs. cbn [negb].
  rewrite He.
  destruct (truthy_value (jd_userId data)) as [userId|]; [|constructor].
  destruct (truthy_value (jd_sessionId data)) as [sessionId|]; [|constructor].
  destruct (Event_findById events a); [|constructor].
  cbn [snd counts_for flat_map emit em_notice app]. rewrite String.eqb_refl.
  constructor; [|constructor].
  unfold counted_in in Hin'.
  destruct (lookup a (eventRooms st')) as [members|]; [|discriminate].
  assert (H1 : In sid (set_add s members)).
  { apply in_keys. now apply in_set_add. }
  assert (H2 : In s (set_add s members)).
  { apply in_keys. apply connected_set_add_same. }
  destruct (set_add s members) as [|x [|y l]]; simpl in *; try tauto; [|lia].
  destruct H1 as [->|[]]. destruct H2 as [->|[]]. congruence.
Qed.

Lemma flat_room_count_keeps_ghosts_witness :
  let st := fst (run hex24 no_ip two_events wandering_visitor initial) in
  let st' := fst (run hex24 no_ip two_events
                    [OnDisconnect 3 "socket_1"; OnCleanup 900000;
                     OnConnection "socket_2"] st) in
  connected "socket_1" st' = false
  /\ counts_for tech_conference
       (snd (join_event two_events 900001 "socket_2"
               (mkJoinData (Some tech_conference) (Some "user_002")
                  (Some "session_003")) st'))
     = [2%nat].
Proof.
  intros st st'. split; [reflexivity|].
  destruct (flat_room_count_keeps_ghosts hex24 no_ip two_events st "socket_1"
              tech_conference
              [OnDisconnect 3 "socket_1"; OnCleanup 900000; OnConnection "socket_2"])
    as [_ H].
  - reflexivity.
  - intros c Hc. vm_compute in Hc. inversion Hc. vm_compute. discriminate.
  - reflexivity.
  - reflexivity.
Defined.

End BackendSockets.

(** ** The routes of the nested server *)

Module DashboardRoutes.
Import Collection CollectionFacts Runtime Dashboard DashboardFacts DashboardMore.
Import BackendSockets.

Lemma In_assign {A} k (v : A) m x :
  In x (assign k v m) -> x = (k, v) \/ In x m.
Proof.
  induction m as [|[k' v'] m IH]; simpl.
  - intros [<-|[]]. auto.
  - destruct (String.eqb_spec k' k) as [->|Hne]; simpl.
    + intros [<-|H]; auto.
    + intros [<-|H]; auto. destruct (IH H); auto.
Qed.

Lemma assign_keeps {A} k (v : A) m x :
  In x m -> fst x <> k -> In x (assign k v m).
Proof.
  induction m as [|[k' v'] m IH]; simpl; [tauto|].
  intros [<-|H] Hne.
  - simpl in Hne. destruct (String.eqb_spec k' k); [congruence|now left].
  - destruct (String.eqb_spec k' k); simpl; auto.
Qed.

Lemma lookup_In {A} k (v : A) m : lookup k m = Some v -> In (k, v) m.
Proof.
  induction m as [|[k' v'] m IH]; simpl; [discriminate|].
  destruct (String.eqb_spec k' k) as [->|Hne]; [intros H; inversion H; auto|auto].
Qed.

(** The map after the sessions in memory are set. *)
Lemma memory_map ms : forall m,
  NoDup (map fst m) ->
  let m' := fold_left (fun m session =>
                         assign (as_sessionId session) (of_memory session) m) ms m in
  NoDup (map fst m')
  /\ (forall x, In x m' ->
        In x m \/ exists s, In s ms /\ x = (as_sessionId s, of_memory s))
  /\ (forall s, In s ms -> In (as_sessionId s) (map fst m'))
  /\ (forall k, In k (map fst m) -> In k (map fst m')).
Proof.
  induction ms as [|s ms IH]; intros m Hnd; cbn [fold_left].
  - repeat split; auto. intros s [].
  - destruct (IH (assign (as_sessionId s) (of_memory s) m) (NoDup_keys_assign _ _ _ Hnd))
      as (H1 & H2 & H3 & H4).
    assert (Hs : In (as_sessionId s)
                   (map fst (assign (as_sessionId s) (of_memory s) m))).
    { apply lookup_in_keys. rewrite lookup_assign_same. eauto. }
    split; [exact H1|]. split; [|split].
    + intros x Hx. destruct (H2 x Hx) as [Hin|(s' & Hs' & ->)].
      * apply In_assign in Hin as [->|Hin]; auto. right. exists s. split; auto.
        now left.
      * right. exists s'. split; auto. now right.
    + intros s' [<-|Hs']; auto.
    + intros k Hk. apply H4. rewrite keys_assign.
      destruct (existsb _ (map fst m)); auto. apply in_or_app. now left.
Qed.

(** The map after the sessions of the collection are added. *)
Lemma database_map users ds : forall m,
  NoDup (map fst m) ->
  let m' := fold_left (fun m session =>
                         match lookup (sessionId session) m with
                         | Some _ => m
                         | None => assign (sessionId session) (of_database users session) m
                         end) ds m in
  NoDup (map fst m')
  /\ (forall x, In x m' ->
        In x m
        \/ exists d, In d ds /\ x = (sessionId d, of_database users d)
                     /\ ~ In (sessionId d) (map fst m))
  /\ (forall d, In d ds -> In (sessionId d) (map fst m'))
  /\ (forall x, In x m -> In x m').
Proof.
  induction ds as [|d ds IH]; intros m Hnd; cbn [fold_left].
  - repeat split; auto. intros d [].
  - destruct (lookup (sessionId d) m) as [v|] eqn:Hl.
    + destruct (IH m Hnd) as (H1 & H2 & H3 & H4).
      split; [exact H1|]. split; [|split]; auto.
      * intros x Hx. destruct (H2 x Hx) as [Hin|(d' & Hd' & -> & Hnot)]; auto.
        right. exists d'. split; auto. now right.
      * intros d' [<-|Hd']; auto.
        apply lookup_In in Hl. apply H4 in Hl.
        apply (in_map fst) in Hl. exact Hl.
    + assert (Hnot : ~ In (sessionId d) (map fst m)).
      { intros Hin. apply lookup_in_keys in Hin as [v Hv]. congruence. }
      destruct (IH (assign (sessionId d) (of_database users d) m)
                  (NoDup_keys_assign _ _ _ Hnd)) as (H1 & H2 & H3 & H4).
      split; [exact H1|]. split; [|split].
      * intros x Hx. destruct (H2 x Hx) as [Hin|(d' & Hd' & -> & Hnot')].
        -- apply In_assign in Hin as [->|Hin]; auto.
           right. exists d. split; [now left|]. auto.
        -- right. exists d'. split; [now right|]. split; auto.
           intros Hin. apply Hnot'. rewrite keys_assign.
           destruct (existsb _ (map fst m)); auto. apply in_or_app. now left.
      * intros d' [<-|Hd']; auto.
        assert (Hk : In (sessionId d)
                       (map fst (assign (sessionId d) (of_database users d) m))).
        { apply lookup_in_keys. rewrite lookup_assign_same. eauto. }
        apply in_map_iff in Hk as (x & Hx1 & Hx2).
        apply in_map_iff. exists x. split; auto.
      * intros x Hx. apply H4. apply assign_keeps; auto.
        intros E. apply Hnot. rewrite <- E. now apply in_map.
Qed.

(** X20. The active sessions of an event, as the route lists them.  No
    session id is listed twice.  Every session in memory for the event is
    listed, as a memory session, with the data of the registry.  A session
    log of the collection (of the event, active, with activity in the last
    five minutes) is listed as a database session only when no session in
    memory has its id; otherwise the memory session stands for it.  So the
    route lists at most as many sessions as the memory and the collection
    give together. *)
Theorem active_sessions_merge users now st eid :
  let listed := getActiveSessions users now st eid in
  let memorySessions := getActiveSessionsForEvent st eid in
  let dbSessions := CursorLog_getActiveSessions now (db st) eid in
  NoDup (map ls_sessionId listed)
  /\ (forall l, In l listed ->
        (exists s, In s memorySessions /\ l = of_memory s)
        \/ (exists d, In d dbSessions /\ l = of_database users d
                      /\ forall s, In s memorySessions -> as_sessionId s <> sessionId d))
  /\ (forall s, In s memorySessions ->
        exists l, In l listed /\ ls_sessionId l = as_sessionId s /\ ls_source l = memory)
  /\ (forall d, In d dbSessions ->
        exists l, In l listed /\ ls_sessionId l = sessionId d)
  /\ (length listed <= length memorySessions + length dbSessions)%nat.
Proof.
  intros listed memorySessions dbSessions.
  unfold listed, getActiveSessions. fold memorySessions. fold dbSessions.
  destruct (memory_map memorySessions [] (NoDup_nil _)) as (M1 & M2 & M3 & _).
  set (m1 := fold_left _ memorySessions []) in *.
  destruct (database_map users dbSessions m1 M1) as (D1 & D2 & D3 & D4).
  set (m2 := fold_left _ dbSessions m1) in *.
  assert (Hid : forall x, In x m2 -> ls_sessionId (snd x) = fst x).
  { intros x Hx. destruct (D2 x Hx) as [Hin|(d & _ & -> & _)]; [|reflexivity].
    destruct (M2 x Hin) as [[]|(s & _ & ->)]. reflexivity. }
  assert (Hkeys : map ls_sessionId (map snd m2) = map fst m2).
  { rewrite map_map. apply map_ext_in. exact Hid. }
  split; [now rewrite Hkeys|]. split; [|split; [|split]].
  - intros l Hl. apply in_map_iff in Hl as (x & <- & Hx).
    destruct (D2 x Hx) as [Hin|(d & Hd & -> & Hnot)].
    + left. destruct (M2 x Hin) as [[]|(s & Hs & ->)]. eauto.
    + right. exists d. split; auto. split; auto.
      intros s Hs E. apply Hnot. rewrite <- E. now apply M3.
  - intros s Hs. specialize (M3 s Hs).
    apply in_map_iff in M3 as (x & Hx1 & Hx2).
    exists (snd x). split; [apply in_map, D4, Hx2|].
    destruct (M2 x Hx2) as [[]|(s' & _ & ->)]. simpl in *. auto.
  - intros d Hd. specialize (D3 d Hd).
    apply in_map_iff in D3 as (x & Hx1 & Hx2).
    exists (snd x). split; [now apply in_map|]. now rewrite Hid.
  - rewrite length_map.
    assert (Hincl : incl (map fst m2)
                      (map as_sessionId memorySessions ++ map sessionId dbSessions)).
    { intros k Hk. apply in_map_iff in Hk as (x & <- & Hx). apply in_or_app.
      destruct (D2 x Hx) as [Hin|(d & Hd & -> & _)].
      - left. destruct (M2 x Hin) as [[]|(s & Hs & ->)]. cbn [fst].
        now apply (in_map as_sessionId).
      - right. cbn [fst]. now apply (in_map sessionId). }
    pose proof (NoDup_incl_length D1 Hincl) as Hle.
    rewrite length_app, !length_map in Hle. exact Hle.
Qed.

End DashboardRoutes.
